(** * translatepr: content parsers, translation orchestrator and DeepL adapter

    A shallow embedding of the content-aware extraction / translation /
    reconstruction pipeline:

    - [src/services/contentParsers/*.ts] (JSON, Editor.js, GrapeJS, HTML and
      Markdown parsers and their registry),
    - [src/services/enhancedTranslationService.ts] (batched translation,
      structured and bulk processing, validation of a translation),
    - [src/services/translationService.ts] ([createTranslation]),
    - [src/services/deeplService.ts] (retry, translation memory, batches,
      statistics).

    JavaScript strings are modelled as [string]; white space, case mapping
    and the character classes of regular expressions are those of
    ECMAScript on code units below 128.  Values produced by [JSON.parse] are
    modelled as the inductive [json]; an exception as [None] of the
    enclosing computation, the rejection of a promise as [Rejected]. *)

From Stdlib Require Import String Ascii List ZArith Lia Bool QArith.
From stdpp Require Import base option list gmap strings pretty.

Import ListNotations.
Local Open Scope string_scope.
Local Open Scope list_scope.

(** ** JavaScript strings *)

Module JS.

Definition chars (s : string) : list ascii := list_ascii_of_string s.
Definition str (l : list ascii) : string := string_of_list_ascii l.

Definition code (c : ascii) : nat := nat_of_ascii c.

Definition between (lo hi : nat) (c : ascii) : bool :=
  (lo <=? code c)%nat && (code c <=? hi)%nat.

(** White space and line terminators with a code unit below 128: TAB, LF,
    VT, FF, CR and SPACE. *)
Definition is_space (c : ascii) : bool :=
  between 9 13 c || (code c =? 32)%nat.

Definition is_digit (c : ascii) : bool := between 48 57 c.
Definition is_upper (c : ascii) : bool := between 65 90 c.
Definition is_lower (c : ascii) : bool := between 97 122 c.

(** [\w] *)
Definition is_word (c : ascii) : bool :=
  is_digit c || is_upper c || is_lower c || (code c =? 95)%nat.

Definition is_line_terminator (c : ascii) : bool :=
  (code c =? 10)%nat || (code c =? 13)%nat.

Definition lower (c : ascii) : ascii :=
  if is_upper c then ascii_of_nat (code c + 32) else c.
Definition upper (c : ascii) : ascii :=
  if is_lower c then ascii_of_nat (code c - 32) else c.

Fixpoint trim_start (l : list ascii) : list ascii :=
  match l with
  | c :: tl => if is_space c then trim_start tl else l
  | [] => []
  end.

(** [s.trim()] *)
Definition trim (s : string) : string :=
  str (rev (trim_start (rev (trim_start (chars s))))).

(** [s.toLowerCase()] *)
Definition toLowerCase (s : string) : string := str (map lower (chars s)).

(** [s.length] *)
Definition length (s : string) : nat := String.length s.

(** Truthiness of a string: non-empty. *)
Definition truthy (s : string) : bool :=
  match s with EmptyString => false | String _ _ => true end.

(** [a || b] on strings. *)
Definition or_else (a b : string) : string := if truthy a then a else b.

(** [l.includes(x)] on an array of strings. *)
Definition includes (l : list string) (x : string) : bool :=
  existsb (String.eqb x) l.

Fixpoint starts_with_chars (p l : list ascii) : bool :=
  match p, l with
  | [], _ => true
  | a :: p', b :: l' => Ascii.eqb a b && starts_with_chars p' l'
  | _ :: _, [] => false
  end.

(** [s.startsWith(p)] *)
Definition startsWith (s p : string) : bool :=
  starts_with_chars (chars p) (chars s).

Fixpoint split_chars (sep : ascii) (cur : list ascii) (l : list ascii)
  : list string :=
  match l with
  | [] => [str (rev cur)]
  | c :: tl =>
      if Ascii.eqb c sep then str (rev cur) :: split_chars sep [] tl
      else split_chars sep (c :: cur) tl
  end.

(** [s.split(sep)] for a one-character separator. *)
Definition split (sep : ascii) (s : string) : list string :=
  split_chars sep [] (chars s).

(** Template-literal rendering of an array index. *)
Definition of_nat (n : nat) : string := pretty n.

Fixpoint mapi_from {A B : Type} (f : nat -> A -> B) (index : nat)
  (l : list A) : list B :=
  match l with
  | [] => []
  | x :: tl => f index x :: mapi_from f (S index) tl
  end.

(** [l.map((x, index) => f index x)]; with [concat], the pushes of
    [l.forEach((x, index) => f index x)]. *)
Definition mapi {A B : Type} (f : nat -> A -> B) (l : list A) : list B :=
  mapi_from f O l.

End JS.

(** ** Regular expressions

    A backtracking matcher with the semantics of ECMAScript [RegExp] for the
    constructs the source uses: character classes, sequence, alternation,
    greedy bounded and unbounded repetition, capture groups, [^], [$], [\b],
    and the flags [i], [m] and [g]. *)

Module Regex.

Inductive re : Type :=
| Eps : re
| Chr (invert : bool) (p : ascii -> bool) : re
| Seq (a b : re) : re
| Alt (a b : re) : re
| Rep (lo : nat) (hi : option nat) (a : re) : re
| Grp (i : nat) (a : re) : re
| Bol : re
| Eol : re
| WordB : re.

Record flags : Type := { ignoreCase : bool; multiline : bool }.

Definition no_flags : flags := {| ignoreCase := false; multiline := false |}.
Definition flag_i : flags := {| ignoreCase := true; multiline := false |}.
Definition flag_m : flags := {| ignoreCase := false; multiline := true |}.

(** The matcher state: the input before the current position (reversed),
    the input from the current position on, and the captures so far. *)
Record mstate : Type :=
  { consumed : list ascii; rest : list ascii; caps : list (nat * string) }.

Definition class_test (fl : flags) (p : ascii -> bool) (c : ascii) : bool :=
  if ignoreCase fl then p c || p (JS.upper c) || p (JS.lower c) else p c.

Definition at_bol (fl : flags) (s : mstate) : bool :=
  match consumed s with
  | [] => true
  | c :: _ => multiline fl && JS.is_line_terminator c
  end.

Definition at_eol (fl : flags) (s : mstate) : bool :=
  match rest s with
  | [] => true
  | c :: _ => multiline fl && JS.is_line_terminator c
  end.

Definition at_word_boundary (s : mstate) : bool :=
  let a := match consumed s with c :: _ => JS.is_word c | [] => false end in
  let b := match rest s with c :: _ => JS.is_word c | [] => false end in
  xorb a b.

Definition set_cap (i : nat) (from to : mstate) : mstate :=
  let n := (List.length (consumed to) - List.length (consumed from))%nat in
  {| consumed := consumed to; rest := rest to;
     caps := (i, JS.str (rev (firstn n (consumed to)))) :: caps to |}.

Definition pred_budget (b : option nat) : option nat :=
  match b with Some n => Some (Nat.pred n) | None => None end.

Definition budget_empty (b : option nat) : bool :=
  match b with Some O => true | _ => false end.

Fixpoint run (fl : flags) (r : re) (k : mstate -> option mstate)
  (s : mstate) {struct r} : option mstate :=
  match r with
  | Eps => k s
  | Chr invert p =>
      match rest s with
      | c :: tl =>
          if xorb invert (class_test fl p c)
          then k {| consumed := c :: consumed s; rest := tl; caps := caps s |}
          else None
      | [] => None
      end
  | Seq a b => run fl a (run fl b k) s
  | Alt a b =>
      match run fl a k s with
      | Some x => Some x
      | None => run fl b k s
      end
  | Rep lo hi a =>
      let more :=
        fix more (fuel : nat) (budget : option nat) (s : mstate)
          : option mstate :=
          match fuel with
          | O => k s
          | S fuel' =>
              if budget_empty budget then k s
              else
                match
                  run fl a
                    (fun s' =>
                       if (List.length (rest s') <? List.length (rest s))%nat
                       then more fuel' (pred_budget budget) s'
                       else None) s
                with
                | Some x => Some x
                | None => k s
                end
          end in
      let required :=
        fix required (n : nat) (s : mstate) : option mstate :=
          match n with
          | O =>
              more (S (List.length (rest s)))
                (match hi with Some h => Some (h - lo)%nat | None => None end)
                s
          | S n' => run fl a (required n') s
          end in
      required lo s
  | Grp i a => run fl a (fun s' => k (set_cap i s s')) s
  | Bol => if at_bol fl s then k s else None
  | Eol => if at_eol fl s then k s else None
  | WordB => if at_word_boundary s then k s else None
  end.

(** One successful match: start index, end index, captures. *)
Record result : Type :=
  { m_start : nat; m_end : nat; m_caps : list (nat * string) }.

(** Try to match [r] exactly at the position of [s]. *)
Definition match_here (fl : flags) (r : re) (s : mstate) : option result :=
  match run fl r Some s with
  | Some s' =>
      Some {| m_start := List.length (consumed s);
              m_end := List.length (consumed s');
              m_caps := caps s' |}
  | None => None
  end.

(** Leftmost match at or after the position of [s]. *)
Fixpoint search_from (fl : flags) (r : re) (fuel : nat) (s : mstate)
  : option result :=
  match match_here fl r s with
  | Some m => Some m
  | None =>
      match fuel, rest s with
      | S fuel', c :: tl =>
          search_from fl r fuel'
            {| consumed := c :: consumed s; rest := tl; caps := [] |}
      | _, _ => None
      end
  end.

(** [r.exec(s)] with [lastIndex = from]. *)
Definition exec_at (fl : flags) (r : re) (s : string) (from : nat)
  : option result :=
  let l := JS.chars s in
  if (List.length l <? from)%nat then None
  else
    search_from fl r (List.length l)
      {| consumed := rev (firstn from l); rest := skipn from l; caps := [] |}.

(** [r.test(s)] for a regex without the [g] flag. *)
Definition test (fl : flags) (r : re) (s : string) : bool :=
  match exec_at fl r s 0 with Some _ => true | None => false end.

(** Capture [i] of a match; a group that did not take part is [None]. *)
Definition cap (m : result) (i : nat) : option string :=
  match List.find (fun e => (fst e =? i)%nat) (m_caps m) with
  | Some e => Some (snd e)
  | None => None
  end.

Definition substring (s : string) (from to : nat) : string :=
  JS.str (firstn (to - from) (skipn from (JS.chars s))).

(** All matches of a [g] regex in order ([while (r.exec(s))] and the
    collection phase of [replace]); an empty match advances by one. *)
Fixpoint matches_from (fl : flags) (r : re) (s : string) (fuel from : nat)
  : list result :=
  match fuel with
  | O => []
  | S fuel' =>
      match exec_at fl r s from with
      | None => []
      | Some m =>
          m :: matches_from fl r s fuel'
                 (if (m_end m =? m_start m)%nat then S (m_end m) else m_end m)
      end
  end.

Definition matches (fl : flags) (r : re) (s : string) : list result :=
  matches_from fl r s (S (S (JS.length s))) 0.

(** *** Replacement templates ([GetSubstitution]) *)

Definition digit_val (c : ascii) : option nat :=
  if JS.is_digit c then Some (JS.code c - 48)%nat else None.

Definition group_count (r : re) : nat :=
  (fix go (r : re) : nat :=
     match r with
     | Seq a b | Alt a b => Nat.max (go a) (go b)
     | Rep _ _ a => go a
     | Grp i a => Nat.max i (go a)
     | _ => O
     end) r.

Definition cap_text (m : result) (i : nat) : list ascii :=
  match cap m i with Some t => JS.chars t | None => [] end.

Fixpoint expand (ngroups : nat) (s : string) (m : result)
  (tpl : list ascii) : list ascii :=
  match tpl with
  | [] => []
  | "$"%char :: tl =>
      match tl with
      | "$"%char :: tl' => "$"%char :: expand ngroups s m tl'
      | "&"%char :: tl' =>
          JS.chars (substring s (m_start m) (m_end m))
            ++ expand ngroups s m tl'
      | "`"%char :: tl' =>
          JS.chars (substring s 0 (m_start m)) ++ expand ngroups s m tl'
      | "'"%char :: tl' =>
          JS.chars (substring s (m_end m) (JS.length s))
            ++ expand ngroups s m tl'
      | d1 :: tl' =>
          match digit_val d1 with
          | None => "$"%char :: expand ngroups s m tl
          | Some n1 =>
              let two :=
                match tl' with
                | d2 :: tl'' =>
                    match digit_val d2 with
                    | Some n2 =>
                        let nn := (10 * n1 + n2)%nat in
                        if (1 <=? nn)%nat && (nn <=? ngroups)%nat
                        then Some (cap_text m nn ++ expand ngroups s m tl'')
                        else None
                    | None => None
                    end
                | [] => None
                end in
              match two with
              | Some out => out
              | None =>
                  if (1 <=? n1)%nat && (n1 <=? ngroups)%nat
                  then cap_text m n1 ++ expand ngroups s m tl'
                  else "$"%char :: expand ngroups s m tl
              end
          end
      | [] => ["$"%char]
      end
  | c :: tl => c :: expand ngroups s m tl
  end.

(** Assemble the result of [s.replace(r, tpl)] from the collected matches. *)
Fixpoint assemble (ngroups : nat) (s : string) (tpl : list ascii)
  (ms : list result) (next : nat) : list ascii :=
  match ms with
  | [] => JS.chars (substring s next (JS.length s))
  | m :: ms' =>
      if (next <=? m_start m)%nat
      then JS.chars (substring s next (m_start m))
             ++ expand ngroups s m tpl
             ++ assemble ngroups s tpl ms' (m_end m)
      else assemble ngroups s tpl ms' next
  end.

(** [s.replace(r, tpl)] for a regex with the [g] flag. *)
Definition replace_all (fl : flags) (r : re) (s tpl : string) : string :=
  JS.str (assemble (group_count r) s (JS.chars tpl) (matches fl r s) 0).

(** *** Pattern combinators *)

Definition chr (c : ascii) : re := Chr false (Ascii.eqb c).

Fixpoint lit_chars (l : list ascii) : re :=
  match l with
  | [] => Eps
  | [c] => chr c
  | c :: tl => Seq (chr c) (lit_chars tl)
  end.

(** A literal string. *)
Definition lit (s : string) : re := lit_chars (JS.chars s).

Definition one_of (s : string) (c : ascii) : bool :=
  existsb (Ascii.eqb c) (JS.chars s).

(** [[...]] and [[^...]] *)
Definition cls (p : ascii -> bool) : re := Chr false p.
Definition ncls (p : ascii -> bool) : re := Chr true p.

(** [.] : any character but a line terminator *)
Definition dot : re := Chr true JS.is_line_terminator.
(** [[\s\S]] *)
Definition any : re := Chr false (fun _ => true).
Definition space : re := Chr false JS.is_space.
Definition digit : re := Chr false JS.is_digit.

Definition star (a : re) : re := Rep 0 None a.
Definition plus (a : re) : re := Rep 1 None a.
Definition opt (a : re) : re := Rep 0 (Some 1%nat) a.

Fixpoint seq (l : list re) : re :=
  match l with
  | [] => Eps
  | [a] => a
  | a :: tl => Seq a (seq tl)
  end.

End Regex.

(** ** Values and shared types *)

(** A value produced by [JSON.parse].  The fields of an object are listed in
    the order of [Object.keys]; the keys of one object are pairwise
    distinct. *)
#[local] Unset Elimination Schemes.
Inductive json : Type :=
| JNull : json
| JBool (b : bool) : json
| JNum (q : Q) : json
| JStr (s : string) : json
| JArr (items : list json) : json
| JObj (fields : list (string * json)) : json.
#[local] Set Elimination Schemes.

(** [JSON.parse], [JSON.stringify(v, null, indent)] and the rendering of a
    number in a template literal belong to the platform; [JSON_parse]
    answers [None] where [JSON.parse] throws. *)
Class JsonApi : Type :=
  { JSON_parse : string -> option json;
    JSON_stringify : json -> nat -> string;
    Number_toString : Q -> string }.

(** Values at run time: a [json] value or [undefined] ([None]).  A
    computation that can throw answers [None] for the exception. *)
Module Value.

Definition t : Type := option json.

Definition undefined : t := None.

Fixpoint lookup (key : string) (fields : list (string * json)) : t :=
  match fields with
  | [] => None
  | (k, v) :: tl => if String.eqb k key then Some v else lookup key tl
  end.

(** [v.key] for the property names the parsers read ([blocks], [type],
    [data], [text], [items], ...): none of them is an index or a
    prototype property, so only an object can own one.  Reading a
    property of [null] or [undefined] throws. *)
Definition prop (v : t) (key : string) : option t :=
  match v with
  | None | Some JNull => None
  | Some (JObj fields) => Some (lookup key fields)
  | Some _ => Some undefined
  end.

Definition truthy (v : t) : bool :=
  match v with
  | None | Some JNull => false
  | Some (JBool b) => b
  | Some (JNum q) => negb (Qeq_bool q 0)
  | Some (JStr s) => JS.truthy s
  | Some (JArr _) | Some (JObj _) => true
  end.

Definition is_array (v : t) : bool :=
  match v with Some (JArr _) => true | _ => false end.

(** [typeof v === 'object'] *)
Definition typeof_object (v : t) : bool :=
  match v with Some JNull | Some (JArr _) | Some (JObj _) => true | _ => false end.

(** [v === s] for a string literal [s]. *)
Definition is_string (v : t) (s : string) : bool :=
  match v with Some (JStr x) => String.eqb x s | _ => false end.

Fixpoint set_existing (key : string) (v : json)
  (fields : list (string * json)) : list (string * json) :=
  match fields with
  | [] => []
  | (k, x) :: tl =>
      if String.eqb k key then (k, v) :: tl
      else (k, x) :: set_existing key v tl
  end.

(** [obj[key] = v] on the fields of an object, for a key that is not an
    array index: an own key keeps its place, a new key goes last. *)
Fixpoint set (key : string) (v : json) (fields : list (string * json))
  : list (string * json) :=
  match fields with
  | [] => [(key, v)]
  | (k, x) :: tl =>
      if String.eqb k key then (k, v) :: tl else (k, x) :: set key v tl
  end.

(** [base[key] = v] in strict mode, for a key that is not an array index:
    throws on [null], [undefined] and primitives; on an array the new
    property is one [JSON.stringify] does not print. *)
Definition assign (base : t) (key : string) (v : json) : option json :=
  match base with
  | Some (JObj fields) => Some (JObj (set key v fields))
  | Some (JArr items) => Some (JArr items)
  | _ => None
  end.

Fixpoint join (sep : string) (l : list string) : string :=
  match l with
  | [] => ""
  | [x] => x
  | x :: tl => x +:+ sep +:+ join sep tl
  end.

(** [String(v)], as a template literal renders [v]. *)
Fixpoint to_string_json `{JsonApi} (v : json) : string :=
  match v with
  | JNull => "null"
  | JBool true => "true"
  | JBool false => "false"
  | JNum q => Number_toString q
  | JStr s => s
  | JArr items =>
      join ","
        (map (fun item =>
                match item with JNull => "" | _ => to_string_json item end)
           items)
  | JObj _ => "[object Object]"
  end.

Definition to_string `{JsonApi} (v : t) : string :=
  match v with None => "undefined" | Some j => to_string_json j end.

End Value.

Module Types.

(** [ExtractedText['type']] *)
Inductive TextType : Type := text | alt | title | placeholder | meta.

Record ExtractedText : Type :=
  { id : string;
    originalText : string;
    translatedText : option string;
    path : string;
    context : string;
    type : TextType }.

Inductive ContentType : Type :=
| PLAIN_TEXT | HTML | MARKDOWN | EDITOR_JS | GRAPE_JS | JSON
| RICH_TEXT | STRUCTURED_DATA.

(** [t.translatedText || t.originalText] *)
Definition translated_or_original (t : ExtractedText) : string :=
  match translatedText t with
  | Some s => JS.or_else s (originalText t)
  | None => originalText t
  end.

(** [new Map(translations.map(t => [key t, t.translatedText || t.originalText]))]:
    entries are set in order, a later entry replaces an earlier one with
    the same key. *)
Definition translationMap (key : ExtractedText -> string)
  (translations : list ExtractedText) : gmap string string :=
  foldl (fun m t => <[key t := translated_or_original t]> m) ∅ translations.

(** The fragment as the translation step leaves it. *)
Definition with_translation (t : ExtractedText) (s : string)
  : ExtractedText :=
  {| id := id t; originalText := originalText t; translatedText := Some s;
     path := path t; context := context t; type := type t |}.

End Types.

(** ** Generic JSON parser ([jsonParser.ts]) *)

Module JsonParser.
Import Regex.

Definition type : Types.ContentType := Types.JSON.

Definition validate `{JsonApi} (content : string) : bool :=
  match JSON_parse content with Some _ => true | None => false end.

(** [/^https?:\/\//i] *)
Definition urlPattern : re :=
  seq [Bol; lit "http"; opt (chr "s"); lit "://"].

(** [[^\s@]] *)
Definition not_space_at : re :=
  ncls (fun c => JS.is_space c || Ascii.eqb c "@").

(** [/^[^\s@]+@[^\s@]+\.[^\s@]+$/] *)
Definition emailPattern : re :=
  seq [Bol; plus not_space_at; chr "@"; plus not_space_at; chr ".";
       plus not_space_at; Eol].

(** [/^[a-f0-9-]{8,}$/i] *)
Definition idPattern : re :=
  seq [Bol;
       Rep 8 None
         (cls (fun c => JS.between 97 102 c || JS.is_digit c
                        || Ascii.eqb c "-"));
       Eol].

Definition isTextualContent (value : string) : bool :=
  (2 <? JS.length (JS.trim value))%nat
  && negb (test flag_i urlPattern value)
  && negb (test no_flags emailPattern value)
  && negb (test flag_i idPattern value).

Definition textualKeys : list string :=
  ["text"; "content"; "message"; "title"; "description"; "label";
   "caption"; "alt"; "placeholder"].

Definition getContextForKey (key parentContext : string) : string :=
  if existsb (fun textKey => test no_flags (lit textKey) (JS.toLowerCase key))
       textualKeys
  then parentContext +:+ " " +:+ key
  else parentContext +:+ " " +:+ key.

Definition index_path (path : string) (index : nat) : string :=
  path +:+ "[" +:+ JS.of_nat index +:+ "]".

Definition key_path (path key : string) : string :=
  if JS.truthy path then path +:+ "." +:+ key else key.

(** The fragments pushed by one call, in push order. *)
Fixpoint extractFromObject (obj : json) (path context : string)
  : list Types.ExtractedText :=
  match obj with
  | JStr s =>
      if isTextualContent s
      then [ {| Types.id := path; Types.originalText := s;
                Types.translatedText := None; Types.path := path;
                Types.context := context; Types.type := Types.text |} ]
      else []
  | JArr items =>
      concat
        (JS.mapi
           (fun index item =>
              extractFromObject item (index_path path index)
                (context +:+ " array item")) items)
  | JObj fields =>
      concat
        (map
           (fun '(key, value) =>
              extractFromObject value (key_path path key)
                (getContextForKey key context)) fields)
  | _ => []
  end.

Definition parse `{JsonApi} (content : string) : list Types.ExtractedText :=
  match JSON_parse content with
  | Some jsonData => extractFromObject jsonData "" "JSON"
  | None => []
  end.

(** The value [obj] holds after [reconstructObject(obj, path, map)]; the
    in-place assignments [obj[k] = map.get(p)] become the new field or
    item. *)
Fixpoint reconstructObject (obj : json) (path : string)
  (translationMap : gmap string string) : json :=
  match obj with
  | JArr items =>
      JArr
        (JS.mapi
           (fun index item =>
              match translationMap !! index_path path index with
              | Some t => JStr t
              | None =>
                  reconstructObject item (index_path path index)
                    translationMap
              end) items)
  | JObj fields =>
      JObj
        (map
           (fun '(key, value) =>
              (key,
               match translationMap !! key_path path key with
               | Some t => JStr t
               | None =>
                   reconstructObject value (key_path path key)
                     translationMap
               end)) fields)
  | other => other
  end.

Definition reconstruct `{JsonApi} (originalContent : string)
  (translations : list Types.ExtractedText) : string :=
  match JSON_parse originalContent with
  | Some jsonData =>
      JSON_stringify
        (reconstructObject jsonData ""
           (Types.translationMap Types.path translations)) 2
  | None => originalContent
  end.

End JsonParser.

(** ** Extraction with exceptions

    A parser pushes fragments onto [extractedTexts] as it walks the
    document, inside one [try]; when a step throws, the fragments pushed so
    far stay.  [M A] is the list of pushes and the outcome ([None]: threw). *)

Module Extract.

Definition M (A : Type) : Type := (list Types.ExtractedText * option A)%type.

Definition ret {A : Type} (a : A) : M A := ([], Some a).

Definition bind {A B : Type} (m : M A) (f : A -> M B) : M B :=
  match m with
  | (w, Some a) => let '(w', r) := f a in (w ++ w', r)
  | (w, None) => (w, None)
  end.

Definition push (e : Types.ExtractedText) : M unit := ([e], Some tt).

(** A step that pushes nothing and may throw. *)
Definition lift {A : Type} (o : option A) : M A := ([], o).

Definition pushed {A : Type} (m : M A) : list Types.ExtractedText := fst m.

(** [l.forEach((x, index) => f index x)] *)
Fixpoint forEach_from {A : Type} (f : nat -> A -> M unit) (index : nat)
  (l : list A) : M unit :=
  match l with
  | [] => ret tt
  | x :: tl => bind (f index x) (fun _ => forEach_from f (S index) tl)
  end.

Definition forEach {A : Type} (f : nat -> A -> M unit) (l : list A)
  : M unit := forEach_from f O l.

End Extract.

#[global] Instance extract_bind : MBind Extract.M :=
  fun A B f m => Extract.bind m f.

(** [l.map((x, index) => f index x)] where [f] may throw. *)
Fixpoint imapM_from {A B : Type} (f : nat -> A -> option B) (index : nat)
  (l : list A) : option (list B) :=
  match l with
  | [] => Some []
  | x :: tl =>
      match f index x with
      | Some y =>
          match imapM_from f (S index) tl with
          | Some ys => Some (y :: ys)
          | None => None
          end
      | None => None
      end
  end.

Definition imapM {A B : Type} (f : nat -> A -> option B) (l : list A)
  : option (list B) := imapM_from f O l.

(** ** Editor.js parser ([editorJsParser.ts]) *)

Module EditorJSParser.
Import Regex.

Definition type : Types.ContentType := Types.EDITOR_JS.

Definition validate `{JsonApi} (content : string) : bool :=
  match JSON_parse content with
  | Some parsed =>
      Value.truthy (Some parsed)
      && match Value.prop (Some parsed) "blocks" with
         | Some blocks => Value.is_array blocks
         | None => false
         end
  | None => false
  end.

(** [/<[^>]*>/g] *)
Definition tagPattern : re :=
  seq [chr "<"; star (ncls (Ascii.eqb ">")); chr ">"].

Definition stripHtml (text : string) : string :=
  JS.trim (replace_all no_flags tagPattern text "").

(** The receiver of a string method ([replace], [trim]): any other value
    throws.  The fields [caption] of an image and [title] and [message] of
    a warning, which [EditorJSBlock] declares as strings and the source
    pushes as they are, are read the same way: a truthy value of another
    type there has no counterpart in [ExtractedText], whose [originalText]
    is a string. *)
Definition as_string (v : Value.t) : option string :=
  match v with Some (JStr s) => Some s | _ => None end.

Definition as_array (v : Value.t) : option (list json) :=
  match v with Some (JArr l) => Some l | _ => None end.

Definition nonTextualKeys : list string :=
  ["url"; "id"; "file"; "src"; "href"; "link"; "embed"].

Definition isTextualContent (key value : string) : bool :=
  negb (JS.includes nonTextualKeys (JS.toLowerCase key))
  && negb (test flag_i JsonParser.urlPattern value)
  && (2 <? JS.length value)%nat.

Definition fragment (path originalText context : string)
  : Types.ExtractedText :=
  {| Types.id := path; Types.originalText := originalText;
     Types.translatedText := None; Types.path := path;
     Types.context := context; Types.type := Types.text |}.

Definition blockPath (blockIndex : nat) : string :=
  "blocks[" +:+ JS.of_nat blockIndex +:+ "]".

(** [block.data.key] *)
Definition data_prop (block : json) (key : string) : option Value.t :=
  match Value.prop (Some block) "data" with
  | Some data => Value.prop data key
  | None => None
  end.

(** [if (block.data.key) push({ originalText: text(block.data.key) })] *)
Definition extractField (block : json) (blockIndex : nat) (key : string)
  (strip : bool) (context : string) : Extract.M unit :=
  v ← Extract.lift (data_prop block key);
  if Value.truthy v then
    s ← Extract.lift (as_string v);
    Extract.push
      (fragment (blockPath blockIndex +:+ ".data." +:+ key)
         (if strip then stripHtml s else s) context)
  else Extract.ret tt.

(** The keys and values [Object.keys(data).forEach] visits. *)
Definition entries (data : json) : list (string * json) :=
  match data with
  | JObj fields => fields
  | JArr items => imap (fun index item => (JS.of_nat index, item)) items
  | _ => []
  end.

Definition extractGenericTextFields `{JsonApi} (data : Value.t)
  (basePath : string) (blockType : Value.t) : Extract.M unit :=
  if negb (Value.truthy data) || negb (Value.typeof_object data)
  then Extract.ret tt
  else
    Extract.forEach
      (fun _ '(key, value) =>
         let currentPath := basePath +:+ ".data." +:+ key in
         match value with
         | JStr s =>
             if JS.truthy (JS.trim s) && isTextualContent key s
             then
               Extract.push
                 (fragment currentPath (stripHtml s)
                    (Value.to_string blockType +:+ " " +:+ key))
             else Extract.ret tt
         | JArr items =>
             Extract.forEach
               (fun index item =>
                  match item with
                  | JStr s =>
                      if JS.truthy (JS.trim s)
                      then
                        Extract.push
                          (fragment
                             (currentPath +:+ "[" +:+ JS.of_nat index +:+ "]")
                             (stripHtml s)
                             (Value.to_string blockType +:+ " " +:+ key
                                +:+ " item"))
                      else Extract.ret tt
                  | _ => Extract.ret tt
                  end) items
         | _ => Extract.ret tt
         end)
      (match data with Some d => entries d | None => [] end).

Definition extractFromBlock `{JsonApi} (block : json) (blockIndex : nat)
  : Extract.M unit :=
  let blockPath := blockPath blockIndex in
  ty ← Extract.lift (Value.prop (Some block) "type");
  if Value.is_string ty "paragraph" || Value.is_string ty "header" then
    extractField block blockIndex "text" true
      (Value.to_string ty +:+ " block")
  else if Value.is_string ty "list" then
    items ← Extract.lift (data_prop block "items");
    if Value.truthy items then
      l ← Extract.lift (as_array items);
      Extract.forEach
        (fun itemIndex item =>
           s ← Extract.lift (as_string (Some item));
           style ← Extract.lift (data_prop block "style");
           Extract.push
             (fragment
                (blockPath +:+ ".data.items[" +:+ JS.of_nat itemIndex +:+ "]")
                (stripHtml s)
                ((if Value.truthy style then Value.to_string style
                  else "unordered") +:+ " list item"))) l
    else Extract.ret tt
  else if Value.is_string ty "quote" then
    _ ← extractField block blockIndex "text" true "quote text";
    extractField block blockIndex "caption" true "quote caption"
  else if Value.is_string ty "image" || Value.is_string ty "embed" then
    extractField block blockIndex "caption" false
      (Value.to_string ty +:+ " caption")
  else if Value.is_string ty "table" then
    content ← Extract.lift (data_prop block "content");
    if Value.truthy content then
      rows ← Extract.lift (as_array content);
      Extract.forEach
        (fun rowIndex row =>
           cells ← Extract.lift (as_array (Some row));
           Extract.forEach
             (fun cellIndex cell =>
                s ← Extract.lift (as_string (Some cell));
                if JS.truthy (JS.trim s) then
                  Extract.push
                    (fragment
                       (blockPath +:+ ".data.content["
                          +:+ JS.of_nat rowIndex +:+ "]["
                          +:+ JS.of_nat cellIndex +:+ "]")
                       (stripHtml s)
                       ("table cell (" +:+ JS.of_nat (rowIndex + 1) +:+ ", "
                          +:+ JS.of_nat (cellIndex + 1) +:+ ")"))
                else Extract.ret tt) cells) rows
    else Extract.ret tt
  else if Value.is_string ty "checklist" then
    items ← Extract.lift (data_prop block "items");
    if Value.truthy items then
      l ← Extract.lift (as_array items);
      Extract.forEach
        (fun itemIndex item =>
           text ← Extract.lift (Value.prop (Some item) "text");
           if Value.truthy text then
             s ← Extract.lift (as_string text);
             Extract.push
               (fragment
                  (blockPath +:+ ".data.items[" +:+ JS.of_nat itemIndex
                     +:+ "].text")
                  (stripHtml s) "checklist item")
           else Extract.ret tt) l
    else Extract.ret tt
  else if Value.is_string ty "warning" || Value.is_string ty "alert" then
    _ ← extractField block blockIndex "title" false
           (Value.to_string ty +:+ " title");
    extractField block blockIndex "message" false
      (Value.to_string ty +:+ " message")
  else
    data ← Extract.lift (Value.prop (Some block) "data");
    extractGenericTextFields data blockPath ty.

(** The body of the [try] of [parse], on the parsed document. *)
Definition extractFromContent `{JsonApi} (editorData : json)
  : Extract.M unit :=
  blocks ← Extract.lift (Value.prop (Some editorData) "blocks");
  l ← Extract.lift (as_array blocks);
  Extract.forEach (fun blockIndex block => extractFromBlock block blockIndex) l.

Definition parse `{JsonApi} (content : string) : list Types.ExtractedText :=
  match JSON_parse content with
  | Some editorData => Extract.pushed (extractFromContent editorData)
  | None => []
  end.

(** [translationMap.get(path) || item] *)
Definition get_or (translationMap : gmap string string) (path : string)
  (item : json) : json :=
  match translationMap !! path with
  | Some t => if JS.truthy t then JStr t else item
  | None => item
  end.

(** [translationMap.has(path) ? translationMap.get(path) : item] *)
Definition get_if_has (translationMap : gmap string string) (path : string)
  (item : json) : json :=
  match translationMap !! path with
  | Some t => JStr t
  | None => item
  end.

(** [updateTextPath(data, key, path, translationMap)]: the value [data]
    holds afterwards. *)
Definition updateTextPath (data : Value.t) (key path : string)
  (translationMap : gmap string string) : option Value.t :=
  match translationMap !! path with
  | Some t =>
      match Value.assign data key (JStr t) with
      | Some data' => Some (Some data')
      | None => None
      end
  | None => Some data
  end.

(** The block once [block.data], or a property of it, has been updated in
    place. *)
Definition with_data (block : json) (data : Value.t) : json :=
  match block, data with
  | JObj fields, Some d => JObj (Value.set_existing "data" d fields)
  | _, _ => block
  end.

(** [data.key = v] for an own property [key] of [data]. *)
Definition with_field (data : Value.t) (key : string) (v : json) : Value.t :=
  match data with
  | Some (JObj fields) => Some (JObj (Value.set_existing key v fields))
  | _ => data
  end.

Definition reconstructGenericTextFields (data : Value.t) (basePath : string)
  (translationMap : gmap string string) : Value.t :=
  if negb (Value.truthy data) || negb (Value.typeof_object data) then data
  else
    let update (key : string) (value : json) : json :=
      let currentPath := basePath +:+ ".data." +:+ key in
      match value with
      | JStr _ => get_if_has translationMap currentPath value
      | JArr items =>
          JArr
            (imap
               (fun index item =>
                  get_if_has translationMap
                    (currentPath +:+ "[" +:+ JS.of_nat index +:+ "]") item)
               items)
      | _ => value
      end in
    match data with
    | Some (JObj fields) =>
        Some (JObj (map (fun '(key, value) => (key, update key value)) fields))
    | Some (JArr items) =>
        Some (JArr (imap (fun index item => update (JS.of_nat index) item) items))
    | _ => data
    end.

(** [reconstructBlock(block, blockIndex, translationMap)]: the value
    [block] holds afterwards, [None] when the call throws. *)
Definition reconstructBlock (block : json) (blockIndex : nat)
  (translationMap : gmap string string) : option json :=
  let blockPath := blockPath blockIndex in
  ty ← Value.prop (Some block) "type";
  data ← Value.prop (Some block) "data";
  if Value.is_string ty "paragraph" || Value.is_string ty "header" then
    data' ← updateTextPath data "text" (blockPath +:+ ".data.text")
              translationMap;
    Some (with_data block data')
  else if Value.is_string ty "list" then
    items ← Value.prop data "items";
    if Value.truthy items then
      l ← as_array items;
      Some
        (with_data block
           (with_field data "items"
              (JArr
                 (imap
                    (fun itemIndex item =>
                       get_or translationMap
                         (blockPath +:+ ".data.items["
                            +:+ JS.of_nat itemIndex +:+ "]") item) l))))
    else Some block
  else if Value.is_string ty "quote" then
    data' ← updateTextPath data "text" (blockPath +:+ ".data.text")
              translationMap;
    data'' ← updateTextPath data' "caption" (blockPath +:+ ".data.caption")
               translationMap;
    Some (with_data block data'')
  else if Value.is_string ty "image" || Value.is_string ty "embed" then
    data' ← updateTextPath data "caption" (blockPath +:+ ".data.caption")
              translationMap;
    Some (with_data block data')
  else if Value.is_string ty "table" then
    content ← Value.prop data "content";
    if Value.truthy content then
      rows ← as_array content;
      rows' ←
        imapM
          (fun rowIndex row =>
             cells ← as_array (Some row);
             Some
               (JArr
                  (imap
                     (fun cellIndex cell =>
                        get_or translationMap
                          (blockPath +:+ ".data.content["
                             +:+ JS.of_nat rowIndex +:+ "]["
                             +:+ JS.of_nat cellIndex +:+ "]") cell) cells)))
          rows;
      Some (with_data block (with_field data "content" (JArr rows')))
    else Some block
  else if Value.is_string ty "checklist" then
    items ← Value.prop data "items";
    if Value.truthy items then
      l ← as_array items;
      l' ←
        imapM
          (fun itemIndex item =>
             match
               translationMap
                 !! (blockPath +:+ ".data.items[" +:+ JS.of_nat itemIndex
                       +:+ "].text")
             with
             | Some t => Value.assign (Some item) "text" (JStr t)
             | None => Some item
             end) l;
      Some (with_data block (with_field data "items" (JArr l')))
    else Some block
  else if Value.is_string ty "warning" || Value.is_string ty "alert" then
    data' ← updateTextPath data "title" (blockPath +:+ ".data.title")
              translationMap;
    data'' ← updateTextPath data' "message" (blockPath +:+ ".data.message")
               translationMap;
    Some (with_data block data'')
  else
    Some
      (with_data block
         (reconstructGenericTextFields data blockPath translationMap)).

(** The body of the [try] of [reconstruct]: the document to serialize. *)
Definition reconstructContent (editorData : json)
  (translationMap : gmap string string) : option json :=
  blocks ← Value.prop (Some editorData) "blocks";
  l ← as_array blocks;
  l' ← imapM (fun blockIndex block =>
                reconstructBlock block blockIndex translationMap) l;
  match editorData with
  | JObj fields => Some (JObj (Value.set_existing "blocks" (JArr l') fields))
  | _ => Some editorData
  end.

Definition reconstruct `{JsonApi} (originalContent : string)
  (translations : list Types.ExtractedText) : string :=
  match JSON_parse originalContent with
  | Some editorData =>
      match
        reconstructContent editorData
          (Types.translationMap Types.path translations)
      with
      | Some editorData' => JSON_stringify editorData' 2
      | None => originalContent
      end
  | None => originalContent
  end.

End EditorJSParser.

(** ** GrapeJS parser ([grapeJsParser.ts]) *)

Module GrapeJSParser.

Definition type : Types.ContentType := Types.GRAPE_JS.

Definition validate `{JsonApi} (content : string) : bool :=
  match JSON_parse content with
  | Some parsed =>
      Value.truthy (Some parsed)
      && (Value.is_array (Some parsed)
          || match Value.prop (Some parsed) "components" with
             | Some components =>
                 Value.truthy components && Value.is_array components
             | None => false
             end)
  | None => false
  end.

Definition stripHtml (text : string) : string :=
  EditorJSParser.stripHtml text.

Definition getComponentContext `{JsonApi} (component : json) : string :=
  let prop_or_undefined (key : string) : Value.t :=
    match Value.prop (Some component) key with
    | Some v => v
    | None => Value.undefined
    end in
  if Value.truthy (prop_or_undefined "type")
  then Value.to_string (prop_or_undefined "type") +:+ " component"
  else if Value.truthy (prop_or_undefined "tagName")
  then Value.to_string (prop_or_undefined "tagName") +:+ " element"
  else "component".

Definition getAttributeType (attributeName : string) : Types.TextType :=
  let name := JS.toLowerCase attributeName in
  if String.eqb name "alt" then Types.alt
  else if String.eqb name "title" then Types.title
  else if String.eqb name "placeholder" then Types.placeholder
  else if String.eqb name "aria-label" || String.eqb name "data-text"
  then Types.meta
  else Types.text.

Definition nonTextualKeys : list string :=
  ["id"; "class"; "src"; "href"; "url"; "link"; "style"; "width"; "height"].

(** [/^#[0-9a-f]{3,6}$/i] *)
Definition colorPattern : Regex.re :=
  Regex.seq
    [Regex.Bol; Regex.chr "#";
     Regex.Rep 3 (Some 6%nat)
       (Regex.cls (fun c => JS.is_digit c || JS.between 97 102 c));
     Regex.Eol].

(** [/^\d+(\.\d+)?(px|em|rem|%)?$/i] *)
Definition numberPattern : Regex.re :=
  Regex.seq
    [Regex.Bol; Regex.plus Regex.digit;
     Regex.opt (Regex.Grp 1 (Regex.Seq (Regex.chr ".") (Regex.plus Regex.digit)));
     Regex.opt
       (Regex.Grp 2
          (Regex.Alt (Regex.lit "px")
             (Regex.Alt (Regex.lit "em")
                (Regex.Alt (Regex.lit "rem") (Regex.chr "%")))));
     Regex.Eol].

Definition isTextualContent (key value : string) : bool :=
  negb (JS.includes nonTextualKeys (JS.toLowerCase key))
  && negb (Regex.test Regex.flag_i JsonParser.urlPattern value)
  && negb (Regex.test Regex.flag_i colorPattern value)
  && negb (Regex.test Regex.flag_i numberPattern value)
  && (1 <? JS.length value)%nat.

Definition textualAttributes : list string :=
  ["alt"; "title"; "placeholder"; "aria-label"; "data-text"; "value"].

(** The keys and values [Object.keys(attributes).forEach] visits. *)
Definition attribute_entries (attributes : json) : list (string * json) :=
  match attributes with
  | JStr s =>
      imap (fun index c => (JS.of_nat index, JStr (String c EmptyString)))
        (JS.chars s)
  | _ => EditorJSParser.entries attributes
  end.

Definition extractFromAttributes `{JsonApi} (attributes : json)
  (basePath : string) (component : json) : Extract.M unit :=
  Extract.forEach
    (fun _ '(key, value) =>
       match value with
       | JStr s =>
           if JS.truthy (JS.trim s)
              && (JS.includes textualAttributes key || isTextualContent key s)
           then
             Extract.push
               {| Types.id := basePath +:+ "." +:+ key;
                  Types.originalText := s;
                  Types.translatedText := None;
                  Types.path := basePath +:+ "." +:+ key;
                  Types.context :=
                    getComponentContext component +:+ " " +:+ key;
                  Types.type := getAttributeType key |}
           else Extract.ret tt
       | _ => Extract.ret tt
       end) (attribute_entries attributes).

Definition extractFromTrait `{JsonApi} (component : json) (path : string)
  (traitIndex : nat) (trait : json) : Extract.M unit :=
  value ← Extract.lift (Value.prop (Some trait) "value");
  match value with
  | Some (JStr s) =>
      if JS.truthy s then
        name ← Extract.lift (Value.prop (Some trait) "name");
        key ← Extract.lift (EditorJSParser.as_string name);
        if isTextualContent key s then
          Extract.push
            {| Types.id :=
                 path +:+ ".traits[" +:+ JS.of_nat traitIndex +:+ "].value";
               Types.originalText := s;
               Types.translatedText := None;
               Types.path :=
                 path +:+ ".traits[" +:+ JS.of_nat traitIndex +:+ "].value";
               Types.context := getComponentContext component +:+ " " +:+ key;
               Types.type := getAttributeType key |}
        else Extract.ret tt
      else Extract.ret tt
  | _ => Extract.ret tt
  end.

(** [if (component.components && Array.isArray(component.components)) g
    (component.components)], on the fields of the component; [d] where
    the test fails. *)
Fixpoint on_components {A : Type} (g : list json -> A) (d : A)
  (fields : list (string * json)) : A :=
  match fields with
  | [] => d
  | (key, value) :: tl =>
      if String.eqb key "components" then
        match value with
        | JArr items => g items
        | _ => d
        end
      else on_components g d tl
  end.

Definition childPath (path : string) (childIndex : nat) : string :=
  path +:+ ".components[" +:+ JS.of_nat childIndex +:+ "]".

Fixpoint extractFromComponent `{JsonApi} (component : json) (path : string)
  {struct component} : Extract.M unit :=
  match component with
  | JNull => Extract.lift None
  | JObj fields =>
      (* component.content *)
      _ ← match Value.lookup "content" fields with
          | Some (JStr s) =>
              let textContent := stripHtml s in
              if JS.truthy s && JS.truthy (JS.trim textContent) then
                Extract.push
                  {| Types.id := path +:+ ".content";
                     Types.originalText := textContent;
                     Types.translatedText := None;
                     Types.path := path +:+ ".content";
                     Types.context := getComponentContext component;
                     Types.type := Types.text |}
              else Extract.ret tt
          | _ => Extract.ret tt
          end;
      (* component.attributes *)
      _ ← match Value.lookup "attributes" fields with
          | Some attributes =>
              if Value.truthy (Some attributes) then
                extractFromAttributes attributes (path +:+ ".attributes")
                  component
              else Extract.ret tt
          | None => Extract.ret tt
          end;
      (* component.traits *)
      _ ← (let traits := Value.lookup "traits" fields in
           if Value.truthy traits then
             l ← Extract.lift (EditorJSParser.as_array traits);
             Extract.forEach (extractFromTrait component path) l
           else Extract.ret tt);
      (* component.components *)
      on_components
        (Extract.forEach
           (fun childIndex child =>
              extractFromComponent child (childPath path childIndex)))
        (Extract.ret tt) fields
  | _ => Extract.ret tt
  end.

(** The body of the [try] of [parse], on the parsed document. *)
Definition extractFromContent `{JsonApi} (grapeData : json)
  : Extract.M unit :=
  components ←
    Extract.lift
      (if Value.is_array (Some grapeData) then Some (Some grapeData)
       else
         c ← Value.prop (Some grapeData) "components";
         Some (if Value.truthy c then c else Some (JArr [])));
  l ← Extract.lift (EditorJSParser.as_array components);
  Extract.forEach
    (fun index component =>
       extractFromComponent component ("[" +:+ JS.of_nat index +:+ "]")) l.

Definition parse `{JsonApi} (content : string) : list Types.ExtractedText :=
  match JSON_parse content with
  | Some grapeData => Extract.pushed (extractFromContent grapeData)
  | None => []
  end.

(** [Object.keys(attributes).forEach(key => { if (map.has(p key))
    attributes[key] = map.get(p key) })]; writing to an index of a string
    throws. *)
Definition reconstructAttributes (attributes : json) (path : string)
  (translationMap : gmap string string) : option json :=
  let attrPath (key : string) := path +:+ ".attributes." +:+ key in
  let update (key : string) (value : json) : json :=
    EditorJSParser.get_if_has translationMap (attrPath key) value in
  match attributes with
  | JObj fields =>
      Some (JObj (map (fun '(key, value) => (key, update key value)) fields))
  | JArr items =>
      Some (JArr (imap (fun index item => update (JS.of_nat index) item) items))
  | JStr s =>
      if forallb
           (fun index =>
              match translationMap !! attrPath (JS.of_nat index) with
              | Some _ => false
              | None => true
              end) (seq 0 (JS.length s))
      then Some attributes
      else None
  | _ => Some attributes
  end.

(** [trait.value = translationMap.get(traitPath)] where the map has the
    path of the trait. *)
Definition reconstructTrait (path : string)
  (translationMap : gmap string string) (traitIndex : nat) (trait : json)
  : option json :=
  match
    translationMap
      !! (path +:+ ".traits[" +:+ JS.of_nat traitIndex +:+ "].value")
  with
  | Some t => Value.assign (Some trait) "value" (JStr t)
  | None => Some trait
  end.

(** [reconstructComponent(component, path, translationMap)]: the value
    [component] holds afterwards, [None] when the call throws.  The four
    updates write four different properties. *)
Fixpoint reconstructComponent (component : json) (path : string)
  (translationMap : gmap string string) {struct component} : option json :=
  match component with
  | JNull => None
  | JObj fields =>
      (* component.content *)
      let fields1 :=
        match translationMap !! (path +:+ ".content") with
        | Some t => Value.set "content" (JStr t) fields
        | None => fields
        end in
      (* component.attributes *)
      fields2 ←
        (let attributes := Value.lookup "attributes" fields1 in
         if Value.truthy attributes then
           match attributes with
           | Some a =>
               a' ← reconstructAttributes a path translationMap;
               Some (Value.set_existing "attributes" a' fields1)
           | None => Some fields1
           end
         else Some fields1);
      (* component.traits *)
      fields3 ←
        (let traits := Value.lookup "traits" fields2 in
         if Value.truthy traits then
           l ← EditorJSParser.as_array traits;
           l' ← imapM (reconstructTrait path translationMap) l;
           Some (Value.set_existing "traits" (JArr l') fields2)
         else Some fields2);
      (* component.components *)
      on_components
        (fun items =>
           items' ←
             imapM
               (fun childIndex child =>
                  reconstructComponent child (childPath path childIndex)
                    translationMap) items;
           Some (JObj (Value.set_existing "components" (JArr items') fields3)))
        (Some (JObj fields3)) fields
  | JArr _ => Some component
  | _ =>
      match translationMap !! (path +:+ ".content") with
      | Some _ => None
      | None => Some component
      end
  end.

(** [{ ...grapeData }] *)
Definition spread (grapeData : json) : list (string * json) :=
  match grapeData with
  | JObj fields => fields
  | JStr s =>
      imap (fun index c => (JS.of_nat index, JStr (String c EmptyString)))
        (JS.chars s)
  | _ => []
  end.

(** The body of the [try] of [reconstruct]: the value to serialize. *)
Definition reconstructContent (grapeData : json)
  (translationMap : gmap string string) : option json :=
  components ←
    (if Value.is_array (Some grapeData) then Some (Some grapeData)
     else
       c ← Value.prop (Some grapeData) "components";
       Some (if Value.truthy c then c else Some (JArr [])));
  l ← EditorJSParser.as_array components;
  l' ← imapM
         (fun index component =>
            reconstructComponent component
              ("[" +:+ JS.of_nat index +:+ "]") translationMap) l;
  if Value.is_array (Some grapeData) then Some (JArr l')
  else Some (JObj (Value.set "components" (JArr l') (spread grapeData))).

Definition reconstruct `{JsonApi} (originalContent : string)
  (translations : list Types.ExtractedText) : string :=
  match JSON_parse originalContent with
  | Some grapeData =>
      match
        reconstructContent grapeData
          (Types.translationMap Types.path translations)
      with
      | Some grapeData' => JSON_stringify grapeData' 2
      | None => originalContent
      end
  | None => originalContent
  end.

End GrapeJSParser.

(** ** HTML parser ([htmlParser.ts]) *)

(** The tree the browser builds for [tempDiv.innerHTML = content]. *)
#[local] Unset Elimination Schemes.
Inductive node : Type :=
| TextNode (textContent : string) : node
| ElementNode (tagName : string) (attributes : list (string * string))
    (childNodes : list node) : node
| OtherNode : node.
#[local] Set Elimination Schemes.

(** [document.createElement('div')] followed by [innerHTML = content]: the
    child nodes of the temporary element, [None] where no DOM is there and
    the call throws. *)
Class DomApi : Type := { innerHTML : string -> option (list node) }.

Module HtmlParser.
Import Regex.

Definition type : Types.ContentType := Types.HTML.

(** [/<[^>]+>/] *)
Definition validate (content : string) : bool :=
  test no_flags (seq [chr "<"; plus (ncls (Ascii.eqb ">")); chr ">"]) content.

Definition getAttributeType (attributeName : string) : Types.TextType :=
  let name := JS.toLowerCase attributeName in
  if String.eqb name "alt" then Types.alt
  else if String.eqb name "title" then Types.title
  else if String.eqb name "placeholder" then Types.placeholder
  else if String.eqb name "aria-label" || String.eqb name "data-text"
  then Types.meta
  else Types.text.

Definition textualAttributes : list string :=
  ["alt"; "title"; "placeholder"; "aria-label"; "data-text"; "value"].

Definition extractAttributes (tagName : string)
  (attributes : list (string * string)) (path : string)
  : list Types.ExtractedText :=
  flat_map
    (fun '(name, value) =>
       if JS.includes textualAttributes name && JS.truthy (JS.trim value)
       then
         [ {| Types.id := path +:+ "@" +:+ name;
              Types.originalText := value;
              Types.translatedText := None;
              Types.path := path +:+ "@" +:+ name;
              Types.context :=
                name +:+ " attribute of " +:+ JS.toLowerCase tagName;
              Types.type := getAttributeType name |} ]
       else []) attributes.

(** One turn of the loop of [extractFromElement(element, path, ...)],
    for the child node [n] at index [i] of an element with the given tag
    name: the fragments pushed. *)
Fixpoint extractFromNode (tagName : string) (path : string) (i : nat)
  (n : node) {struct n} : list Types.ExtractedText :=
  match n with
  | TextNode textContent =>
      let text := JS.trim textContent in
      if JS.truthy text && (1 <? JS.length text)%nat
      then
        [ {| Types.id := path +:+ "textNode[" +:+ JS.of_nat i +:+ "]";
             Types.originalText := text;
             Types.translatedText := None;
             Types.path := path +:+ "textNode[" +:+ JS.of_nat i +:+ "]";
             Types.context :=
               "text in " +:+ JS.or_else (JS.toLowerCase tagName) "element";
             Types.type := Types.text |} ]
      else []
  | ElementNode childTag attributes children =>
      let childPath :=
        path +:+ JS.toLowerCase childTag +:+ "[" +:+ JS.of_nat i +:+ "]." in
      extractAttributes childTag attributes childPath
        ++ (fix walk (j : nat) (l : list node) {struct l}
              : list Types.ExtractedText :=
              match l with
              | [] => []
              | c :: tl => extractFromNode childTag childPath j c ++ walk (S j) tl
              end) O children
  | OtherNode => []
  end.

Definition extractFromElement (tagName : string) (childNodes : list node)
  (path : string) : list Types.ExtractedText :=
  concat (imap (extractFromNode tagName path) childNodes).

(** [/>([^<]+)</g] *)
Definition textRegex : re :=
  seq [chr ">"; Grp 1 (plus (ncls (Ascii.eqb "<"))); chr "<"].

Definition attr_names : re :=
  Alt (lit "alt")
    (Alt (lit "title")
       (Alt (lit "placeholder") (Alt (lit "aria-label") (lit "data-text")))).

(** A single or a double quote. *)
Definition is_quote (c : ascii) : bool :=
  Ascii.eqb c "'" || (JS.code c =? 34)%nat.

Definition quote : re := cls is_quote.

(** [/(alt|title|placeholder|aria-label|data-text)=Q([^Q]+)Q/g], where [Q]
    stands for the class of the two quote characters. *)
Definition attrRegex : re :=
  seq [Grp 1 attr_names; chr "="; quote;
       Grp 2 (plus (ncls is_quote)); quote].

(** The indexed pushes of one [while (match = r.exec(content))] loop. *)
Fixpoint extractMatches (mk : nat -> result -> option Types.ExtractedText)
  (index : nat) (ms : list result) : list Types.ExtractedText :=
  match ms with
  | [] => []
  | m :: tl =>
      match mk index m with
      | Some e => e :: extractMatches mk (S index) tl
      | None => extractMatches mk index tl
      end
  end.

Definition cap_or_empty (m : result) (i : nat) : string :=
  match cap m i with Some s => s | None => "" end.

Definition extractWithRegex (content : string) : list Types.ExtractedText :=
  extractMatches
    (fun index m =>
       let text := JS.trim (cap_or_empty m 1) in
       if JS.truthy text && (1 <? JS.length text)%nat
       then
         Some {| Types.id := "regex_text_" +:+ JS.of_nat index;
                 Types.originalText := text;
                 Types.translatedText := None;
                 Types.path := "regex_text_" +:+ JS.of_nat index;
                 Types.context := "HTML text content";
                 Types.type := Types.text |}
       else None) O (matches no_flags textRegex content)
  ++ extractMatches
       (fun index m =>
          let attrName := cap_or_empty m 1 in
          let attrValue := JS.trim (cap_or_empty m 2) in
          if JS.truthy attrValue
          then
            Some {| Types.id := "regex_attr_" +:+ JS.of_nat index;
                    Types.originalText := attrValue;
                    Types.translatedText := None;
                    Types.path := "regex_attr_" +:+ JS.of_nat index;
                    Types.context := attrName +:+ " attribute";
                    Types.type := getAttributeType attrName |}
          else None) O (matches no_flags attrRegex content).

Definition parse `{DomApi} (content : string) : list Types.ExtractedText :=
  match innerHTML content with
  | Some childNodes => extractFromElement "DIV" childNodes ""
  | None => extractWithRegex content
  end.

(** [translation.translatedText && translation.translatedText !==
    translation.originalText]: the text to substitute, if any. *)
Definition changed (translation : Types.ExtractedText) : option string :=
  match Types.translatedText translation with
  | Some t =>
      if JS.truthy t && negb (String.eqb t (Types.originalText translation))
      then Some t else None
  | None => None
  end.

(** The body-text pattern built with [new RegExp]: group 1 is [>] and
    white space, group 2 the escaped original text, group 3 white space
    and [<]; flag [g].  The escaped text matches itself, character by
    character. *)
Definition bodyRegex (originalText : string) : re :=
  seq [Grp 1 (Seq (chr ">") (star space)); Grp 2 (lit originalText);
       Grp 3 (Seq (star space) (chr "<"))].

(** The attribute pattern built with [new RegExp]: group 1 is one of the
    five attribute names, [=] and a quote, group 2 the escaped original
    text, group 3 a quote; flag [g]. *)
Definition attrValueRegex (originalText : string) : re :=
  seq [Grp 1 (seq [attr_names; chr "="; quote]); Grp 2 (lit originalText);
       Grp 3 quote].

Definition reconstruct (originalContent : string)
  (translations : list Types.ExtractedText) : string :=
  foldl
    (fun reconstructed translation =>
       match changed translation with
       | Some t =>
           let reconstructed1 :=
             replace_all no_flags
               (bodyRegex (Types.originalText translation)) reconstructed
               ("$1" +:+ t +:+ "$3") in
           replace_all no_flags
             (attrValueRegex (Types.originalText translation)) reconstructed1
             ("$1" +:+ t +:+ "$3")
       | None => reconstructed
       end) originalContent translations.

End HtmlParser.

(** ** Markdown parser ([markdownParser.ts]) *)

Module MarkdownParser.
Import Regex.

Definition type : Types.ContentType := Types.MARKDOWN.

Definition hashes : re := Rep 1 (Some 6%nat) (chr "#").
Definition bullet : re := cls (one_of "-*+").
Definition fence : re := lit "```".

(** The patterns of [validate], in order: headers, bold, italic, links,
    lists, blockquotes, code blocks. *)
Definition markdownPatterns : list (flags * re) :=
  [ (flag_m, seq [Bol; hashes; plus space]);
    (no_flags, seq [lit "**"; star dot; lit "**"]);
    (no_flags, seq [chr "*"; star dot; chr "*"]);
    (no_flags, seq [chr "["; star dot; lit "]("; star dot; chr ")"]);
    (flag_m, seq [Bol; bullet; plus space]);
    (flag_m, seq [Bol; chr ">"; plus space]);
    (no_flags, seq [fence; star any; fence]) ].

Definition validate (content : string) : bool :=
  existsb (fun '(fl, pattern) => test fl pattern content) markdownPatterns.

Definition fragment (id originalText context : string)
  (type : Types.TextType) : Types.ExtractedText :=
  {| Types.id := id; Types.originalText := originalText;
     Types.translatedText := None; Types.path := id;
     Types.context := context; Types.type := type |}.

Definition line_id (lineIndex : nat) (kind : string) : string :=
  "line_" +:+ JS.of_nat lineIndex +:+ "_" +:+ kind.

(** [line.match(r)] for a pattern without the [g] flag. *)
Definition match_ (r : re) (line : string) : option result :=
  exec_at no_flags r line 0.

Definition group (m : result) (i : nat) : string :=
  match cap m i with Some s => s | None => "" end.

(** [/^(#{1,6})\s+(.+)$/] *)
Definition headerRegex : re :=
  seq [Bol; Grp 1 hashes; plus space; Grp 2 (plus dot); Eol].

Definition extractHeaders (line : string) (lineIndex : nat)
  : list Types.ExtractedText :=
  match match_ headerRegex line with
  | Some headerMatch =>
      let level := JS.length (group headerMatch 1) in
      let text := JS.trim (group headerMatch 2) in
      [fragment (line_id lineIndex "header") text
         ("H" +:+ JS.of_nat level +:+ " header") Types.text]
  | None => []
  end.

(** The part of a link or an image after the bracketed text: [\]\([^)]+\)] *)
Definition link_target : re :=
  seq [lit "]("; plus (ncls (Ascii.eqb ")")); chr ")"].

(** [/\[([^\]]+)\]\([^)]+\)/g] *)
Definition linkRegex : re :=
  seq [chr "["; Grp 1 (plus (ncls (Ascii.eqb "]"))); link_target].

(** The image pattern, flag [g]: [!\[], then group 1, any run of
    characters other than [\]], then the link target. *)
Definition imageRegex : re :=
  seq [lit "!["; Grp 1 (star (ncls (Ascii.eqb "]"))); link_target].

Definition extractLinks (line : string) (lineIndex : nat)
  : list Types.ExtractedText :=
  imap
    (fun linkIndex m =>
       fragment (line_id lineIndex "link_" +:+ JS.of_nat linkIndex)
         (group m 1) "link text" Types.text)
    (matches no_flags linkRegex line).

Definition extractImages (line : string) (lineIndex : nat)
  : list Types.ExtractedText :=
  concat
    (imap
       (fun imageIndex m =>
          let altText := group m 1 in
          if JS.truthy (JS.trim altText)
          then
            [fragment (line_id lineIndex "image_" +:+ JS.of_nat imageIndex)
               altText "image alt text" Types.alt]
          else [])
       (matches no_flags imageRegex line)).

(** [/^>\s*(.+)$/] *)
Definition blockquoteRegex : re :=
  seq [Bol; chr ">"; star space; Grp 1 (plus dot); Eol].

Definition extractBlockquotes (line : string) (lineIndex : nat)
  : list Types.ExtractedText :=
  match match_ blockquoteRegex line with
  | Some blockquoteMatch =>
      [fragment (line_id lineIndex "blockquote")
         (JS.trim (group blockquoteMatch 1)) "blockquote" Types.text]
  | None => []
  end.

(** [\d+\.] *)
Definition ordinal : re := Seq (plus digit) (chr ".").

(** The prefix of a list item: indentation (group 1), marker (group 2),
    white space. *)
Definition list_prefix : re :=
  seq [Bol; Grp 1 (star space); Grp 2 (Alt bullet ordinal); plus space].

(** The list-item pattern: [list_prefix], then [(.+)$] as group 3. *)
Definition listRegex : re := seq [list_prefix; Grp 3 (plus dot); Eol].

Definition extractListItems (line : string) (lineIndex : nat)
  : list Types.ExtractedText :=
  match match_ listRegex line with
  | Some listMatch =>
      let text := JS.trim (group listMatch 3) in
      let isOrdered := test no_flags ordinal (group listMatch 2) in
      [fragment (line_id lineIndex "list_item") text
         ((if isOrdered then "ordered" else "unordered") +:+ " list item")
         Types.text]
  | None => []
  end.

Definition not_char (c : ascii) : re := ncls (Ascii.eqb c).

(** The five substitutions of [extractPlainText], then [trim]. *)
Definition cleanText (line : string) : string :=
  let s1 :=
    replace_all no_flags
      (seq [lit "**"; Grp 1 (plus (not_char "*")); lit "**"]) line "$1" in
  let s2 :=
    replace_all no_flags
      (seq [chr "*"; Grp 1 (plus (not_char "*")); chr "*"]) s1 "$1" in
  let s3 :=
    replace_all no_flags
      (seq [chr "`"; Grp 1 (plus (not_char "`")); chr "`"]) s2 "$1" in
  let s4 := replace_all no_flags linkRegex s3 "$1" in
  let s5 := replace_all no_flags imageRegex s4 "" in
  JS.trim s5.

Definition is_some {A : Type} (o : option A) : bool :=
  match o with Some _ => true | None => false end.

Definition extractPlainText (line : string) (lineIndex : nat)
  : list Types.ExtractedText :=
  if is_some (match_ (seq [Bol; hashes; plus space]) line)
     || is_some (match_ (seq [Bol; chr ">"; plus space]) line)
     || is_some (match_ list_prefix line)
  then []
  else
    let cleanText := cleanText line in
    if JS.truthy cleanText && (2 <? JS.length cleanText)%nat
    then
      [fragment (line_id lineIndex "text") cleanText "paragraph text"
         Types.text]
    else [].

(** The variables the line loop of [parse] updates. *)
Record state : Type :=
  { inCodeBlock : bool;
    codeBlockFence : string;
    extractedTexts : list Types.ExtractedText }.

(** One turn of [lines.forEach((line, lineIndex) => ...)]. *)
Definition step (st : state) (lineIndex : nat) (line : string) : state :=
  if JS.startsWith (JS.trim line) "```" then
    if negb (inCodeBlock st) then
      {| inCodeBlock := true; codeBlockFence := JS.trim line;
         extractedTexts := extractedTexts st |}
    else if String.eqb (JS.trim line) (codeBlockFence st)
            || String.eqb (JS.trim line) "```" then
      {| inCodeBlock := false; codeBlockFence := "";
         extractedTexts := extractedTexts st |}
    else st
  else if inCodeBlock st then st
  else
    {| inCodeBlock := inCodeBlock st; codeBlockFence := codeBlockFence st;
       extractedTexts :=
         extractedTexts st
           ++ extractHeaders line lineIndex
           ++ extractLinks line lineIndex
           ++ extractImages line lineIndex
           ++ extractBlockquotes line lineIndex
           ++ extractListItems line lineIndex
           ++ extractPlainText line lineIndex |}.

Fixpoint forEach_from (st : state) (lineIndex : nat) (lines : list string)
  : state :=
  match lines with
  | [] => st
  | line :: tl => forEach_from (step st lineIndex line) (S lineIndex) tl
  end.

Definition parse (content : string) : list Types.ExtractedText :=
  let lines := JS.split (ascii_of_nat 10) content in
  extractedTexts
    (forEach_from
       {| inCodeBlock := false; codeBlockFence := ""; extractedTexts := [] |}
       O lines).

(** The image pattern built with [new RegExp]: group 1 is [!\[], group 2
    the escaped original text, group 3 the link target; flag [g]. *)
Definition altRegex (originalText : string) : re :=
  seq [Grp 1 (lit "!["); Grp 2 (lit originalText); Grp 3 link_target].

(** [new RegExp(`\\b${escapedOriginal}\\b`, 'g')] *)
Definition wordRegex (originalText : string) : re :=
  seq [WordB; lit originalText; WordB].

Definition reconstruct (originalContent : string)
  (translations : list Types.ExtractedText) : string :=
  foldl
    (fun reconstructed translation =>
       match HtmlParser.changed translation with
       | Some t =>
           match Types.type translation with
           | Types.alt =>
               replace_all no_flags
                 (altRegex (Types.originalText translation)) reconstructed
                 ("$1" +:+ t +:+ "$3")
           | _ =>
               replace_all no_flags
                 (wordRegex (Types.originalText translation)) reconstructed t
           end
       | None => reconstructed
       end) originalContent translations.

End MarkdownParser.

(** ** Parser registry ([contentParsers/index.ts]) *)

Module ContentParser.

(** [interface ContentParser] *)
Record t : Type :=
  { type : Types.ContentType;
    parse : string -> list Types.ExtractedText;
    reconstruct : string -> list Types.ExtractedText -> string;
    validate : string -> bool }.

End ContentParser.

#[global] Instance ContentType_eq_dec : EqDecision Types.ContentType.
Proof. solve_decision. Defined.

Module ContentParserFactory.

Section Registry.
Context `{JsonApi} `{DomApi}.

Definition editorJSParser : ContentParser.t :=
  {| ContentParser.type := EditorJSParser.type;
     ContentParser.parse := EditorJSParser.parse;
     ContentParser.reconstruct := EditorJSParser.reconstruct;
     ContentParser.validate := EditorJSParser.validate |}.

Definition grapeJSParser : ContentParser.t :=
  {| ContentParser.type := GrapeJSParser.type;
     ContentParser.parse := GrapeJSParser.parse;
     ContentParser.reconstruct := GrapeJSParser.reconstruct;
     ContentParser.validate := GrapeJSParser.validate |}.

Definition htmlParser : ContentParser.t :=
  {| ContentParser.type := HtmlParser.type;
     ContentParser.parse := HtmlParser.parse;
     ContentParser.reconstruct := HtmlParser.reconstruct;
     ContentParser.validate := HtmlParser.validate |}.

Definition jsonParser : ContentParser.t :=
  {| ContentParser.type := JsonParser.type;
     ContentParser.parse := JsonParser.parse;
     ContentParser.reconstruct := JsonParser.reconstruct;
     ContentParser.validate := JsonParser.validate |}.

Definition markdownParser : ContentParser.t :=
  {| ContentParser.type := MarkdownParser.type;
     ContentParser.parse := MarkdownParser.parse;
     ContentParser.reconstruct := MarkdownParser.reconstruct;
     ContentParser.validate := MarkdownParser.validate |}.

(** The initial value of the static [parsers]. *)
Definition parsers : list ContentParser.t :=
  [editorJSParser; grapeJSParser; htmlParser; jsonParser; markdownParser].

(** [registerParser(parser)] on the current list. *)
Definition registerParser (registry : list ContentParser.t)
  (parser : ContentParser.t) : list ContentParser.t :=
  registry ++ [parser].

(** [getParser(content)] on the current list; [None] is [null]. *)
Definition getParser_in (registry : list ContentParser.t)
  (content : string) : option ContentParser.t :=
  List.find (fun parser => ContentParser.validate parser content) registry.

Definition getParser (content : string) : option ContentParser.t :=
  getParser_in parsers content.

Definition getParserByType_in (registry : list ContentParser.t)
  (contentType : Types.ContentType) : option ContentParser.t :=
  List.find
    (fun parser => bool_decide (ContentParser.type parser = contentType))
    registry.

Definition getParserByType (contentType : Types.ContentType)
  : option ContentParser.t :=
  getParserByType_in parsers contentType.

End Registry.

End ContentParserFactory.

(** ** Promises *)

(** How a promise settles. *)
Inductive outcome (E A : Type) : Type :=
| Resolved (a : A) : outcome E A
| Rejected (e : E) : outcome E A.
Arguments Resolved {E A} a.
Arguments Rejected {E A} e.

Module Promise.

(** [Promise.all(promises)], the promises settling in the order [order]
    (indices into [promises]): a value is stored at the index of its
    promise; the first rejection rejects the whole; the whole resolves
    once every index holds a value.  [None]: some promise never settles,
    the [await] does not return. *)
Fixpoint settle {E A : Type} (promises : list (outcome E A))
  (order : list nat) (values : list (option A))
  : option (outcome E (list A)) :=
  match order with
  | [] =>
      match mapM (fun v : option A => v) values with
      | Some l => Some (Resolved l)
      | None => None
      end
  | index :: tl =>
      match promises !! index with
      | Some (Resolved a) => settle promises tl (<[index := Some a]> values)
      | Some (Rejected e) => Some (Rejected e)
      | None => settle promises tl values
      end
  end.

Definition all {E A : Type} (order : list nat) (promises : list (outcome E A))
  : option (outcome E (list A)) :=
  settle promises order (replicate (List.length promises) None).

End Promise.

(** ** Translation orchestrator ([enhancedTranslationService.ts]) *)

Module EnhancedTranslationService.

(** The argument of [translationService.createTranslation]. *)
Record TranslationRequest : Type :=
  { sourceText : string;
    translatedText : string;
    sourceLanguage : string;
    targetLanguage : string;
    context : string;
    metadata_entityId : string;
    metadata_field : Types.TextType }.

Section Orchestrator.
(** [translationService.createTranslation], by the number of the call
    (calls are issued in fragment order): the [translatedText] of the
    record it resolves with, [Resolved None] when it resolves with
    [undefined], or a rejection. *)
Variable createTranslation :
  nat -> TranslationRequest -> outcome string (option string).
(** The order in which the promises of the batch starting at a given
    index settle. *)
Variable schedule : nat -> list nat.

Definition batchSize : nat := 10.

(** [extractedTexts.slice(from, to)] *)
Definition slice {A : Type} (l : list A) (from to : nat) : list A :=
  take (to - from) (drop from l).

(** The record handed to [createTranslation] for one fragment. *)
Definition request_for (sourceLanguage targetLanguage : string)
  (extracted : Types.ExtractedText) : TranslationRequest :=
  {| sourceText := Types.originalText extracted;
     translatedText := "";
     sourceLanguage := sourceLanguage;
     targetLanguage := targetLanguage;
     context := Types.context extracted;
     metadata_entityId := Types.id extracted;
     metadata_field := Types.type extracted |}.

(** The [async (extracted) => { try ... catch ... }] of one fragment,
    as call number [index]: reading [translatedText] of [undefined] throws
    inside the [try], like a rejection of the call. *)
Definition translateOne (sourceLanguage targetLanguage : string)
  (index : nat) (extracted : Types.ExtractedText)
  : outcome string Types.ExtractedText :=
  match
    createTranslation index
      (request_for sourceLanguage targetLanguage extracted)
  with
  | Resolved (Some t) => Resolved (Types.with_translation extracted t)
  | Resolved None | Rejected _ =>
      Resolved
        (Types.with_translation extracted (Types.originalText extracted))
  end.

(** The [for] loop from index [i] on, with the [results] so far and the
    delays waited so far (in milliseconds). *)
Fixpoint loop (fuel : nat) (extractedTexts : list Types.ExtractedText)
  (sourceLanguage targetLanguage : string) (i : nat)
  (results : list Types.ExtractedText) (delays : list nat)
  : option (outcome string (list Types.ExtractedText * list nat)) :=
  match fuel with
  | O => None
  | S fuel' =>
      if (i <? List.length extractedTexts)%nat then
        let batch := slice extractedTexts i (i + batchSize) in
        let batchPromises :=
          imap
            (fun j extracted =>
               translateOne sourceLanguage targetLanguage (i + j) extracted)
            batch in
        match Promise.all (schedule i) batchPromises with
        | None => None
        | Some (Rejected e) => Some (Rejected e)
        | Some (Resolved batchResults) =>
            loop fuel' extractedTexts sourceLanguage targetLanguage
              (i + batchSize) (results ++ batchResults)
              (if (i + batchSize <? List.length extractedTexts)%nat
               then delays ++ [100%nat] else delays)
        end
      else Some (Resolved (results, delays))
  end.

(** [translateExtractedTexts]: the list it resolves with and the delays
    it waited, or its rejection; [None] when it never settles. *)
Definition translateExtractedTexts
  (extractedTexts : list Types.ExtractedText)
  (sourceLanguage targetLanguage : string)
  : option (outcome string (list Types.ExtractedText * list nat)) :=
  loop (S (List.length extractedTexts)) extractedTexts sourceLanguage
    targetLanguage O [] [].

End Orchestrator.

End EnhancedTranslationService.

(** ** DeepL adapter ([deeplService.ts]) *)

Module DeepLService.

(** The fields of [DeepLConfig] the adapter reads after set-up. *)
Record DeepLConfig : Type :=
  { maxRetries : Z;
    retryDelay : Z;
    preserveFormatting : bool;
    formalityLevel : string }.

(** A thrown [Error], by its message; [TypeError] stands for the error of
    reading a property of [null] or [undefined]. *)
Inductive Error : Type :=
| MkError (message : string) : Error
| TypeError : Error.

(** [AxiosError]: [response] (status and body) when the server answered,
    [code] and [message] otherwise. *)
Record AxiosError : Type :=
  { response : option (Z * Value.t);
    code : option string;
    message : string }.

(** [data.message || fallback] inside a template literal. *)
Definition message_or `{JsonApi} (data : Value.t) (fallback : string)
  : option string :=
  m ← Value.prop data "message";
  Some (if Value.truthy m then Value.to_string m else fallback).

Definition handleApiError `{JsonApi} (error : AxiosError) : Error :=
  match response error with
  | Some (status, data) =>
      if (status =? 400)%Z then
        match message_or data "Invalid parameters" with
        | Some m => MkError ("Bad Request: " +:+ m)
        | None => TypeError
        end
      else if (status =? 401)%Z then
        MkError "Authentication failed: Invalid API key"
      else if (status =? 403)%Z then
        MkError "Authorization failed: API key lacks permissions"
      else if (status =? 413)%Z then
        MkError "Request too large: Text exceeds maximum length"
      else if (status =? 429)%Z then
        MkError "Rate limit exceeded: Too many requests"
      else if (status =? 456)%Z then
        MkError "Quota exceeded: Character limit reached"
      else if (status =? 503)%Z then
        MkError "Service unavailable: DeepL API is temporarily down"
      else
        match message_or data "Unknown error" with
        | Some m => MkError ("API Error " +:+ pretty status +:+ ": " +:+ m)
        | None => TypeError
        end
  | None =>
      match code error with
      | Some c =>
          if String.eqb c "ECONNABORTED"
          then MkError "Request timeout: DeepL API did not respond in time"
          else MkError ("Network error: " +:+ message error)
      | None => MkError ("Network error: " +:+ message error)
      end
  end.

(** What [executeWithRetry] does, in order. *)
Inductive event : Type :=
| Invoke (attempt : nat) : event
| Delay (ms : Z) : event.

(** The turns of the [for] loop of [executeWithRetry] from [attempt] on,
    [remaining] of them; [operation attempt] is how the call of that turn
    settles.  After the last turn, [throw lastError]. *)
Fixpoint attempts {T : Type} (config : DeepLConfig)
  (operation : nat -> outcome Error T) (remaining attempt : nat)
  (lastError : option Error) : list event * outcome (option Error) T :=
  match remaining with
  | O => ([], Rejected lastError)
  | S remaining' =>
      match operation attempt with
      | Resolved v => ([Invoke attempt], Resolved v)
      | Rejected error =>
          let '(log, r) :=
            attempts config operation remaining' (S attempt) (Some error) in
          (Invoke attempt
             :: (if (Z.of_nat attempt <? maxRetries config)%Z
                 then [Delay (retryDelay config * 2 ^ Z.of_nat attempt)]
                 else [])
             ++ log, r)
      end
  end.

(** [executeWithRetry(operation)]: the loop runs for
    [attempt = 0 .. maxRetries]. *)
Definition executeWithRetry {T : Type} (config : DeepLConfig)
  (operation : nat -> outcome Error T)
  : list event * outcome (option Error) T :=
  attempts config operation (Z.to_nat (maxRetries config + 1)) O None.

(** The number of times the operation was invoked. *)
Definition invocations (log : list event) : nat :=
  List.length
    (List.filter
       (fun e => match e with Invoke _ => true | Delay _ => false end) log).

Definition delays (log : list event) : list Z :=
  flat_map (fun e => match e with Delay ms => [ms] | Invoke _ => [] end) log.

(** *** Translation memory *)

Record TranslationMemoryEntry : Type :=
  { id : string;
    sourceText : string;
    translatedText : option string;
    sourceLanguage : string;
    targetLanguage : string;
    contentType : string;
    createdAt : string;
    usageCount : Z;
    lastUsed : string }.

(** [ToInt32] *)
Definition to_int32 (z : Z) : Z :=
  ((z + 2 ^ 31) mod 2 ^ 32 - 2 ^ 31)%Z.

Definition simpleHash_step (hash : Z) (c : ascii) : Z :=
  let hash1 :=
    (to_int32 (Z.shiftl hash 5) - hash + Z.of_nat (JS.code c))%Z in
  to_int32 (Z.land hash1 hash1).

Fixpoint to_base36_digits (fuel : nat) (n : Z) (acc : list ascii)
  : list ascii :=
  match fuel with
  | O => acc
  | S fuel' =>
      let d := Z.to_nat (n mod 36) in
      let c := if (d <? 10)%nat then ascii_of_nat (48 + d)
               else ascii_of_nat (87 + d) in
      if (n <? 36)%Z then c :: acc
      else to_base36_digits fuel' (n / 36) (c :: acc)
  end.

(** [n.toString(36)] for an integer [0 <= n <= 2^31]. *)
Definition toString36 (n : Z) : string :=
  JS.str (to_base36_digits 7 n []).

Definition simpleHash (str : string) : string :=
  toString36 (Z.abs (fold_left simpleHash_step (JS.chars str) 0%Z)).

Definition getMemoryKey (text sourceLanguage targetLanguage : string)
  : string :=
  let textHash := simpleHash (JS.toLowerCase (JS.trim text)) in
  sourceLanguage +:+ "-" +:+ targetLanguage +:+ "-" +:+ textHash.

(** The entry after [entry.usageCount++; entry.lastUsed = now]. *)
Definition used (now : string) (entry : TranslationMemoryEntry)
  : TranslationMemoryEntry :=
  {| id := id entry; sourceText := sourceText entry;
     translatedText := translatedText entry;
     sourceLanguage := sourceLanguage entry;
     targetLanguage := targetLanguage entry;
     contentType := contentType entry;
     createdAt := createdAt entry;
     usageCount := (usageCount entry + 1)%Z;
     lastUsed := now |}.

(** [checkTranslationMemory]: the memory afterwards and the result per
    text ([None]: [null], or an entry without a translation). *)
Fixpoint checkTranslationMemory (now : string)
  (translationMemory : gmap string TranslationMemoryEntry)
  (texts : list string) (sourceLanguage targetLanguage : string)
  : gmap string TranslationMemoryEntry * list (option string) :=
  match texts with
  | [] => (translationMemory, [])
  | text :: tl =>
      let key := getMemoryKey text sourceLanguage targetLanguage in
      match translationMemory !! key with
      | Some entry =>
          let '(memory', results) :=
            checkTranslationMemory now
              (<[key := used now entry]> translationMemory) tl sourceLanguage
              targetLanguage in
          (memory', translatedText entry :: results)
      | None =>
          let '(memory', results) :=
            checkTranslationMemory now translationMemory tl sourceLanguage
              targetLanguage in
          (memory', None :: results)
      end
  end.

(** [storeInTranslationMemory], without the copy to [localStorage]. *)
Fixpoint storeInTranslationMemory (now : string)
  (translationMemory : gmap string TranslationMemoryEntry)
  (sourceTexts : list string) (translatedTexts : list string) (i : nat)
  (sourceLanguage targetLanguage : string)
  : gmap string TranslationMemoryEntry :=
  match sourceTexts with
  | [] => translationMemory
  | text :: tl =>
      let key := getMemoryKey text sourceLanguage targetLanguage in
      let entry :=
        {| id := key; sourceText := text;
           translatedText := translatedTexts !! i;
           sourceLanguage := sourceLanguage;
           targetLanguage := targetLanguage;
           contentType := "text";
           createdAt := now;
           usageCount := 1;
           lastUsed := now |} in
      storeInTranslationMemory now (<[key := entry]> translationMemory) tl
        translatedTexts (S i) sourceLanguage targetLanguage
  end.

(** *** [translateText] *)

Record DeepLTranslationRequest : Type :=
  { text : list string;
    source_lang : option string;
    target_lang : string;
    preserve_formatting : bool;
    formality : string }.

(** One element of [DeepLTranslationResponse.translations]. *)
Record Translated : Type :=
  { detected_source_language : string; translated : string }.

(** The adapter's state: the translation memory and the requests sent to
    the backend so far. *)
Record state : Type :=
  { translationMemory : gmap string TranslationMemoryEntry;
    requests : list DeepLTranslationRequest }.

(** [!cachedResults[index]] *)
Definition falsy (r : option string) : bool :=
  match r with Some s => negb (JS.truthy s) | None => true end.

(** [s.toUpperCase()] *)
Definition toUpperCase (s : string) : string :=
  JS.str (map JS.upper (JS.chars s)).

(** The merge loop of [translateText]. *)
Fixpoint merge (cachedResults : list (option string))
  (translations : list string) (uncachedIndex : nat)
  : list (option string) :=
  match cachedResults with
  | [] => []
  | r :: tl =>
      if falsy r
      then translations !! uncachedIndex
             :: merge tl translations (S uncachedIndex)
      else r :: merge tl translations uncachedIndex
  end.

Fixpoint filter_uncached (texts : list string)
  (cachedResults : list (option string)) : list string :=
  match texts, cachedResults with
  | t :: ts, r :: rs =>
      if falsy r then t :: filter_uncached ts rs else filter_uncached ts rs
  | _, _ => []
  end.

Section TranslateText.
Variable config : DeepLConfig.
(** [this.client.post('/v2/translate', request)] as the request number
    [n] the adapter sends: how it settles (the response interceptor has
    turned a failure into an [Error]). *)
Variable post :
  nat -> DeepLTranslationRequest -> outcome Error (list Translated).

(** [translateText(texts, targetLanguage, sourceLanguage)] at clock
    reading [now]: the state afterwards and how the call settles. *)
Definition translateText (now : string) (st : state)
  (texts : list string) (targetLanguage : string)
  (sourceLanguage : option string)
  : state * outcome (option Error) (list (option string)) :=
  let given := match sourceLanguage with Some s => s | None => "" end in
  let '(memory1, cachedResults) :=
    checkTranslationMemory now (translationMemory st) texts
      (JS.or_else given "auto") targetLanguage in
  let uncachedTexts := filter_uncached texts cachedResults in
  match uncachedTexts with
  | [] =>
      ({| translationMemory := memory1; requests := requests st |},
       Resolved cachedResults)
  | _ :: _ =>
      let request :=
        {| text := uncachedTexts;
           source_lang :=
             if JS.truthy given && negb (String.eqb given "auto")
             then Some (toUpperCase given) else None;
           target_lang := toUpperCase targetLanguage;
           preserve_formatting := preserveFormatting config;
           formality := formalityLevel config |} in
      let sent := List.length (requests st) in
      let '(log, r) :=
        executeWithRetry config
          (fun attempt => post (sent + attempt)%nat request) in
      let requests' :=
        requests st ++ replicate (invocations log) request in
      match r with
      | Resolved translated_list =>
          let translations := map translated translated_list in
          let detected :=
            match translated_list with
            | t :: _ => detected_source_language t
            | [] => ""
            end in
          let memory2 :=
            storeInTranslationMemory now memory1 uncachedTexts
              translations O
              (JS.or_else given (JS.or_else detected "auto"))
              targetLanguage in
          ({| translationMemory := memory2; requests := requests' |},
           Resolved (merge cachedResults translations O))
      | Rejected error =>
          ({| translationMemory := memory1; requests := requests' |},
           Rejected error)
      end
  end.

End TranslateText.

End DeepLService.

(** ** A platform for the examples

    [JSON_stringify] prints compactly, strings unescaped; [JSON_parse]
    reads back the printed form of the documents of [documents] and rejects
    every other text; no DOM is there. *)

Module Sample.

Definition quote : string := String (ascii_of_nat 34) EmptyString.
Definition quoted (s : string) : string := quote +:+ s +:+ quote.

Definition number_text (q : Q) : string :=
  if (Qden q =? 1)%positive then pretty (Qnum q)
  else pretty (Qnum q) +:+ "/" +:+ pretty (Zpos (Qden q)).

Fixpoint print (v : json) : string :=
  match v with
  | JNull => "null"
  | JBool true => "true"
  | JBool false => "false"
  | JNum q => number_text q
  | JStr s => quoted s
  | JArr items => "[" +:+ Value.join "," (map print items) +:+ "]"
  | JObj fields =>
      "{"
        +:+ Value.join ","
              (map (fun kv => quoted (fst kv) +:+ ":" +:+ print (snd kv))
                 fields)
        +:+ "}"
  end.

(** The Editor.js document of the end-to-end scenario. *)
Definition hello_editor : json :=
  JObj [("blocks",
         JArr [JObj [("type", JStr "header");
                     ("data", JObj [("text", JStr "Hello")])]])].

(** An Editor.js document whose text carries markup. *)
Definition bold_editor : json :=
  JObj [("blocks",
         JArr [JObj [("type", JStr "paragraph");
                     ("data", JObj [("text", JStr "<b>Hello</b> world")])]])].

(** A GrapeJS component tree. *)
Definition page_grape : json :=
  JArr [JObj [("type", JStr "text"); ("content", JStr "Welcome")]].

(** A GrapeJS component whose content carries markup. *)
Definition markup_grape : json :=
  JArr [JObj [("type", JStr "text"); ("content", JStr "<p>Welcome</p>")]].

(** A document both structural detectors accept. *)
Definition blocks_and_components : json :=
  JObj [("blocks", JArr []); ("components", JArr [])].

(** A JSON document in which two positions share the path [a.b]. *)
Definition colliding : json :=
  JObj [("a", JObj [("b", JStr "hello world")]); ("a.b", JStr "goodbye")].

Definition product : json :=
  JObj [("name", JStr "Premium Wireless Headphones");
        ("tags", JArr [JStr "audio gear"; JNum 3]);
        ("seo", JObj [("title", JStr "Buy headphones")])].

Definition documents : list json :=
  [hello_editor; bold_editor; page_grape; markup_grape;
   blocks_and_components; colliding; product; JNull].

Definition LF : string := String (ascii_of_nat 10) EmptyString.

(** The Markdown document of the code-fence scenario: a header, a fenced
    block holding a header-like line, and a final line break. *)
Definition fenced_markdown : string :=
  "# Title" +:+ LF +:+ "```" +:+ LF +:+ "# not a header" +:+ LF +:+ "```"
    +:+ LF.

#[global] Instance api : JsonApi :=
  {| JSON_parse :=
       fun content =>
         List.find (fun v => String.eqb (print v) content) documents;
     JSON_stringify := fun v _ => print v;
     Number_toString := number_text |}.

#[global] Instance no_dom : DomApi := {| innerHTML := fun _ => None |}.

End Sample.

(** ** Error kinds of the backend contract *)

Module ErrorKinds.

(** The kinds the contract of the backend adapter names, and [OtherStatus]
    for an answer with any other status. *)
Inductive ErrorKind : Type :=
| BadRequest | AuthFailed | Forbidden | PayloadTooLarge | RateLimited
| QuotaExceeded | ServiceUnavailable | Timeout | NetworkError | OtherStatus.

(** The kind of a failure, by the case of [handleApiError] that builds its
    [Error]. *)
Definition kind_of (error : DeepLService.AxiosError) : ErrorKind :=
  match DeepLService.response error with
  | Some (status, _) =>
      if (status =? 400)%Z then BadRequest
      else if (status =? 401)%Z then AuthFailed
      else if (status =? 403)%Z then Forbidden
      else if (status =? 413)%Z then PayloadTooLarge
      else if (status =? 429)%Z then RateLimited
      else if (status =? 456)%Z then QuotaExceeded
      else if (status =? 503)%Z then ServiceUnavailable
      else OtherStatus
  | None =>
      match DeepLService.code error with
      | Some c => if String.eqb c "ECONNABORTED" then Timeout else NetworkError
      | None => NetworkError
      end
  end.

Definition transient (kind : ErrorKind) : bool :=
  match kind with
  | RateLimited | ServiceUnavailable | Timeout | NetworkError => true
  | _ => false
  end.

(** The failure of a request the server answers with status 400. *)
Definition bad_request : DeepLService.AxiosError :=
  {| DeepLService.response := Some (400%Z, Some (JObj []));
     DeepLService.code := Some "ERR_BAD_REQUEST";
     DeepLService.message := "Request failed with status code 400" |}.

Definition three_retries : DeepLService.DeepLConfig :=
  {| DeepLService.maxRetries := 3; DeepLService.retryDelay := 1000;
     DeepLService.preserveFormatting := true;
     DeepLService.formalityLevel := "default" |}.

(** The log of [k] failed attempts starting with attempt [start], each
    followed by its backoff delay. *)
Definition failed_attempts (config : DeepLService.DeepLConfig)
  (start k : nat) : list DeepLService.event :=
  flat_map
    (fun attempt =>
       [DeepLService.Invoke attempt;
        DeepLService.Delay
          (DeepLService.retryDelay config * 2 ^ Z.of_nat attempt)])
    (seq start k).

End ErrorKinds.

Module RetryExamples.

(** An operation that fails with a Bad Request on every attempt. *)
Definition always_bad_request (attempt : nat)
  : outcome DeepLService.Error unit :=
  Rejected (DeepLService.handleApiError ErrorKinds.bad_request).

(** An operation that fails twice with a Bad Request, then succeeds. *)
Definition third_time_lucky (attempt : nat)
  : outcome DeepLService.Error unit :=
  if (attempt <? 2)%nat
  then Rejected (DeepLService.handleApiError ErrorKinds.bad_request)
  else Resolved tt.

End RetryExamples.

(** ** Batched translation: what the caller should get *)

Module Batching.

(** Every promise of every batch settles: index [j] of the batch starting
    at [i] occurs in the settling order of that batch. *)
Definition fair (schedule : nat -> list nat) (n : nat) : Prop :=
  forall i j, (j < EnhancedTranslationService.batchSize)%nat ->
              (i + j < n)%nat -> j ∈ schedule i.

(** The text call number [index] yields for a fragment: the translation the
    backend resolves with, the original text otherwise. *)
Definition translation_of
  (createTranslation :
     nat -> EnhancedTranslationService.TranslationRequest
     -> outcome string (option string))
  (sourceLanguage targetLanguage : string) (index : nat)
  (extracted : Types.ExtractedText) : string :=
  match
    createTranslation index
      (EnhancedTranslationService.request_for sourceLanguage targetLanguage
         extracted)
  with
  | Resolved (Some t) => t
  | _ => Types.originalText extracted
  end.

(** The fragment with the text its call yields. *)
Definition translated
  (createTranslation :
     nat -> EnhancedTranslationService.TranslationRequest
     -> outcome string (option string))
  (sourceLanguage targetLanguage : string) (index : nat)
  (extracted : Types.ExtractedText) : Types.ExtractedText :=
  Types.with_translation extracted
    (translation_of createTranslation sourceLanguage targetLanguage index
       extracted).

(** Twelve fragments, hence two batches. *)
Definition twelve : list Types.ExtractedText :=
  imap
    (fun i s =>
       {| Types.id := "k" +:+ JS.of_nat i; Types.originalText := s;
          Types.translatedText := None; Types.path := "k" +:+ JS.of_nat i;
          Types.context := "JSON"; Types.type := Types.text |})
    ["one"; "two"; "three"; "four"; "five"; "six"; "seven"; "eight"; "nine";
     "ten"; "eleven"; "twelve"].

(** A backend that fails on call 3 and upper-cases every other text. *)
Definition shouting_backend (index : nat)
  (request : EnhancedTranslationService.TranslationRequest)
  : outcome string (option string) :=
  if (index =? 3)%nat then Rejected "Failed to create translation"
  else
    Resolved
      (Some
         (DeepLService.toUpperCase
            (EnhancedTranslationService.sourceText request))).

(** The calls of a batch settle last to first. *)
Definition last_first (i : nat) : list nat :=
  rev (seq 0 EnhancedTranslationService.batchSize).

End Batching.

Module CacheExamples.

Definition config : DeepLService.DeepLConfig := ErrorKinds.three_retries.

(** A backend that answers every request, reports English as the detected
    source language and translates a text to its upper-case form; the
    empty text translates to the empty text. *)
Definition shouting_post (n : nat)
  (request : DeepLService.DeepLTranslationRequest)
  : outcome DeepLService.Error (list DeepLService.Translated) :=
  Resolved
    (map
       (fun t =>
          {| DeepLService.detected_source_language := "EN";
             DeepLService.translated := DeepLService.toUpperCase t |})
       (DeepLService.text request)).

(** A fresh adapter: empty translation memory, no request sent. *)
Definition fresh : DeepLService.state :=
  {| DeepLService.translationMemory := ∅; DeepLService.requests := [] |}.

(** The number of backend requests after translating [texts] twice with the
    same arguments, starting from a fresh adapter: after the first call and
    after the second. *)
Definition requests_of_two_calls (texts : list string)
  (targetLanguage : string) (sourceLanguage : option string) : nat * nat :=
  let st1 :=
    fst (DeepLService.translateText config shouting_post
           "2024-01-01T00:00:00.000Z" fresh texts targetLanguage
           sourceLanguage) in
  let st2 :=
    fst (DeepLService.translateText config shouting_post
           "2024-01-01T00:00:01.000Z" st1 texts targetLanguage
           sourceLanguage) in
  (List.length (DeepLService.requests st1),
   List.length (DeepLService.requests st2)).

End CacheExamples.

(** ** Positions of a JSON document *)

Module Position.

(** One step down from a value: into the field of a key, or to the item at
    an index. *)
Inductive step : Type :=
| Key (key : string) : step
| Index (index : nat) : step.

(** The path of the position one step below the position of path [path],
    as [extractFromObject] and [reconstructObject] derive it. *)
Definition extend (path : string) (s : step) : string :=
  match s with
  | Key key => JsonParser.key_path path key
  | Index index => JsonParser.index_path path index
  end.

Definition path_from (path : string) (steps : list step) : string :=
  foldl extend path steps.

(** The path of a position of the document. *)
Definition path_of (steps : list step) : string := path_from "" steps.

Definition child (v : json) (s : step) : option json :=
  match v, s with
  | JObj fields, Key key => Value.lookup key fields
  | JArr items, Index index => items !! index
  | _, _ => None
  end.

(** The value at a position. *)
Fixpoint value_at (v : json) (steps : list step) : option json :=
  match steps with
  | [] => Some v
  | s :: tl =>
      match child v s with
      | Some c => value_at c tl
      | None => None
      end
  end.

Definition leaf (v : json) : bool :=
  match v with
  | JArr _ | JObj _ => false
  | _ => true
  end.

(** The structure of a value: its keys, lengths and nesting, with every
    string emptied. *)
Fixpoint shape (v : json) : json :=
  match v with
  | JStr _ => JStr ""
  | JArr items => JArr (map shape items)
  | JObj fields => JObj (map (fun '(key, value) => (key, shape value)) fields)
  | other => other
  end.

(** Every position strictly below a value whose own path is [path]: its
    path and the value it holds, in document order. *)
Fixpoint below (v : json) (path : string) : list (string * json) :=
  match v with
  | JArr items =>
      concat
        (JS.mapi
           (fun index item =>
              (JsonParser.index_path path index, item)
                :: below item (JsonParser.index_path path index)) items)
  | JObj fields =>
      concat
        (map
           (fun '(key, value) =>
              (JsonParser.key_path path key, value)
                :: below value (JsonParser.key_path path key)) fields)
  | _ => []
  end.

(** What [reconstructObject] leaves at a position one step below [path]
    that held [c]. *)
Definition rebuilt_child (translationMap : gmap string string)
  (path : string) (s : step) (c : json) : json :=
  match translationMap !! extend path s with
  | Some t => JStr t
  | None => JsonParser.reconstructObject c (extend path s) translationMap
  end.

(** No path of a position of the document is matched by the map up to and
    including the position [steps]. *)
Definition unmatched (translationMap : gmap string string)
  (steps : list step) : Prop :=
  forall n, (0 < n <= List.length steps)%nat ->
            translationMap !! path_of (take n steps) = None.

(** The text [reconstruct] writes at the positions of path [path]: that of
    the last fragment of the list with this path, its [translatedText] when
    set and non-empty, its [originalText] otherwise. *)
Definition replacement (translations : list Types.ExtractedText)
  (path : string) : option string :=
  match
    List.find (fun t => String.eqb (Types.path t) path) (rev translations)
  with
  | Some t => Some (Types.translated_or_original t)
  | None => None
  end.

(** The fragments as an identity translation returns them. *)
Definition untranslated (translations : list Types.ExtractedText)
  : list Types.ExtractedText :=
  map (fun t => Types.with_translation t (Types.originalText t)) translations.

End Position.

(** ** Stored texts of an Editor.js document *)

Module Stored.

(** [data.key], [undefined] also where reading it throws. *)
Definition field (data : Value.t) (key : string) : Value.t :=
  match Value.prop data key with
  | Some v => v
  | None => Value.undefined
  end.

(** The array a property holds, empty when it holds none. *)
Definition array_of (v : Value.t) : list json :=
  match v with
  | Some (JArr l) => l
  | _ => []
  end.

(** The paths of the texts of one key of the data of a custom block, with
    the values stored there. *)
Definition of_entry (blockPath key : string) (value : json)
  : list (string * Value.t) :=
  let currentPath := blockPath +:+ ".data." +:+ key in
  match value with
  | JStr _ => [(currentPath, Some value)]
  | JArr items =>
      imap
        (fun index item =>
           (currentPath +:+ "[" +:+ JS.of_nat index +:+ "]", Some item))
        items
  | _ => []
  end.

(** The paths [reconstructBlock] looks up for a block, each with the value
    the block stores at the place the path stands for ([undefined] when it
    stores none). *)
Definition of_block (block : json) (blockIndex : nat)
  : list (string * Value.t) :=
  let blockPath := EditorJSParser.blockPath blockIndex in
  let ty := field (Some block) "type" in
  let data := field (Some block) "data" in
  let text key := (blockPath +:+ ".data." +:+ key, field data key) in
  if Value.is_string ty "paragraph" || Value.is_string ty "header" then
    [text "text"]
  else if Value.is_string ty "list" then
    imap
      (fun itemIndex item =>
         (blockPath +:+ ".data.items[" +:+ JS.of_nat itemIndex +:+ "]",
          Some item)) (array_of (field data "items"))
  else if Value.is_string ty "quote" then [text "text"; text "caption"]
  else if Value.is_string ty "image" || Value.is_string ty "embed" then
    [text "caption"]
  else if Value.is_string ty "table" then
    concat
      (imap
         (fun rowIndex row =>
            imap
              (fun cellIndex cell =>
                 (blockPath +:+ ".data.content[" +:+ JS.of_nat rowIndex
                    +:+ "][" +:+ JS.of_nat cellIndex +:+ "]", Some cell))
              (array_of (Some row))) (array_of (field data "content")))
  else if Value.is_string ty "checklist" then
    imap
      (fun itemIndex item =>
         (blockPath +:+ ".data.items[" +:+ JS.of_nat itemIndex +:+ "].text",
          field (Some item) "text")) (array_of (field data "items"))
  else if Value.is_string ty "warning" || Value.is_string ty "alert" then
    [text "title"; text "message"]
  else
    match data with
    | Some d =>
        concat
          (map (fun '(key, value) => of_entry blockPath key value)
             (EditorJSParser.entries d))
    | None => []
    end.

(** The same for a whole document. *)
Definition of_document (editorData : json) : list (string * Value.t) :=
  concat
    (imap (fun blockIndex block => of_block block blockIndex)
       (array_of (field (Some editorData) "blocks"))).

(** The map matches no stored text besides a string equal to its entry. *)
Definition agrees (translationMap : gmap string string)
  (stored : list (string * Value.t)) : Prop :=
  forall p x t, In (p, x) stored -> translationMap !! p = Some t ->
                x = Some (JStr t).

(** No stored string would change under [stripHtml]. *)
Definition clean (stored : list (string * Value.t)) : Prop :=
  forall p s, In (p, Some (JStr s)) stored -> EditorJSParser.stripHtml s = s.

End Stored.

Module Origin.

(** A fragment is the stored string at its path, or what [stripHtml]
    leaves of it. *)
Definition from_stored (stored : list (string * Value.t))
  (f : Types.ExtractedText) : Prop :=
  exists s,
    In (Types.path f, Some (JStr s)) stored
    /\ (Types.originalText f = EditorJSParser.stripHtml s
        \/ Types.originalText f = s).

End Origin.

Module RebuildExamples.

(** One fragment for the product name, translated. *)
Definition name_translated : list Types.ExtractedText :=
  [ {| Types.id := "name";
       Types.originalText := "Premium Wireless Headphones";
       Types.translatedText := Some "Casque sans fil haut de gamme";
       Types.path := "name"; Types.context := "JSON name";
       Types.type := Types.text |} ].

(** One fragment whose path is that of the object [seo] of the product. *)
Definition seo_translated : list Types.ExtractedText :=
  [ {| Types.id := "seo"; Types.originalText := "Search";
       Types.translatedText := Some "Recherche";
       Types.path := "seo"; Types.context := "JSON seo";
       Types.type := Types.text |} ].

(** The first block of the end-to-end document. *)
Definition hello_block : json :=
  JObj [("type", JStr "header"); ("data", JObj [("text", JStr "Hello")])].

End RebuildExamples.

(** ** Stored texts of a GrapeJS document *)

Module Component.

(** The paths [reconstructAttributes] looks up, each with the attribute
    value stored there. *)
Definition attributes_of (attributes : Value.t) (path : string)
  : list (string * Value.t) :=
  match attributes with
  | Some a =>
      map (fun '(key, value) => (path +:+ ".attributes." +:+ key, Some value))
        (GrapeJSParser.attribute_entries a)
  | None => []
  end.

(** The paths [reconstructTrait] looks up, each with the value of the
    trait. *)
Definition traits_of (traits : Value.t) (path : string)
  : list (string * Value.t) :=
  imap
    (fun traitIndex trait =>
       (path +:+ ".traits[" +:+ JS.of_nat traitIndex +:+ "].value",
        Stored.field (Some trait) "value")) (Stored.array_of traits).

(** The paths [reconstructComponent] looks up for a component and the
    components below it, each with the value stored at the place the path
    stands for ([undefined] when none is); with [content_only], the paths
    of the [content] properties alone. *)
Fixpoint positions (content_only : bool) (component : json) (path : string)
  : list (string * Value.t) :=
  match component with
  | JObj fields =>
      ((path +:+ ".content", Value.lookup "content" fields)
         :: (if content_only then []
             else attributes_of (Value.lookup "attributes" fields) path
                    ++ traits_of (Value.lookup "traits" fields) path))
        ++ GrapeJSParser.on_components
             (fun items =>
                concat
                  (JS.mapi
                     (fun childIndex child =>
                        positions content_only child
                          (GrapeJSParser.childPath path childIndex)) items))
             [] fields
  | _ => []
  end.

(** The components of a document the detector accepts: the document
    itself, or the array its [components] property holds. *)
Definition components_of (grapeData : json) : list json :=
  match grapeData with
  | JArr items => items
  | _ => Stored.array_of (Stored.field (Some grapeData) "components")
  end.

Definition of_document (content_only : bool) (grapeData : json)
  : list (string * Value.t) :=
  concat
    (imap
       (fun index component =>
          positions content_only component ("[" +:+ JS.of_nat index +:+ "]"))
       (components_of grapeData)).

(** Every stored text of a document, and the [content] texts among them. *)
Definition stored (grapeData : json) : list (string * Value.t) :=
  of_document false grapeData.
Definition contents (grapeData : json) : list (string * Value.t) :=
  of_document true grapeData.

(** The document is one the detector accepts. *)
Definition accepted (grapeData : json) : bool :=
  Value.is_array (Some grapeData)
  || Value.is_array (Stored.field (Some grapeData) "components").

(** A fragment is the stored string at its path, or what [stripHtml]
    leaves of a [content] string. *)
Definition origin (content_only : bool -> list (string * Value.t))
  (f : Types.ExtractedText) : Prop :=
  exists s,
    In (Types.path f, Some (JStr s)) (content_only false)
    /\ (Types.originalText f = s
        \/ (In (Types.path f, Some (JStr s)) (content_only true)
            /\ Types.originalText f = GrapeJSParser.stripHtml s)).

End Component.

(** ** A second platform for examples

    As [Sample], with its own list of documents. *)

Module Fixture.

(** A JSON document, neither Editor.js nor GrapeJS, one of whose strings
    holds a tag. *)
Definition tagged_json : json :=
  JObj [("note", JStr "<b>Sale</b> ends soon")].

(** A JSON document whose root is a string. *)
Definition root_string : json := JStr "Hello world".

(** A JSON object without [components]. *)
Definition settings : json := JObj [("theme", JStr "dark mode")].

(** An Editor.js document whose second block is [null]. *)
Definition broken_editor : json :=
  JObj [("blocks",
         JArr [JObj [("type", JStr "header");
                     ("data", JObj [("text", JStr "Hello")])];
               JNull;
               JObj [("type", JStr "header");
                     ("data", JObj [("text", JStr "World")])]])].

Definition documents : list json :=
  [tagged_json; root_string; settings; broken_editor; Sample.product;
   Sample.hello_editor; Sample.page_grape].

Definition api : JsonApi :=
  {| JSON_parse :=
       fun content =>
         List.find (fun v => String.eqb (Sample.print v) content) documents;
     JSON_stringify := fun v _ => Sample.print v;
     Number_toString := Sample.number_text |}.

End Fixture.

(** ** Fragments that change the text *)

(** The test of the [forEach] of [reconstruct] in the HTML and Markdown
    parsers: the fragment has a non-empty [translatedText] different from
    its [originalText]. *)
Definition is_changed (t : Types.ExtractedText) : bool :=
  match HtmlParser.changed t with Some _ => true | None => false end.

(** ** Translation memory: what a lookup should answer *)

Module Memory.

(** The waiting time a log of [executeWithRetry] adds up to. *)
Definition total_delay (log : list DeepLService.event) : Z :=
  foldr Z.add 0%Z (DeepLService.delays log).

(** The translation the memory holds for a text and a language pair. *)
Definition stored (memory : gmap string DeepLService.TranslationMemoryEntry)
  (sourceLanguage targetLanguage text : string) : option string :=
  match
    memory !! DeepLService.getMemoryKey text sourceLanguage targetLanguage
  with
  | Some entry => DeepLService.translatedText entry
  | None => None
  end.

(** Every entry is filed under its own [id]. *)
Definition keyed (memory : gmap string DeepLService.TranslationMemoryEntry)
  : Prop :=
  forall key entry,
    memory !! key = Some entry -> DeepLService.id entry = key.

(** [importTranslationMemory(entries)] and the loop of
    [loadTranslationMemory], without the copy to [localStorage]:
    [entries.forEach(entry => this.translationMemory.set(entry.id, entry))]. *)
Definition importTranslationMemory
  (memory : gmap string DeepLService.TranslationMemoryEntry)
  (entries : list DeepLService.TranslationMemoryEntry)
  : gmap string DeepLService.TranslationMemoryEntry :=
  foldl (fun m entry => <[DeepLService.id entry := entry]> m) memory entries.

(** [clearTranslationMemory()] *)
Definition clearTranslationMemory
  (memory : gmap string DeepLService.TranslationMemoryEntry)
  : gmap string DeepLService.TranslationMemoryEntry := ∅.

(** [entries] is what [exportTranslationMemory()] can return: the values of
    the map, each once.  The order, in the source that of insertion, is left
    open. *)
Definition exported
  (memory : gmap string DeepLService.TranslationMemoryEntry)
  (entries : list DeepLService.TranslationMemoryEntry) : Prop :=
  entries ≡ₚ (map_to_list memory).*2.

End Memory.

(** ** Translation records ([types/index.ts]) *)

Module Translation.

Inductive TranslationStatus : Type :=
| PENDING | IN_PROGRESS | COMPLETED | FAILED | REVIEW_NEEDED | APPROVED.

Inductive TranslationProvider : Type := DEEPL | GOOGLE | MANUAL.

(** The string an enum member of [ContentType] stands for. *)
Definition ContentType_name (contentType : Types.ContentType) : string :=
  match contentType with
  | Types.PLAIN_TEXT => "PLAIN_TEXT"
  | Types.HTML => "HTML"
  | Types.MARKDOWN => "MARKDOWN"
  | Types.EDITOR_JS => "EDITOR_JS"
  | Types.GRAPE_JS => "GRAPE_JS"
  | Types.JSON => "JSON"
  | Types.RICH_TEXT => "RICH_TEXT"
  | Types.STRUCTURED_DATA => "STRUCTURED_DATA"
  end.

(** The string of [ExtractedText['type']]. *)
Definition TextType_name (type : Types.TextType) : string :=
  match type with
  | Types.text => "text"
  | Types.alt => "alt"
  | Types.title => "title"
  | Types.placeholder => "placeholder"
  | Types.meta => "meta"
  end.

(** [metadata.originalStructure]: what [analyzeStructure] returns, the
    parsed document or the object [{ type, length }]. *)
Inductive Structure : Type :=
| Parsed (document : json) : Structure
| Outline (type : Types.ContentType) (length : nat) : Structure.

(** [Translation['metadata']], with the [error] the record of a failed
    item carries. *)
Record Metadata : Type :=
  { m_contentType : string;
    entityId : string;
    field : string;
    originalStructure : option Structure;
    preserveFormatting : option bool;
    extractedTexts : option (list Types.ExtractedText);
    error : option string }.

(** [interface Translation] *)
Record t : Type :=
  { id : string;
    sourceText : string;
    translatedText : string;
    sourceLanguage : string;
    targetLanguage : string;
    context : string;
    status : TranslationStatus;
    provider : TranslationProvider;
    createdAt : string;
    updatedAt : string;
    contentType : Types.ContentType;
    metadata : option Metadata }.

End Translation.

(** [Omit<Translation, 'id' | 'createdAt' | 'updatedAt'>] *)
Module NewTranslation.

Record t : Type :=
  { sourceText : string;
    translatedText : string;
    sourceLanguage : string;
    targetLanguage : string;
    context : string;
    status : Translation.TranslationStatus;
    provider : Translation.TranslationProvider;
    contentType : Types.ContentType;
    metadata : option Translation.Metadata }.

End NewTranslation.

(** ** Translation API client ([translationService.ts]) *)

Module TranslationService.

(** [ApiResponse<Translation>], the body of a response. *)
Record ApiResponse : Type :=
  { success : bool;
    data : option Translation.t;
    error : option string }.

(** [createTranslation(translation)], given how the request
    [apiClient.post('/translations', translation)] settles: a rejection is
    passed on, a body without [success] throws its [error] or the default
    message, and otherwise the call resolves with [data], [undefined]
    ([None]) when the body has none. *)
Definition createTranslation
  (post : NewTranslation.t -> outcome string ApiResponse)
  (translation : NewTranslation.t) : outcome string (option Translation.t) :=
  match post translation with
  | Resolved response =>
      if negb (success response) then
        Rejected
          (JS.or_else (default "" (error response))
             "Failed to create translation")
      else Resolved (data response)
  | Rejected e => Rejected e
  end.

End TranslationService.

(** ** Structured content ([enhancedTranslationService.ts]) *)

Module StructuredContent.

(** The request [translateExtractedTexts] builds for one fragment. *)
Definition extracted_request
  (request : EnhancedTranslationService.TranslationRequest)
  : NewTranslation.t :=
  {| NewTranslation.sourceText :=
       EnhancedTranslationService.sourceText request;
     NewTranslation.translatedText :=
       EnhancedTranslationService.translatedText request;
     NewTranslation.sourceLanguage :=
       EnhancedTranslationService.sourceLanguage request;
     NewTranslation.targetLanguage :=
       EnhancedTranslationService.targetLanguage request;
     NewTranslation.context := EnhancedTranslationService.context request;
     NewTranslation.status := Translation.PENDING;
     NewTranslation.provider := Translation.DEEPL;
     NewTranslation.contentType := Types.PLAIN_TEXT;
     NewTranslation.metadata :=
       Some
         {| Translation.m_contentType := "extracted_text";
            Translation.entityId :=
              EnhancedTranslationService.metadata_entityId request;
            Translation.field :=
              Translation.TextType_name
                (EnhancedTranslationService.metadata_field request);
            Translation.originalStructure := None;
            Translation.preserveFormatting := None;
            Translation.extractedTexts := None;
            Translation.error := None |} |}.

(** The request of [createPlainTextTranslation]. *)
Definition plain_request (content sourceLanguage targetLanguage
  context : string) : NewTranslation.t :=
  {| NewTranslation.sourceText := content;
     NewTranslation.translatedText := "";
     NewTranslation.sourceLanguage := sourceLanguage;
     NewTranslation.targetLanguage := targetLanguage;
     NewTranslation.context := context;
     NewTranslation.status := Translation.PENDING;
     NewTranslation.provider := Translation.DEEPL;
     NewTranslation.contentType := Types.PLAIN_TEXT;
     NewTranslation.metadata :=
       Some
         {| Translation.m_contentType :=
              Translation.ContentType_name Types.PLAIN_TEXT;
            Translation.entityId := context;
            Translation.field := "content";
            Translation.originalStructure := None;
            Translation.preserveFormatting := None;
            Translation.extractedTexts := None;
            Translation.error := None |} |}.

(** [analyzeStructure(content, contentType)] *)
Definition analyzeStructure `{JsonApi} (content : string)
  (contentType : Types.ContentType) : Translation.Structure :=
  match contentType with
  | Types.EDITOR_JS | Types.GRAPE_JS | Types.JSON =>
      match JSON_parse content with
      | Some document => Translation.Parsed document
      | None => Translation.Outline contentType (JS.length content)
      end
  | _ => Translation.Outline contentType (JS.length content)
  end.

(** What one call reads from the platform: the identifier [generateId()]
    builds from the clock and the random generator, and the two readings
    [new Date().toISOString()] of the clock that follow. *)
Record Stamp : Type :=
  { generatedId : string; created : string; updated : string }.

Section Process.
Context `{JsonApi}.
(** The static [parsers] of the registry at the time of the call. *)
Variable registry : list ContentParser.t.
(** [apiClient.post('/translations', request)] for the request number [n]
    of the call. *)
Variable post : nat -> NewTranslation.t
                -> outcome string TranslationService.ApiResponse.
(** The order in which the promises of the batch starting at a given index
    settle. *)
Variable schedule : nat -> list nat.

(** [translationService.createTranslation] as [translateExtractedTexts]
    uses it: the [translatedText] of the record the call resolves with. *)
Definition createTranslation (n : nat)
  (request : EnhancedTranslationService.TranslationRequest)
  : outcome string (option string) :=
  match
    TranslationService.createTranslation (post n) (extracted_request request)
  with
  | Resolved (Some translation) =>
      Resolved (Some (Translation.translatedText translation))
  | Resolved None => Resolved None
  | Rejected e => Rejected e
  end.

Definition createPlainTextTranslation (content sourceLanguage
  targetLanguage context : string) : outcome string (option Translation.t) :=
  TranslationService.createTranslation (post 0)
    (plain_request content sourceLanguage targetLanguage context).

(** [processStructuredContent]: how the call settles, [None] when it never
    does. *)
Definition processStructuredContent (stamp : Stamp) (content sourceLanguage
  targetLanguage context : string) (contentType : option Types.ContentType)
  : option (outcome string (option Translation.t)) :=
  let parser :=
    match contentType with
    | Some requested =>
        ContentParserFactory.getParserByType_in registry requested
    | None => ContentParserFactory.getParser_in registry content
    end in
  match parser with
  | None =>
      Some
        (createPlainTextTranslation content sourceLanguage targetLanguage
           context)
  | Some parser =>
      let extractedTexts := ContentParser.parse parser content in
      if (List.length extractedTexts =? 0)%nat then
        Some
          (createPlainTextTranslation content sourceLanguage targetLanguage
             context)
      else
        match
          EnhancedTranslationService.translateExtractedTexts
            createTranslation schedule extractedTexts sourceLanguage
            targetLanguage
        with
        | None => None
        | Some (Rejected e) => Some (Rejected e)
        | Some (Resolved (translatedTexts, _)) =>
            let translatedContent :=
              ContentParser.reconstruct parser content translatedTexts in
            Some
              (Resolved
                 (Some
                    {| Translation.id := generatedId stamp;
                       Translation.sourceText := content;
                       Translation.translatedText := translatedContent;
                       Translation.sourceLanguage := sourceLanguage;
                       Translation.targetLanguage := targetLanguage;
                       Translation.context := context;
                       Translation.status := Translation.COMPLETED;
                       Translation.provider := Translation.DEEPL;
                       Translation.createdAt := created stamp;
                       Translation.updatedAt := updated stamp;
                       Translation.contentType := ContentParser.type parser;
                       Translation.metadata :=
                         Some
                           {| Translation.m_contentType :=
                                Translation.ContentType_name
                                  (ContentParser.type parser);
                              Translation.entityId := context;
                              Translation.field := "content";
                              Translation.originalStructure :=
                                Some
                                  (analyzeStructure content
                                     (ContentParser.type parser));
                              Translation.preserveFormatting := Some true;
                              Translation.extractedTexts :=
                                Some translatedTexts;
                              Translation.error := None |} |}))
        end
  end.

End Process.

(** One element of [contentItems]. *)
Record ContentItem : Type :=
  { content : string;
    item_context : string;
    item_contentType : option Types.ContentType }.

(** The record pushed for an item whose processing threw. *)
Definition failed_record (stamp : Stamp) (item : ContentItem)
  (sourceLanguage targetLanguage message : string) : Translation.t :=
  let contentType := default Types.PLAIN_TEXT (item_contentType item) in
  {| Translation.id := generatedId stamp;
     Translation.sourceText := content item;
     Translation.translatedText := "";
     Translation.sourceLanguage := sourceLanguage;
     Translation.targetLanguage := targetLanguage;
     Translation.context := item_context item;
     Translation.status := Translation.FAILED;
     Translation.provider := Translation.DEEPL;
     Translation.createdAt := created stamp;
     Translation.updatedAt := updated stamp;
     Translation.contentType := contentType;
     Translation.metadata :=
       Some
         {| Translation.m_contentType :=
              Translation.ContentType_name contentType;
            Translation.entityId := item_context item;
            Translation.field := "content";
            Translation.originalStructure := None;
            Translation.preserveFormatting := None;
            Translation.extractedTexts := None;
            Translation.error := Some message |} |}.

Section Bulk.
Context `{JsonApi}.
Variable registry : list ContentParser.t.
(** The platform, the backend and the settling order, for the
    [processStructuredContent] call number [call] of the bulk run. *)
Variable stamps : nat -> Stamp.
Variable post : nat -> nat -> NewTranslation.t
                -> outcome string TranslationService.ApiResponse.
Variable schedule : nat -> nat -> list nat.

(** The body of the inner loop, as call number [call]: the element it
    pushes onto [results]; [None] when the call never settles. *)
Definition processItem (call : nat) (item : ContentItem)
  (sourceLanguage targetLanguage : string)
  : option (option Translation.t) :=
  match
    processStructuredContent registry (post call) (schedule call)
      (stamps call) (content item) sourceLanguage targetLanguage
      (item_context item) (item_contentType item)
  with
  | None => None
  | Some (Resolved translation) => Some translation
  | Some (Rejected message) =>
      Some
        (Some
           (failed_record (stamps call) item sourceLanguage targetLanguage
              message))
  end.

(** [for (const targetLanguage of targetLanguages)] for one item, from call
    number [call] on, with the [results] so far. *)
Fixpoint forLanguages (item : ContentItem) (sourceLanguage : string)
  (targetLanguages : list string) (call : nat)
  (results : list (option Translation.t))
  : option (nat * list (option Translation.t)) :=
  match targetLanguages with
  | [] => Some (call, results)
  | targetLanguage :: tl =>
      match processItem call item sourceLanguage targetLanguage with
      | Some pushed =>
          forLanguages item sourceLanguage tl (S call) (results ++ [pushed])
      | None => None
      end
  end.

(** [for (const item of contentItems)] *)
Fixpoint forItems (contentItems : list ContentItem) (sourceLanguage : string)
  (targetLanguages : list string) (call : nat)
  (results : list (option Translation.t))
  : option (nat * list (option Translation.t)) :=
  match contentItems with
  | [] => Some (call, results)
  | item :: tl =>
      match forLanguages item sourceLanguage targetLanguages call results with
      | Some (call', results') =>
          forItems tl sourceLanguage targetLanguages call' results'
      | None => None
      end
  end.

(** [bulkProcessContent]: the list it resolves with, [None] when it never
    settles. *)
Definition bulkProcessContent (contentItems : list ContentItem)
  (sourceLanguage : string) (targetLanguages : list string)
  : option (list (option Translation.t)) :=
  match forItems contentItems sourceLanguage targetLanguages 0 [] with
  | Some (_, results) => Some results
  | None => None
  end.

End Bulk.

(** [issues.push(issue); suggestions.push(suggestion)] under a test. *)
Definition report (test : bool) (issue suggestion : string)
  (found : list string * list string) : list string * list string :=
  if test then (fst found ++ [issue], snd found ++ [suggestion]) else found.

(** The truthiness of [translation.metadata?.originalStructure]. *)
Definition has_structure (translation : Translation.t) : bool :=
  match Translation.metadata translation with
  | Some metadata =>
      match Translation.originalStructure metadata with
      | Some (Translation.Parsed document) => Value.truthy (Some document)
      | Some (Translation.Outline _ _) => true
      | None => false
      end
  | None => false
  end.

(** [validateTranslation(translation)]: [isValid], [issues] and
    [suggestions]. *)
Definition validateTranslation (registry : list ContentParser.t)
  (translation : Translation.t) : bool * list string * list string :=
  let translatedText := Translation.translatedText translation in
  let sourceText := Translation.sourceText translation in
  let found1 :=
    if has_structure translation then
      match
        ContentParserFactory.getParserByType_in registry
          (Translation.contentType translation)
      with
      | Some parser =>
          let found :=
            report (negb (ContentParser.validate parser translatedText))
              ("Translated content doesn't maintain "
                 +:+ Translation.ContentType_name
                       (Translation.contentType translation)
                 +:+ " structure")
              "Review the translation to ensure proper formatting is preserved"
              ([], []) in
          let originalTexts := ContentParser.parse parser sourceText in
          let translatedTexts := ContentParser.parse parser translatedText in
          report
            (negb
               (List.length originalTexts =? List.length translatedTexts)%nat)
            "Number of translatable elements changed during translation"
            "Verify that all text elements are properly translated" found
      | None => ([], [])
      end
    else ([], []) in
  let found2 :=
    report (String.eqb translatedText sourceText)
      "Translation appears to be identical to source text"
      "Verify that translation was actually performed" found1 in
  let found3 :=
    report (JS.length translatedText =? 0)%nat "Translation is empty"
      "Ensure translation service is working correctly" found2 in
  ((List.length (fst found3) =? 0)%nat, fst found3, snd found3).

End StructuredContent.

(** ** Content the pipeline treats as plain text *)

Module Fallback.

(** With the built-in parsers: the requested type has no parser, or the
    content is not of the structural type requested, or, no type being
    requested, no detector accepts the content. *)
Definition applies `{JsonApi} (contentType : option Types.ContentType)
  (content : string) : Prop :=
  match contentType with
  | Some Types.PLAIN_TEXT | Some Types.RICH_TEXT
  | Some Types.STRUCTURED_DATA => True
  | Some Types.EDITOR_JS => EditorJSParser.validate content = false
  | Some Types.GRAPE_JS => GrapeJSParser.validate content = false
  | Some Types.JSON => JsonParser.validate content = false
  | Some Types.HTML | Some Types.MARKDOWN => False
  | None =>
      JSON_parse content = None
      /\ HtmlParser.validate content = false
      /\ MarkdownParser.validate content = false
  end.

(** Every promise of every batch settles. *)
Definition all_settle (schedule : nat -> list nat) : Prop :=
  forall i j, (j < EnhancedTranslationService.batchSize)%nat -> j ∈ schedule i.

(** The batches settle first to last. *)
Definition in_order (i : nat) : list nat :=
  seq 0 EnhancedTranslationService.batchSize.

(** A backend no request reaches. *)
Definition unreachable (n : nat) (request : NewTranslation.t)
  : outcome string TranslationService.ApiResponse :=
  Rejected "Network Error".

Definition stamp : StructuredContent.Stamp :=
  {| StructuredContent.generatedId := "trans_1704067200000_k3j9x2m1q";
     StructuredContent.created := "2024-01-01T00:00:00.000Z";
     StructuredContent.updated := "2024-01-01T00:00:00.001Z" |}.

End Fallback.


(** ** A record to review *)

Module Review.

(** A translated plain text. *)
Definition greeting : Translation.t :=
  {| Translation.id := "trans_1704067200000_k3j9x2m1q";
     Translation.sourceText := "Hello";
     Translation.translatedText := "Hallo";
     Translation.sourceLanguage := "en";
     Translation.targetLanguage := "de";
     Translation.context := "page:1";
     Translation.status := Translation.COMPLETED;
     Translation.provider := Translation.DEEPL;
     Translation.createdAt := "2024-01-01T00:00:00.000Z";
     Translation.updatedAt := "2024-01-01T00:00:00.001Z";
     Translation.contentType := Types.PLAIN_TEXT;
     Translation.metadata := None |}.

End Review.

(** ** Batches ([deeplService.ts], [types/saleor.ts]) *)

Module Batch.

(** [enum TranslationStatusEnum] *)
Inductive TranslationStatusEnum : Type :=
| PENDING | IN_PROGRESS | COMPLETED | FAILED | REVIEW_NEEDED | CACHED
| MANUAL_OVERRIDE.

(** [interface TranslationBatch]; an element of [results] is [None] where
    [translateText] left the position [undefined]. *)
Record TranslationBatch : Type :=
  { id : string;
    texts : list string;
    sourceLanguage : string;
    targetLanguage : string;
    status : TranslationStatusEnum;
    results : option (list (option string));
    errors : option (list string);
    createdAt : string;
    completedAt : option string;
    retryCount : Z }.

(** The adapter's state: what [translateText] reads and writes, the map
    [activeBatches], and the arguments of the calls of [delay] that
    [translateBatch] made, in milliseconds. *)
Record state : Type :=
  { service : DeepLService.state;
    activeBatches : gmap string TranslationBatch;
    waited : list Q }.

(** [{ ...batch, status: TranslationStatusEnum.IN_PROGRESS }] *)
Definition in_progress (batch : TranslationBatch) : TranslationBatch :=
  {| id := id batch; texts := texts batch;
     sourceLanguage := sourceLanguage batch;
     targetLanguage := targetLanguage batch;
     status := IN_PROGRESS;
     results := results batch; errors := errors batch;
     createdAt := createdAt batch; completedAt := completedAt batch;
     retryCount := retryCount batch |}.

(** [completedBatch] *)
Definition completed (batch : TranslationBatch)
  (translated : list (option string)) (now : string) : TranslationBatch :=
  {| id := id batch; texts := texts batch;
     sourceLanguage := sourceLanguage batch;
     targetLanguage := targetLanguage batch;
     status := COMPLETED;
     results := Some translated; errors := errors batch;
     createdAt := createdAt batch; completedAt := Some now;
     retryCount := retryCount batch |}.

(** [failedBatch] *)
Definition failed (batch : TranslationBatch) (message : string)
  : TranslationBatch :=
  {| id := id batch; texts := texts batch;
     sourceLanguage := sourceLanguage batch;
     targetLanguage := targetLanguage batch;
     status := FAILED;
     results := results batch; errors := Some [message];
     createdAt := createdAt batch; completedAt := completedAt batch;
     retryCount := (retryCount batch + 1)%Z |}.

Section TranslateBatch.
Variable config : DeepLService.DeepLConfig.
Variable post :
  nat -> DeepLService.DeepLTranslationRequest
  -> outcome DeepLService.Error (list DeepLService.Translated).
(** The clock as invocation number [call] of [translateBatch] reads it:
    inside [translateText], and for [completedAt]. *)
Variable now : nat -> string.
Variable completion : nat -> string.
(** The message the engine gives a [TypeError]. *)
Variable typeErrorMessage : string.

(** [error instanceof Error ? error.message : 'Unknown error'] *)
Definition message_of (error : option DeepLService.Error) : string :=
  match error with
  | Some (DeepLService.MkError message) => message
  | Some DeepLService.TypeError => typeErrorMessage
  | None => "Unknown error"
  end.

(** [translateBatch(batch)] as invocation number [call], the recursive
    call being invocation [call + 1]: the state afterwards and how the
    call settles; [None] when [fuel] nested calls do not suffice. *)
Fixpoint translateBatch_from (fuel call : nat) (st : state)
  (batch : TranslationBatch)
  : option (state * outcome (option DeepLService.Error) TranslationBatch) :=
  let active :=
    <[id batch := in_progress batch]> (activeBatches st) in
  let '(service', settled) :=
    DeepLService.translateText config post (now call) (service st)
      (texts batch) (targetLanguage batch) (Some (sourceLanguage batch)) in
  match settled with
  | Resolved translated =>
      let completedBatch := completed batch translated (completion call) in
      Some
        ({| service := service';
            activeBatches := <[id batch := completedBatch]> active;
            waited := waited st |},
         Resolved completedBatch)
  | Rejected error =>
      let failedBatch := failed batch (message_of error) in
      let active' := <[id batch := failedBatch]> active in
      if (retryCount failedBatch <? DeepLService.maxRetries config)%Z then
        match fuel with
        | O => None
        | S fuel' =>
            translateBatch_from fuel' (S call)
              {| service := service';
                 activeBatches := active';
                 waited :=
                   waited st
                     ++ [(inject_Z (DeepLService.retryDelay config)
                          * 2 ^ retryCount failedBatch)%Q] |}
              failedBatch
        end
      else
        Some
          ({| service := service'; activeBatches := active';
              waited := waited st |},
           Rejected error)
  end.

(** A nested call is made only while [retryCount + 1 < maxRetries], so
    [maxRetries - retryCount] nested calls suffice. *)
Definition translateBatch (st : state) (batch : TranslationBatch)
  : option (state * outcome (option DeepLService.Error) TranslationBatch) :=
  translateBatch_from
    (Z.to_nat (DeepLService.maxRetries config - retryCount batch)) O st batch.

(** [getBatchStatus(batchId)] *)
Definition getBatchStatus (st : state) (batchId : string)
  : option TranslationBatch :=
  activeBatches st !! batchId.

End TranslateBatch.

(** A backend no request reaches. *)
Definition unreachable (n : nat)
  (request : DeepLService.DeepLTranslationRequest)
  : outcome DeepLService.Error (list DeepLService.Translated) :=
  Rejected (DeepLService.MkError "Network error: timeout").

(** A backend that fails on its first four requests and then upper-cases
    every text. *)
Definition recovering (n : nat)
  (request : DeepLService.DeepLTranslationRequest)
  : outcome DeepLService.Error (list DeepLService.Translated) :=
  if (n <? 4)%nat then unreachable n request
  else CacheExamples.shouting_post n request.

Definition fresh : state :=
  {| service := CacheExamples.fresh; activeBatches := ∅; waited := [] |}.

Definition greeting : TranslationBatch :=
  {| id := "batch-1"; texts := ["Hello"]; sourceLanguage := "EN";
     targetLanguage := "DE"; status := PENDING; results := None;
     errors := None; createdAt := "2024-01-01T00:00:00.000Z";
     completedAt := None; retryCount := 0 |}.

End Batch.

(** ** Statistics ([deeplService.ts]) *)

Module Statistics.

(** [dist[key] || 0] on the object [dist]: a key [source-target] holds a
    hyphen, so it names no inherited property and an absent key reads
    [undefined]. *)
Definition count_or_zero (dist : gmap string Z) (key : string) : Z :=
  match dist !! key with
  | Some n => if (n =? 0)%Z then 0%Z else n
  | None => 0%Z
  end.

(** The key of an entry in [languageDistribution]. *)
Definition pair_key (entry : DeepLService.TranslationMemoryEntry) : string :=
  DeepLService.sourceLanguage entry +:+ "-"
    +:+ DeepLService.targetLanguage entry.

(** [languageDistribution] of [getTranslationStatistics], from
    [memoryEntries = Array.from(this.translationMemory.values())]. *)
Definition languageDistribution
  (memoryEntries : list DeepLService.TranslationMemoryEntry)
  : gmap string Z :=
  foldl
    (fun dist entry =>
       <[pair_key entry := (count_or_zero dist (pair_key entry) + 1)%Z]> dist)
    ∅ memoryEntries.

(** [totalTranslations] *)
Definition totalTranslations
  (memoryEntries : list DeepLService.TranslationMemoryEntry) : Z :=
  Z.of_nat (List.length memoryEntries).

(** The sum of the counts of a distribution. *)
Definition total (dist : gmap string Z) : Z :=
  map_fold (fun _ n sum => (n + sum)%Z) 0%Z dist.

(** The number of entries of a language pair. *)
Definition entries_of (key : string)
  (memoryEntries : list DeepLService.TranslationMemoryEntry) : Z :=
  Z.of_nat
    (List.length
       (List.filter (fun entry => String.eqb (pair_key entry) key)
          memoryEntries)).

End Statistics.

(** * Properties *)

(** ** Textual-content filter and code fences *)

(** While the fenced-code-block state is active, a line adds no fragment. *)
Lemma step_in_code_block (st : MarkdownParser.state) (lineIndex : nat)
  (line : string) :
  MarkdownParser.inCodeBlock st = true ->
  MarkdownParser.extractedTexts (MarkdownParser.step st lineIndex line)
  = MarkdownParser.extractedTexts st.
Proof.
  intros Hin. unfold MarkdownParser.step. rewrite Hin. simpl.
  destruct (JS.startsWith (JS.trim line) "```"); [|reflexivity].
  destruct (_ || _); reflexivity.
Qed.

(** A string the filter rejects yields no fragment as a JSON leaf. *)
Lemma rejected_leaf_no_fragment (s path context : string) :
  JsonParser.isTextualContent s = false ->
  JsonParser.extractFromObject (JStr s) path context = [].
Proof. intros Hs. simpl. rewrite Hs. reflexivity. Qed.

(** C9. Parsing the Markdown document made of the header line [# Title], a
    code fence, the line [# not a header], the closing fence and a final
    line break yields exactly one fragment, the header [Title] of line 0;
    the document splits into five lines, the fence opened on line 1 is
    active when line 2 is read, and the same line outside a fence would
    have produced a header fragment. *)
Theorem markdown_code_fence_exclusion :
  MarkdownParser.parse Sample.fenced_markdown
  = [ {| Types.id := "line_0_header"; Types.originalText := "Title";
         Types.translatedText := None; Types.path := "line_0_header";
         Types.context := "H1 header"; Types.type := Types.text |} ]
  /\ JS.split (ascii_of_nat 10) Sample.fenced_markdown
     = ["# Title"; "```"; "# not a header"; "```"; ""]
  /\ MarkdownParser.inCodeBlock
       (MarkdownParser.forEach_from
          {| MarkdownParser.inCodeBlock := false;
             MarkdownParser.codeBlockFence := "";
             MarkdownParser.extractedTexts := [] |} 0
          ["# Title"; "```"]) = true
  /\ List.length (MarkdownParser.extractHeaders "# not a header" 2) = 1%nat.
Proof. repeat split; vm_compute; reflexivity. Qed.

(** C10. The filter of the generic JSON parser rejects the URL, the email
    address, the hex-like identifier, the empty string and the two-letter
    string, and accepts the product name; a document holding all six as
    string leaves yields one fragment, for the product name. *)
Theorem json_filter_correctness :
  JsonParser.isTextualContent "https://example.com" = false
  /\ JsonParser.isTextualContent "a@b.com" = false
  /\ JsonParser.isTextualContent "3f9a1c2d" = false
  /\ JsonParser.isTextualContent "" = false
  /\ JsonParser.isTextualContent "Hi" = false
  /\ JsonParser.isTextualContent "Premium Wireless Headphones" = true
  /\ JsonParser.extractFromObject
       (JObj [("url", JStr "https://example.com");
              ("contacts", JArr [JStr "a@b.com"; JStr "3f9a1c2d"]);
              ("note", JStr ""); ("greeting", JStr "Hi");
              ("name", JStr "Premium Wireless Headphones")]) "" "JSON"
     = [ {| Types.id := "name";
            Types.originalText := "Premium Wireless Headphones";
            Types.translatedText := None; Types.path := "name";
            Types.context := "JSON name"; Types.type := Types.text |} ].
Proof. repeat split; vm_compute; reflexivity. Qed.

(** ** Reconstruction of content that does not parse *)

(** C8. When [JSON.parse] throws on the original content, [reconstruct] of
    the JSON, Editor.js and GrapeJS parsers returns the original content
    unmodified, for every fragment list. *)
Theorem reconstruct_unparsable_content `{JsonApi} (content : string)
  (translations : list Types.ExtractedText) :
  JSON_parse content = None ->
  JsonParser.reconstruct content translations = content
  /\ EditorJSParser.reconstruct content translations = content
  /\ GrapeJSParser.reconstruct content translations = content.
Proof.
  intros Hparse.
  unfold JsonParser.reconstruct, EditorJSParser.reconstruct,
    GrapeJSParser.reconstruct.
  rewrite Hparse. repeat split.
Qed.

Lemma reconstruct_unparsable_content_witness :
  JSON_parse "{ blocks: [ " = None
  /\ JsonParser.reconstruct "{ blocks: [ " [] = "{ blocks: [ "
  /\ EditorJSParser.reconstruct "{ blocks: [ " [] = "{ blocks: [ "
  /\ GrapeJSParser.reconstruct "{ blocks: [ " [] = "{ blocks: [ ".
Proof.
  split; [reflexivity|].
  apply (reconstruct_unparsable_content "{ blocks: [ " []). reflexivity.
Defined.

(** Content the Editor.js detector rejects comes back unmodified as well:
    reading [blocks] or iterating it throws inside the [try]. *)
Lemma editorjs_reconstruct_rejected_content `{JsonApi} (content : string)
  (translations : list Types.ExtractedText) :
  EditorJSParser.validate content = false ->
  EditorJSParser.reconstruct content translations = content.
Proof.
  unfold EditorJSParser.validate, EditorJSParser.reconstruct,
    EditorJSParser.reconstructContent.
  destruct (JSON_parse content) as [parsed|]; [|reflexivity].
  destruct (Value.prop (Some parsed) "blocks") as [blocks|] eqn:Hb;
    simpl; [|reflexivity].
  destruct blocks as [[ | | | | l | ]|]; simpl; try reflexivity.
  rewrite andb_true_r. intros Ht.
  destruct parsed; simpl in *; try discriminate.
Qed.

(** ** Detection order *)

(** C2. On content the Editor.js detector or the GrapeJS detector accepts,
    [getParser] returns the Editor.js parser when its detector accepts and
    the GrapeJS parser otherwise; the parser returned accepts the content
    and is not the generic JSON parser. *)
Theorem getParser_structural_first `{JsonApi} `{DomApi} (content : string) :
  EditorJSParser.validate content || GrapeJSParser.validate content = true ->
  exists parser,
    ContentParserFactory.getParser content = Some parser
    /\ parser = (if EditorJSParser.validate content
                 then ContentParserFactory.editorJSParser
                 else ContentParserFactory.grapeJSParser)
    /\ ContentParser.validate parser content = true
    /\ ContentParser.type parser <> Types.JSON.
Proof.
  intros Hv.
  unfold ContentParserFactory.getParser, ContentParserFactory.getParser_in,
    ContentParserFactory.parsers.
  simpl.
  destruct (EditorJSParser.validate content) eqn:He.
  - eexists; repeat split; [exact He | discriminate].
  - simpl in Hv. rewrite Hv.
    eexists; repeat split; [exact Hv | discriminate].
Qed.

Lemma getParser_structural_first_witness :
  EditorJSParser.validate (Sample.print Sample.page_grape) = false
  /\ GrapeJSParser.validate (Sample.print Sample.page_grape) = true
  /\ exists parser,
       ContentParserFactory.getParser (Sample.print Sample.page_grape)
       = Some parser
       /\ parser = (if EditorJSParser.validate (Sample.print Sample.page_grape)
                    then ContentParserFactory.editorJSParser
                    else ContentParserFactory.grapeJSParser)
       /\ ContentParser.validate parser (Sample.print Sample.page_grape) = true
       /\ ContentParser.type parser <> Types.JSON.
Proof.
  split; [vm_compute; reflexivity|].
  split; [vm_compute; reflexivity|].
  apply (getParser_structural_first (Sample.print Sample.page_grape)).
  vm_compute. reflexivity.
Defined.

(** Parsers registered later come after the built-in ones and do not change
    the answer on such content. *)
Lemma getParser_after_registerParser `{JsonApi} `{DomApi}
  (extra : list ContentParser.t) (content : string) :
  EditorJSParser.validate content || GrapeJSParser.validate content = true ->
  ContentParserFactory.getParser_in
    (foldl ContentParserFactory.registerParser ContentParserFactory.parsers
       extra) content
  = ContentParserFactory.getParser content.
Proof.
  intros Hv.
  assert (Hfold : forall l,
    foldl ContentParserFactory.registerParser l extra = l ++ extra).
  { induction extra as [|x extra IH]; intros l; simpl.
    - symmetry. apply app_nil_r.
    - unfold ContentParserFactory.registerParser at 2.
      rewrite IH, <- app_assoc. reflexivity. }
  rewrite Hfold.
  unfold ContentParserFactory.getParser, ContentParserFactory.getParser_in,
    ContentParserFactory.parsers.
  simpl.
  destruct (EditorJSParser.validate content); [reflexivity|].
  simpl in Hv. rewrite Hv. reflexivity.
Qed.

(** ** Retry *)

Lemma attempts_success {T : Type} (config : DeepLService.DeepLConfig)
  (operation : nat -> outcome DeepLService.Error T) (k : nat) (v : T) :
  forall (remaining start : nat) (lastError : option DeepLService.Error),
    (k < remaining)%nat ->
    (Z.of_nat (start + k) <= DeepLService.maxRetries config)%Z ->
    (forall a, (a < k)%nat -> exists e, operation (start + a)%nat = Rejected e) ->
    operation (start + k)%nat = Resolved v ->
    DeepLService.attempts config operation remaining start lastError
    = (ErrorKinds.failed_attempts config start k
         ++ [DeepLService.Invoke (start + k)], Resolved v).
Proof.
  induction k as [|k IH]; intros remaining start lastError Hrem Hmax Hfail Hok.
  - destruct remaining as [|remaining]; [lia|].
    simpl. rewrite Nat.add_0_r in Hok. rewrite Hok.
    rewrite Nat.add_0_r. reflexivity.
  - destruct remaining as [|remaining]; [lia|].
    destruct (Hfail 0%nat) as [e He]; [lia|].
    rewrite Nat.add_0_r in He. simpl. rewrite He.
    rewrite (IH remaining (S start) (Some e)).
    + assert (Hlt : (Z.of_nat start <? DeepLService.maxRetries config)%Z = true)
        by (apply Z.ltb_lt; lia).
      rewrite Hlt. unfold ErrorKinds.failed_attempts. simpl.
      replace (start + S k)%nat with (S (start + k)) by lia. reflexivity.
    + lia.
    + replace (S start + k)%nat with (start + S k)%nat by lia. exact Hmax.
    + intros a Ha. replace (S start + a)%nat with (start + S a)%nat by lia.
      apply Hfail. lia.
    + replace (S start + k)%nat with (start + S k)%nat by lia. exact Hok.
Qed.

Lemma attempts_exhausted {T : Type} (config : DeepLService.DeepLConfig)
  (operation : nat -> outcome DeepLService.Error T) (e : DeepLService.Error) :
  forall (k start : nat) (lastError : option DeepLService.Error),
    Z.of_nat (start + k) = DeepLService.maxRetries config ->
    (forall a, (a < k)%nat -> exists e', operation (start + a)%nat = Rejected e') ->
    operation (start + k)%nat = Rejected e ->
    DeepLService.attempts (T := T) config operation (S k) start lastError
    = (ErrorKinds.failed_attempts config start k
         ++ [DeepLService.Invoke (start + k)], Rejected (Some e)).
Proof.
  induction k as [|k IH]; intros start lastError Hmax Hfail Hlast.
  - rewrite Nat.add_0_r in *. simpl. rewrite Hlast.
    assert (Hlt : (Z.of_nat start <? DeepLService.maxRetries config)%Z = false)
      by (apply Z.ltb_ge; lia).
    rewrite Hlt. reflexivity.
  - destruct (Hfail 0%nat) as [e' He']; [lia|].
    rewrite Nat.add_0_r in He'.
    change (DeepLService.attempts config operation (S (S k)) start lastError)
      with (match operation start with
            | Resolved v => ([DeepLService.Invoke start], Resolved v)
            | Rejected error =>
                let '(log, r) :=
                  DeepLService.attempts config operation (S k) (S start)
                    (Some error) in
                (DeepLService.Invoke start
                   :: (if (Z.of_nat start <? DeepLService.maxRetries config)%Z
                       then [DeepLService.Delay
                               (DeepLService.retryDelay config
                                * 2 ^ Z.of_nat start)]
                       else [])
                   ++ log, r)
            end).
    rewrite He'. rewrite (IH (S start) (Some e')).
    + assert (Hlt : (Z.of_nat start <? DeepLService.maxRetries config)%Z = true)
        by (apply Z.ltb_lt; lia).
      rewrite Hlt. unfold ErrorKinds.failed_attempts. simpl.
      replace (start + S k)%nat with (S (start + k)) by lia. reflexivity.
    + rewrite <- Hmax. f_equal. lia.
    + intros a Ha. replace (S start + a)%nat with (start + S a)%nat by lia.
      apply Hfail. lia.
    + replace (S start + k)%nat with (start + S k)%nat by lia. exact Hlast.
Qed.

Lemma invocations_failed_attempts (config : DeepLService.DeepLConfig)
  (k start : nat) (log : list DeepLService.event) :
  DeepLService.invocations (ErrorKinds.failed_attempts config start k ++ log)
  = (k + DeepLService.invocations log)%nat.
Proof.
  revert start. induction k as [|k IH]; intros start; [reflexivity|].
  unfold ErrorKinds.failed_attempts, DeepLService.invocations in *.
  simpl. f_equal. apply IH.
Qed.

Lemma delays_failed_attempts (config : DeepLService.DeepLConfig)
  (k start : nat) (log : list DeepLService.event) :
  DeepLService.delays (ErrorKinds.failed_attempts config start k ++ log)
  = map (fun a => (DeepLService.retryDelay config * 2 ^ Z.of_nat a)%Z)
      (seq start k) ++ DeepLService.delays log.
Proof.
  revert start. induction k as [|k IH]; intros start; [reflexivity|].
  unfold ErrorKinds.failed_attempts, DeepLService.delays in *.
  simpl. f_equal. apply IH.
Qed.

(** C5 (as amended). [executeWithRetry] retries after every failure,
    whatever its kind: when the first [k <= maxRetries] attempts fail and
    attempt [k] succeeds, the operation is invoked [k + 1] times, each
    failed attempt [a] is followed by a delay of [retryDelay * 2^a], and the
    call resolves with the value of attempt [k]; when all [maxRetries + 1]
    attempts fail, it is invoked [maxRetries + 1] times, with a delay after
    each attempt but the last, and the call throws the last error. *)
Theorem executeWithRetry_retries_every_failure {T : Type}
  (config : DeepLService.DeepLConfig)
  (operation : nat -> outcome DeepLService.Error T) (k : nat) :
  (Z.of_nat k <= DeepLService.maxRetries config)%Z ->
  (forall a, (a < k)%nat -> exists e, operation a = Rejected e) ->
  (forall v, operation k = Resolved v ->
     DeepLService.executeWithRetry config operation
     = (ErrorKinds.failed_attempts config 0 k ++ [DeepLService.Invoke k],
        Resolved v))
  /\ (forall e, operation k = Rejected e ->
        Z.of_nat k = DeepLService.maxRetries config ->
        DeepLService.executeWithRetry config operation
        = (ErrorKinds.failed_attempts config 0 k ++ [DeepLService.Invoke k],
           Rejected (Some e)))
  /\ DeepLService.invocations
       (ErrorKinds.failed_attempts config 0 k ++ [DeepLService.Invoke k])
     = S k
  /\ DeepLService.delays
       (ErrorKinds.failed_attempts config 0 k ++ [DeepLService.Invoke k])
     = map (fun a => (DeepLService.retryDelay config * 2 ^ Z.of_nat a)%Z)
         (seq 0 k).
Proof.
  intros Hk Hfail. unfold DeepLService.executeWithRetry.
  split; [|split; [|split]].
  - intros v Hv.
    apply (attempts_success config operation k v _ 0%nat None);
      [lia | simpl; lia | exact Hfail | exact Hv].
  - intros e He Hmax.
    replace (Z.to_nat (DeepLService.maxRetries config + 1)) with (S k) by lia.
    apply (attempts_exhausted config operation e k 0%nat None);
      [simpl; lia | exact Hfail | exact He].
  - rewrite invocations_failed_attempts.
    change (DeepLService.invocations [DeepLService.Invoke k]) with 1%nat. lia.
  - rewrite delays_failed_attempts.
    change (DeepLService.delays [DeepLService.Invoke k]) with (@nil Z).
    apply app_nil_r.
Qed.

Lemma executeWithRetry_retries_every_failure_witness :
  (Z.of_nat 2 <= DeepLService.maxRetries ErrorKinds.three_retries)%Z
  /\ (forall a, (a < 2)%nat ->
        exists e, RetryExamples.third_time_lucky a = Rejected e)
  /\ DeepLService.executeWithRetry ErrorKinds.three_retries
       RetryExamples.third_time_lucky
     = (ErrorKinds.failed_attempts ErrorKinds.three_retries 0 2
          ++ [DeepLService.Invoke 2], Resolved tt).
Proof.
  assert (H1 : (Z.of_nat 2 <= DeepLService.maxRetries ErrorKinds.three_retries)%Z)
    by (vm_compute; discriminate).
  assert (H2 : forall a, (a < 2)%nat ->
                 exists e, RetryExamples.third_time_lucky a = Rejected e).
  { intros [|[|a]] Ha; [eexists; reflexivity | eexists; reflexivity | lia]. }
  split; [exact H1|]. split; [exact H2|].
  apply (proj1
           (executeWithRetry_retries_every_failure ErrorKinds.three_retries
              RetryExamples.third_time_lucky 2 H1 H2)).
  reflexivity.
Defined.

(** C5 (as stated) fails: a request the server answers with status 400, a
    Bad Request, which is not a transient kind, is sent again after each
    failure; with [maxRetries = 3] the operation is invoked four times, with
    delays of 1000, 2000 and 4000 ms, before the error reaches the caller. *)
Lemma retry_bad_request_counterexample :
  ErrorKinds.transient (ErrorKinds.kind_of ErrorKinds.bad_request) = false
  /\ DeepLService.executeWithRetry ErrorKinds.three_retries
       RetryExamples.always_bad_request
     = ([DeepLService.Invoke 0; DeepLService.Delay 1000;
         DeepLService.Invoke 1; DeepLService.Delay 2000;
         DeepLService.Invoke 2; DeepLService.Delay 4000;
         DeepLService.Invoke 3],
        Rejected
          (Some (DeepLService.MkError "Bad Request: Invalid parameters")))
  /\ DeepLService.invocations
       (fst (DeepLService.executeWithRetry ErrorKinds.three_retries
               RetryExamples.always_bad_request)) = 4%nat
  /\ DeepLService.invocations
       (fst (DeepLService.executeWithRetry ErrorKinds.three_retries
               RetryExamples.always_bad_request)) <> 1%nat.
Proof. repeat split; vm_compute; try reflexivity; discriminate. Qed.

(** ** Batched translation *)

Lemma settle_all_resolved {E A : Type} (vs : list A) :
  forall (order : list nat) (values : list (option A)),
    List.length values = List.length vs ->
    (forall i v, values !! i = Some (Some v) -> vs !! i = Some v) ->
    (forall i, (i < List.length vs)%nat ->
       (exists v, values !! i = Some (Some v)) \/ i ∈ order) ->
    Promise.settle (E := E) (Resolved <$> vs) order values
    = Some (Resolved vs).
Proof.
  induction order as [|index order IH]; intros values Hlen Hok Hcover.
  - assert (Hvalues : values = Some <$> vs).
    { apply list_eq. intros i. rewrite list_lookup_fmap.
      destruct (decide (i < List.length vs)%nat) as [Hi|Hi].
      - destruct (Hcover i Hi) as [[v Hv]|Hin].
        + rewrite Hv, (Hok i v Hv). reflexivity.
        + apply elem_of_nil in Hin. destruct Hin.
      - rewrite (lookup_ge_None_2 values i) by lia.
        rewrite (lookup_ge_None_2 vs i) by lia. reflexivity. }
    subst values. simpl.
    rewrite (mapM_fmap_Some (fun v : option A => v) Some vs);
      [reflexivity | intros x; reflexivity].
  - simpl. rewrite list_lookup_fmap.
    destruct (vs !! index) as [a|] eqn:Ha; simpl.
    + assert (Hindex : (index < List.length values)%nat).
      { rewrite Hlen. apply lookup_lt_Some in Ha. exact Ha. }
      apply IH.
      * rewrite length_insert. exact Hlen.
      * intros i v Hv. destruct (decide (i = index)) as [->|Hne].
        -- rewrite list_lookup_insert_eq in Hv by exact Hindex. congruence.
        -- rewrite list_lookup_insert_ne in Hv by congruence. eauto.
      * intros i Hi. destruct (decide (i = index)) as [->|Hne].
        -- left. exists a. apply list_lookup_insert_eq. exact Hindex.
        -- destruct (Hcover i Hi) as [[v Hv]|Hin].
           ++ left. exists v. rewrite list_lookup_insert_ne by congruence.
              exact Hv.
           ++ right. apply elem_of_cons in Hin. destruct Hin; congruence.
    + apply IH; [exact Hlen | exact Hok |].
      intros i Hi. destruct (Hcover i Hi) as [Hv|Hin]; [left; exact Hv|].
      right. apply elem_of_cons in Hin. destruct Hin as [->|Hin]; [|exact Hin].
      apply lookup_lt_is_Some_2 in Hi. rewrite Ha in Hi. destruct Hi.
      discriminate.
Qed.

(** [Promise.all] of promises that all resolve, each settling at some
    point, resolves with their values in the order of the promises. *)
Lemma promise_all_resolved {E A : Type} (order : list nat) (vs : list A) :
  (forall i, (i < List.length vs)%nat -> i ∈ order) ->
  Promise.all (E := E) order (Resolved <$> vs) = Some (Resolved vs).
Proof.
  intros Hcover. unfold Promise.all. apply settle_all_resolved.
  - rewrite length_replicate, length_fmap. reflexivity.
  - intros i v Hv. apply lookup_replicate in Hv. destruct Hv. discriminate.
  - intros i Hi. right. apply Hcover. exact Hi.
Qed.

Section BatchedTranslation.
Variable createTranslation :
  nat -> EnhancedTranslationService.TranslationRequest
  -> outcome string (option string).
Variable schedule : nat -> list nat.
Variables sourceLanguage targetLanguage : string.

#[local] Abbreviation translated :=
  (Batching.translated createTranslation sourceLanguage targetLanguage).

Lemma translateOne_resolves (index : nat) (extracted : Types.ExtractedText) :
  EnhancedTranslationService.translateOne createTranslation sourceLanguage
    targetLanguage index extracted
  = Resolved (translated index extracted).
Proof.
  unfold EnhancedTranslationService.translateOne, Batching.translated,
    Batching.translation_of.
  destruct (createTranslation index _) as [[t|]|e]; reflexivity.
Qed.

Lemma loop_translates (extractedTexts : list Types.ExtractedText) :
  Batching.fair schedule (List.length extractedTexts) ->
  forall (fuel i : nat) (results : list Types.ExtractedText)
         (delays : list nat),
    (List.length extractedTexts - i < fuel)%nat ->
    exists delays',
      EnhancedTranslationService.loop createTranslation schedule fuel
        extractedTexts sourceLanguage targetLanguage i results delays
      = Some
          (Resolved
             (results
                ++ imap (fun j => translated (i + j)) (drop i extractedTexts),
              delays')).
Proof.
  intros Hfair. induction fuel as [|fuel IH]; intros i results delays Hfuel;
    [lia|].
  simpl. destruct (i <? List.length extractedTexts)%nat eqn:Hi.
  - apply Nat.ltb_lt in Hi.
    unfold EnhancedTranslationService.slice.
    replace (i + EnhancedTranslationService.batchSize - i)%nat
      with EnhancedTranslationService.batchSize by lia.
    set (batch := take EnhancedTranslationService.batchSize
                    (drop i extractedTexts)).
    assert (Hbatch :
      imap
        (fun j extracted =>
           EnhancedTranslationService.translateOne createTranslation
             sourceLanguage targetLanguage (i + j) extracted) batch
      = Resolved <$> imap (fun j => translated (i + j)) batch).
    { apply list_eq. intros j.
      rewrite list_lookup_fmap, !list_lookup_imap.
      destruct (batch !! j); simpl; [|reflexivity].
      rewrite translateOne_resolves. reflexivity. }
    rewrite Hbatch, promise_all_resolved.
    + destruct (IH (i + EnhancedTranslationService.batchSize)%nat
                  (results ++ imap (fun j => translated (i + j)) batch)
                  (if (i + EnhancedTranslationService.batchSize
                       <? List.length extractedTexts)%nat
                   then delays ++ [100%nat] else delays)) as [delays' Hloop];
        [unfold EnhancedTranslationService.batchSize; lia|].
      exists delays'. rewrite Hloop. do 3 f_equal.
      rewrite <- app_assoc. f_equal.
      rewrite <- (take_drop EnhancedTranslationService.batchSize
                    (drop i extractedTexts)) at 1.
      rewrite imap_app. fold batch. f_equal.
      rewrite drop_drop.
      destruct (decide (i + EnhancedTranslationService.batchSize
                        <= List.length extractedTexts)%nat) as [Hfull|Hshort].
      * unfold batch. rewrite length_take_le by (rewrite length_drop; lia).
        apply imap_ext. intros j x _. cbv beta.
        replace (i + (EnhancedTranslationService.batchSize + j))%nat
          with (i + EnhancedTranslationService.batchSize + j)%nat by lia.
        reflexivity.
      * rewrite (drop_ge extractedTexts) by lia. reflexivity.
    + intros j Hj. rewrite length_imap in Hj. unfold batch in Hj.
      rewrite length_take, length_drop in Hj. apply Hfair; lia.
  - apply Nat.ltb_ge in Hi. exists delays.
    rewrite (drop_ge extractedTexts) by lia. simpl. rewrite app_nil_r.
    reflexivity.
Qed.

(** When every call settles, the orchestrator resolves with the input
    fragments in input order, each with the text its own call yields. *)
Lemma translateExtractedTexts_translates
  (extractedTexts : list Types.ExtractedText) :
  Batching.fair schedule (List.length extractedTexts) ->
  exists delays,
    EnhancedTranslationService.translateExtractedTexts createTranslation
      schedule extractedTexts sourceLanguage targetLanguage
    = Some (Resolved (imap translated extractedTexts, delays)).
Proof.
  intros Hfair. unfold EnhancedTranslationService.translateExtractedTexts.
  destruct (loop_translates extractedTexts Hfair
              (S (List.length extractedTexts)) 0 [] []) as [delays Hloop];
    [lia|].
  exists delays. rewrite Hloop. reflexivity.
Qed.

End BatchedTranslation.

(** C7. When every call of every batch settles, in whatever order, the
    orchestrator resolves with a list of the length of the input whose
    position [i] holds input fragment [i] with [translatedText] set and
    nothing else changed. *)
Theorem translateExtractedTexts_keeps_length_and_order
  (createTranslation :
     nat -> EnhancedTranslationService.TranslationRequest
     -> outcome string (option string))
  (schedule : nat -> list nat) (extractedTexts : list Types.ExtractedText)
  (sourceLanguage targetLanguage : string) :
  Batching.fair schedule (List.length extractedTexts) ->
  exists results delays,
    EnhancedTranslationService.translateExtractedTexts createTranslation
      schedule extractedTexts sourceLanguage targetLanguage
    = Some (Resolved (results, delays))
    /\ List.length results = List.length extractedTexts
    /\ forall i extracted,
         extractedTexts !! i = Some extracted ->
         exists t,
           results !! i = Some (Types.with_translation extracted t).
Proof.
  intros Hfair.
  destruct (translateExtractedTexts_translates createTranslation schedule
              sourceLanguage targetLanguage extractedTexts Hfair)
    as [delays Hrun].
  eexists. exists delays. split; [exact Hrun|]. split.
  - apply length_imap.
  - intros i extracted Hi. rewrite list_lookup_imap, Hi. simpl.
    eexists. reflexivity.
Qed.

Lemma last_first_fair (n : nat) : Batching.fair Batching.last_first n.
Proof.
  intros i j Hj _. unfold Batching.last_first.
  apply list_elem_of_In, in_rev. rewrite rev_involutive.
  apply in_seq. lia.
Qed.

Lemma translateExtractedTexts_keeps_length_and_order_witness :
  Batching.fair Batching.last_first (List.length Batching.twelve)
  /\ exists results delays,
       EnhancedTranslationService.translateExtractedTexts
         Batching.shouting_backend Batching.last_first Batching.twelve
         "en" "es"
       = Some (Resolved (results, delays))
       /\ List.length results = List.length Batching.twelve
       /\ forall i extracted,
            Batching.twelve !! i = Some extracted ->
            exists t,
              results !! i = Some (Types.with_translation extracted t).
Proof.
  split; [apply last_first_fair|].
  apply (translateExtractedTexts_keeps_length_and_order
           Batching.shouting_backend Batching.last_first Batching.twelve
           "en" "es").
  apply last_first_fair.
Defined.

(** C4. When every call of every batch settles, the orchestrator resolves,
    whichever calls fail: the result holds, at the position of each input
    fragment, that fragment with [translatedText] equal to its
    [originalText] when its call was rejected, and to the translation of
    the backend when its call resolved with one. *)
Theorem translateExtractedTexts_isolates_failures
  (createTranslation :
     nat -> EnhancedTranslationService.TranslationRequest
     -> outcome string (option string))
  (schedule : nat -> list nat) (extractedTexts : list Types.ExtractedText)
  (sourceLanguage targetLanguage : string) :
  Batching.fair schedule (List.length extractedTexts) ->
  exists results delays,
    EnhancedTranslationService.translateExtractedTexts createTranslation
      schedule extractedTexts sourceLanguage targetLanguage
    = Some (Resolved (results, delays))
    /\ forall i extracted,
         extractedTexts !! i = Some extracted ->
         (forall e,
            createTranslation i
              (EnhancedTranslationService.request_for sourceLanguage
                 targetLanguage extracted) = Rejected e ->
            results !! i
            = Some (Types.with_translation extracted
                      (Types.originalText extracted)))
         /\ (forall t,
               createTranslation i
                 (EnhancedTranslationService.request_for sourceLanguage
                    targetLanguage extracted) = Resolved (Some t) ->
               results !! i = Some (Types.with_translation extracted t)).
Proof.
  intros Hfair.
  destruct (translateExtractedTexts_translates createTranslation schedule
              sourceLanguage targetLanguage extractedTexts Hfair)
    as [delays Hrun].
  eexists. exists delays. split; [exact Hrun|].
  intros i extracted Hi. rewrite list_lookup_imap, Hi. simpl.
  unfold Batching.translated, Batching.translation_of.
  split; intros x Hx; rewrite Hx; reflexivity.
Qed.

Lemma translateExtractedTexts_isolates_failures_witness :
  Batching.fair Batching.last_first (List.length Batching.twelve)
  /\ exists results delays,
       EnhancedTranslationService.translateExtractedTexts
         Batching.shouting_backend Batching.last_first Batching.twelve
         "en" "es"
       = Some (Resolved (results, delays))
       /\ forall i extracted,
            Batching.twelve !! i = Some extracted ->
            (forall e,
               Batching.shouting_backend i
                 (EnhancedTranslationService.request_for "en" "es" extracted)
               = Rejected e ->
               results !! i
               = Some (Types.with_translation extracted
                         (Types.originalText extracted)))
            /\ (forall t,
                  Batching.shouting_backend i
                    (EnhancedTranslationService.request_for "en" "es"
                       extracted) = Resolved (Some t) ->
                  results !! i = Some (Types.with_translation extracted t)).
Proof.
  split; [apply last_first_fair|].
  apply (translateExtractedTexts_isolates_failures
           Batching.shouting_backend Batching.last_first Batching.twelve
           "en" "es").
  apply last_first_fair.
Defined.

(** The batch of the scenario: call 3 of twelve fails; fragment 3 keeps its
    original text, the other eleven carry the backend's translation. *)
Example one_failure_in_a_batch :
  exists delays,
    EnhancedTranslationService.translateExtractedTexts
      Batching.shouting_backend Batching.last_first Batching.twelve "en" "es"
    = Some
        (Resolved
           (imap
              (fun i extracted =>
                 Types.with_translation extracted
                   (if (i =? 3)%nat then Types.originalText extracted
                    else DeepLService.toUpperCase
                           (Types.originalText extracted)))
              Batching.twelve, delays)).
Proof. exists [100%nat]. vm_compute. reflexivity. Qed.

(** ** Translation memory *)

Lemma or_else_truthy (a b : string) : JS.truthy a = true -> JS.or_else a b = a.
Proof. intros Ha. unfold JS.or_else. rewrite Ha. reflexivity. Qed.

(** With a source language given, a call for one text that resolves with a
    non-empty translation leaves an entry for the text under the key of the
    arguments, holding that translation. *)
Lemma translateText_leaves_entry (config : DeepLService.DeepLConfig)
  (post : nat -> DeepLService.DeepLTranslationRequest
          -> outcome DeepLService.Error (list DeepLService.Translated))
  (now : string) (st st1 : DeepLService.state)
  (text targetLanguage sourceLanguage tr : string) :
  JS.truthy sourceLanguage = true ->
  DeepLService.translateText config post now st [text] targetLanguage
    (Some sourceLanguage) = (st1, Resolved [Some tr]) ->
  exists entry,
    DeepLService.translationMemory st1
      !! DeepLService.getMemoryKey text sourceLanguage targetLanguage
    = Some entry
    /\ DeepLService.translatedText entry = Some tr.
Proof.
  intros Hsrc. unfold DeepLService.translateText. simpl.
  rewrite (or_else_truthy sourceLanguage "auto") by exact Hsrc.
  set (key := DeepLService.getMemoryKey text sourceLanguage targetLanguage).
  destruct (DeepLService.translationMemory st !! key) as [entry0|] eqn:Hlook;
    simpl.
  - destruct (DeepLService.falsy (DeepLService.translatedText entry0))
      eqn:Hfalsy.
    + destruct (DeepLService.executeWithRetry config _) as [log [tl|error]];
        [|discriminate].
      rewrite (or_else_truthy sourceLanguage) by exact Hsrc. simpl.
      intros Heq. injection Heq as <- Htr. simpl.
      fold key. eexists. split; [apply lookup_insert_eq|]. exact Htr.
    + intros Heq. injection Heq as <- Htr. simpl.
      exists (DeepLService.used now entry0).
      split; [apply lookup_insert_eq|]. exact Htr.
  - destruct (DeepLService.executeWithRetry config _) as [log [tl|error]];
      [|discriminate].
    rewrite (or_else_truthy sourceLanguage) by exact Hsrc. simpl.
    intros Heq. injection Heq as <- Htr. simpl.
    fold key. eexists. split; [apply lookup_insert_eq|]. exact Htr.
Qed.

(** A call for one text that finds an entry with a non-empty translation
    under the key of its arguments sends no request: it resolves with the
    cached translation and leaves the entry with [usageCount] incremented
    and [lastUsed] set to the time of the call. *)
Lemma translateText_cache_hit (config : DeepLService.DeepLConfig)
  (post : nat -> DeepLService.DeepLTranslationRequest
          -> outcome DeepLService.Error (list DeepLService.Translated))
  (now : string) (st : DeepLService.state)
  (text targetLanguage sourceLanguage tr : string)
  (entry : DeepLService.TranslationMemoryEntry) :
  JS.truthy sourceLanguage = true ->
  JS.truthy tr = true ->
  DeepLService.translationMemory st
    !! DeepLService.getMemoryKey text sourceLanguage targetLanguage
  = Some entry ->
  DeepLService.translatedText entry = Some tr ->
  DeepLService.translateText config post now st [text] targetLanguage
    (Some sourceLanguage)
  = ({| DeepLService.translationMemory :=
          <[DeepLService.getMemoryKey text sourceLanguage targetLanguage
            := DeepLService.used now entry]>
            (DeepLService.translationMemory st);
        DeepLService.requests := DeepLService.requests st |},
     Resolved [Some tr]).
Proof.
  intros Hsrc Htr Hlook Htext. unfold DeepLService.translateText. simpl.
  rewrite (or_else_truthy sourceLanguage) by exact Hsrc.
  rewrite Hlook. simpl. rewrite Htext. simpl. rewrite Htr. reflexivity.
Qed.

(** Cache convergence where it holds: with a source language given and a
    non-empty translation, the second call with the same arguments is
    answered from the translation memory. *)
Lemma translateText_twice (config : DeepLService.DeepLConfig)
  (post : nat -> DeepLService.DeepLTranslationRequest
          -> outcome DeepLService.Error (list DeepLService.Translated))
  (now1 now2 : string) (st st1 : DeepLService.state)
  (text targetLanguage sourceLanguage tr : string) :
  JS.truthy sourceLanguage = true ->
  JS.truthy tr = true ->
  DeepLService.translateText config post now1 st [text] targetLanguage
    (Some sourceLanguage) = (st1, Resolved [Some tr]) ->
  exists entry,
    DeepLService.translationMemory st1
      !! DeepLService.getMemoryKey text sourceLanguage targetLanguage
    = Some entry
    /\ DeepLService.translateText config post now2 st1 [text] targetLanguage
         (Some sourceLanguage)
       = ({| DeepLService.translationMemory :=
               <[DeepLService.getMemoryKey text sourceLanguage targetLanguage
                 := DeepLService.used now2 entry]>
                 (DeepLService.translationMemory st1);
             DeepLService.requests := DeepLService.requests st1 |},
          Resolved [Some tr])
    /\ DeepLService.usageCount (DeepLService.used now2 entry)
       = (DeepLService.usageCount entry + 1)%Z
    /\ DeepLService.lastUsed (DeepLService.used now2 entry) = now2.
Proof.
  intros Hsrc Htr Hfirst.
  destruct (translateText_leaves_entry config post now1 st st1 text
              targetLanguage sourceLanguage tr Hsrc Hfirst)
    as [entry [Hlook Htext]].
  exists entry. split; [exact Hlook|]. split.
  - apply translateText_cache_hit; assumption.
  - split; reflexivity.
Qed.

(** C6 at its failing inputs.  Against a backend that reports the detected
    source language, translating [Hello] twice without a source language
    sends two requests: the first call looks the text up under [auto] and
    stores it under the detected [EN], so the second call misses.
    Translating the empty text twice, with a source language, sends two
    requests as well: the entry found holds the empty translation, which
    the filter takes for a miss.  With the source language given and a
    non-empty translation the second call sends none. *)
Theorem translateText_second_call_misses :
  CacheExamples.requests_of_two_calls ["Hello"] "DE" None = (1%nat, 2%nat)
  /\ CacheExamples.requests_of_two_calls [""] "DE" (Some "EN")
     = (1%nat, 2%nat)
  /\ CacheExamples.requests_of_two_calls ["Hello"] "DE" (Some "EN")
     = (1%nat, 1%nat)
  /\ snd (DeepLService.translateText CacheExamples.config
            CacheExamples.shouting_post "2024-01-01T00:00:00.000Z"
            CacheExamples.fresh ["Hello"] "DE" None)
     = Resolved [Some "HELLO"]
  /\ DeepLService.getMemoryKey "Hello" "auto" "DE" = "auto-DE-1n1e4y"
  /\ map fst
       (map_to_list
          (DeepLService.translationMemory
             (fst (DeepLService.translateText CacheExamples.config
                     CacheExamples.shouting_post "2024-01-01T00:00:00.000Z"
                     CacheExamples.fresh ["Hello"] "DE" None))))
     = ["EN-DE-1n1e4y"].
Proof. repeat split; vm_compute; reflexivity. Qed.

(** ** Reconstruction of JSON documents *)

(** Induction on a JSON value, with the hypothesis for every item of an
    array and every field value of an object. *)
Lemma json_ind (P : json -> Prop) :
  P JNull ->
  (forall b, P (JBool b)) ->
  (forall q, P (JNum q)) ->
  (forall s, P (JStr s)) ->
  (forall items, Forall P items -> P (JArr items)) ->
  (forall fields, Forall (fun kv => P (snd kv)) fields -> P (JObj fields)) ->
  forall v, P v.
Proof.
  intros Hnull Hbool Hnum Hstr Harr Hobj.
  fix IH 1. intros [ | b | q | s | items | fields ].
  - exact Hnull.
  - apply Hbool.
  - apply Hnum.
  - apply Hstr.
  - apply Harr. induction items as [|item items IHitems]; constructor.
    + apply IH.
    + exact IHitems.
  - apply Hobj. induction fields as [|[key value] fields IHfields]; constructor.
    + apply IH.
    + exact IHfields.
Qed.

Lemma mapi_from_imap {A B : Type} (f : nat -> A -> B) (l : list A) :
  forall index, JS.mapi_from f index l = imap (fun j => f (index + j)%nat) l.
Proof.
  induction l as [|x l IH]; intros index; simpl; [reflexivity|].
  rewrite Nat.add_0_r, IH. f_equal.
  apply imap_ext. intros j y _. simpl. f_equal. lia.
Qed.

Lemma mapi_imap {A B : Type} (f : nat -> A -> B) (l : list A) :
  JS.mapi f l = imap f l.
Proof. unfold JS.mapi. rewrite mapi_from_imap. reflexivity. Qed.

(** The map built from a fragment list answers, for a path, with the text
    of the last fragment of that path. *)
Lemma translationMap_lookup (translations : list Types.ExtractedText)
  (path : string) :
  Types.translationMap Types.path translations !! path
  = Position.replacement translations path.
Proof.
  unfold Types.translationMap, Position.replacement.
  induction translations as [|t translations IH] using rev_ind.
  - reflexivity.
  - rewrite foldl_app, rev_app_distr. simpl.
    destruct (String.eqb_spec (Types.path t) path) as [->|Hne].
    + apply lookup_insert_eq.
    + rewrite lookup_insert_ne by exact Hne. exact IH.
Qed.

Section Reconstruct.
Variable translationMap : gmap string string.

#[local] Abbreviation rebuilt_child := (Position.rebuilt_child translationMap).

Lemma child_reconstructObject (v : json) (path : string) (s : Position.step)
  (c : json) :
  Position.child v s = Some c ->
  Position.child (JsonParser.reconstructObject v path translationMap) s
  = Some (rebuilt_child path s c).
Proof.
  destruct v as [ | b | q | str | items | fields ], s as [key|index];
    simpl; try discriminate.
  - intros Hc. rewrite mapi_imap, list_lookup_imap, Hc. reflexivity.
  - induction fields as [|[k x] fields IH]; simpl; [discriminate|].
    destruct (String.eqb k key) eqn:Hk.
    + apply String.eqb_eq in Hk. subst k. intros [= ->]. reflexivity.
    + exact IH.
Qed.

Lemma value_at_app (v : json) (pre post : list Position.step) :
  Position.value_at v (pre ++ post)
  = match Position.value_at v pre with
    | Some x => Position.value_at x post
    | None => None
    end.
Proof.
  revert v. induction pre as [|s pre IH]; intros v; simpl; [reflexivity|].
  destruct (Position.child v s); [apply IH | reflexivity].
Qed.

Lemma path_from_app (path : string) (pre post : list Position.step) :
  Position.path_from path (pre ++ post)
  = Position.path_from (Position.path_from path pre) post.
Proof. apply foldl_app. Qed.

(** Below unmatched positions, [reconstructObject] reaches a position with
    the path extraction gave it. *)
Lemma value_at_reconstructObject (steps : list Position.step) :
  forall (v x : json) (path : string),
    Position.value_at v steps = Some x ->
    (forall n, (0 < n <= List.length steps)%nat ->
       translationMap !! Position.path_from path (take n steps) = None) ->
    Position.value_at (JsonParser.reconstructObject v path translationMap)
      steps
    = Some
        (JsonParser.reconstructObject x (Position.path_from path steps)
           translationMap).
Proof.
  induction steps as [|s steps IH]; intros v x path Hat Hfree; simpl in *.
  - congruence.
  - destruct (Position.child v s) as [c|] eqn:Hc; [|discriminate].
    rewrite (child_reconstructObject v path s c Hc).
    unfold Position.rebuilt_child.
    pose proof (Hfree 1%nat ltac:(lia)) as Hhere. simpl in Hhere.
    rewrite Hhere.
    apply (IH c x (Position.extend path s)); [exact Hat|].
    intros n Hn. apply (Hfree (S n)). lia.
Qed.

End Reconstruct.

Lemma in_concat_imap {A B : Type} (f : nat -> A -> list B) (l : list A)
  (y : B) :
  In y (concat (imap f l)) <-> exists i x, l !! i = Some x /\ In y (f i x).
Proof.
  rewrite in_concat. split.
  - intros [ys [Hys Hy]].
    apply list_elem_of_In, elem_of_lookup_imap in Hys.
    destruct Hys as [i [x [-> Hx]]]. eauto.
  - intros [i [x [Hx Hy]]]. exists (f i x). split; [|exact Hy].
    apply list_elem_of_In, elem_of_lookup_imap. eauto.
Qed.

Lemma in_below_item (items : list json) (path : string) (index : nat)
  (item : json) (e : string * json) :
  items !! index = Some item ->
  In e ((JsonParser.index_path path index, item)
          :: Position.below item (JsonParser.index_path path index)) ->
  In e (Position.below (JArr items) path).
Proof.
  intros Hitem He. simpl. rewrite mapi_imap. apply in_concat_imap. eauto.
Qed.

Lemma in_below_field (fields : list (string * json)) (path key : string)
  (value : json) (e : string * json) :
  In (key, value) fields ->
  In e ((JsonParser.key_path path key, value)
          :: Position.below value (JsonParser.key_path path key)) ->
  In e (Position.below (JObj fields) path).
Proof.
  intros Hfield He. simpl. apply in_concat.
  eexists. split; [|exact He].
  apply in_map_iff. exists (key, value). split; [reflexivity | exact Hfield].
Qed.

Lemma unique_value {A B : Type} (l : list (A * B)) (k : A) (x y : B) :
  NoDup (map fst l) -> In (k, x) l -> In (k, y) l -> x = y.
Proof.
  induction l as [|[k' z] l IH]; simpl; intros Hnd Hx Hy; [destruct Hx|].
  apply NoDup_cons in Hnd. destruct Hnd as [Hnotin Hnd].
  assert (Hfst : forall v, In (k', v) l -> False).
  { intros v Hv. apply Hnotin, list_elem_of_In.
    change k' with (fst (k', v)). apply in_map. exact Hv. }
  destruct Hx as [Hx|Hx], Hy as [Hy|Hy].
  - congruence.
  - injection Hx as -> ->. destruct (Hfst y Hy).
  - injection Hy as -> ->. destruct (Hfst x Hx).
  - exact (IH Hnd Hx Hy).
Qed.

Section ReconstructWhole.
Variable translationMap : gmap string string.

(** A map that, wherever it matches a position below the value, holds the
    string already there rebuilds the value itself. *)
Lemma reconstructObject_agree (v : json) :
  forall path,
    (forall p x t, In (p, x) (Position.below v path) ->
                   translationMap !! p = Some t -> x = JStr t) ->
    JsonParser.reconstructObject v path translationMap = v.
Proof.
  induction v as [ | b | q | s | items IH | fields IH ] using json_ind;
    intros path Hagree; simpl; try reflexivity.
  - f_equal. rewrite mapi_imap. apply list_eq. intros i.
    rewrite list_lookup_imap.
    destruct (items !! i) as [item|] eqn:Hitem; simpl; [|reflexivity].
    f_equal.
    destruct (translationMap !! JsonParser.index_path path i) as [t|] eqn:Ht.
    + symmetry. apply (Hagree (JsonParser.index_path path i)); [|exact Ht].
      apply (in_below_item items path i item); [exact Hitem | left; reflexivity].
    + rewrite Forall_forall in IH.
      apply IH; [apply list_elem_of_lookup_2 with i; exact Hitem|].
      intros p x t Hin. apply Hagree.
      apply (in_below_item items path i item); [exact Hitem | right; exact Hin].
  - f_equal. rewrite <- (map_id fields) at 2. apply map_ext_in.
    intros [key value] Hfield. f_equal.
    destruct (translationMap !! JsonParser.key_path path key) as [t|] eqn:Ht.
    + symmetry. apply (Hagree (JsonParser.key_path path key)); [|exact Ht].
      apply (in_below_field fields path key value);
        [exact Hfield | left; reflexivity].
    + rewrite Forall_forall in IH.
      apply (IH (key, value)); [apply list_elem_of_In; exact Hfield|].
      intros p x t Hin. apply Hagree.
      apply (in_below_field fields path key value);
        [exact Hfield | right; exact Hin].
Qed.

(** When the map matches string positions only, the rebuilt value has the
    structure of the original. *)
Lemma reconstructObject_shape (v : json) :
  forall path,
    (forall p x, In (p, x) (Position.below v path) ->
                 is_Some (translationMap !! p) -> exists s, x = JStr s) ->
    Position.shape (JsonParser.reconstructObject v path translationMap)
    = Position.shape v.
Proof.
  induction v as [ | b | q | s | items IH | fields IH ] using json_ind;
    intros path Hstrings; simpl; try reflexivity.
  - f_equal. rewrite mapi_imap. apply list_eq. intros i.
    change (map Position.shape) with (fmap (M := list) Position.shape).
    rewrite !list_lookup_fmap, list_lookup_imap.
    destruct (items !! i) as [item|] eqn:Hitem; simpl; [|reflexivity].
    f_equal.
    destruct (translationMap !! JsonParser.index_path path i) as [t|] eqn:Ht.
    + destruct (Hstrings (JsonParser.index_path path i) item) as [s ->];
        [|rewrite Ht; eexists; reflexivity|reflexivity].
      apply (in_below_item items path i item); [exact Hitem | left; reflexivity].
    + rewrite Forall_forall in IH.
      apply IH; [apply list_elem_of_lookup_2 with i; exact Hitem|].
      intros p x Hin. apply Hstrings.
      apply (in_below_item items path i item); [exact Hitem | right; exact Hin].
  - f_equal. rewrite map_map. apply map_ext_in.
    intros [key value] Hfield. f_equal.
    destruct (translationMap !! JsonParser.key_path path key) as [t|] eqn:Ht.
    + destruct (Hstrings (JsonParser.key_path path key) value) as [s ->];
        [|rewrite Ht; eexists; reflexivity|reflexivity].
      apply (in_below_field fields path key value);
        [exact Hfield | left; reflexivity].
    + rewrite Forall_forall in IH.
      apply (IH (key, value)); [apply list_elem_of_In; exact Hfield|].
      intros p x Hin. apply Hstrings.
      apply (in_below_field fields path key value);
        [exact Hfield | right; exact Hin].
Qed.

End ReconstructWhole.

(** Every fragment of the generic JSON parser comes from a string of the
    document: the value itself or a position below it, with the
    fragment's path, holding its original text. *)
Lemma extractFromObject_origin (v : json) :
  forall path context f,
    In f (JsonParser.extractFromObject v path context) ->
    In (Types.path f, JStr (Types.originalText f))
      ((path, v) :: Position.below v path).
Proof.
  induction v as [ | b | q | s | items IH | fields IH ] using json_ind;
    intros path context f; simpl; try (intros []).
  - destruct (JsonParser.isTextualContent s); simpl; [|intros []].
    intros [<-|[]]. left. reflexivity.
  - rewrite mapi_imap. intros Hf. apply in_concat_imap in Hf.
    destruct Hf as [i [item [Hitem Hf]]]. right.
    rewrite Forall_forall in IH.
    apply (in_below_item items path i item _ Hitem).
    apply (IH item (list_elem_of_lookup_2 items i item Hitem) _ _ _ Hf).
  - intros Hf. apply in_concat in Hf. destruct Hf as [fs [Hfs Hf]].
    apply in_map_iff in Hfs. destruct Hfs as [[key value] [<- Hfield]].
    right. rewrite Forall_forall in IH.
    apply (in_below_field fields path key value _ Hfield).
    apply (IH (key, value) (proj2 (list_elem_of_In fields (key, value)) Hfield)
             _ _ _ Hf).
Qed.

(** After an identity translation the map answers with original texts. *)
Lemma untranslated_map_lookup (translations : list Types.ExtractedText)
  (path t : string) :
  Types.translationMap Types.path (Position.untranslated translations)
    !! path = Some t ->
  exists f, In f translations /\ Types.path f = path
            /\ Types.originalText f = t.
Proof.
  rewrite translationMap_lookup. unfold Position.replacement.
  destruct (List.find _ _) as [f'|] eqn:Hfind; [|discriminate].
  intros [= <-]. apply find_some in Hfind. destruct Hfind as [Hin Hpath].
  apply in_rev in Hin. unfold Position.untranslated in Hin.
  apply in_map_iff in Hin. destruct Hin as [f [<- Hf]].
  exists f. split; [exact Hf|]. split.
  - apply String.eqb_eq in Hpath. exact Hpath.
  - unfold Types.translated_or_original, JS.or_else. simpl.
    destruct (JS.truthy (Types.originalText f)); reflexivity.
Qed.

(** ** Reconstruction of Editor.js blocks *)

Lemma set_existing_same (key : string) (v : json)
  (fields : list (string * json)) :
  Value.lookup key fields = Some v -> Value.set_existing key v fields = fields.
Proof.
  induction fields as [|[k x] fields IH]; simpl; [reflexivity|].
  destruct (String.eqb_spec k key) as [->|Hne].
  - intros [= ->]. reflexivity.
  - intros Hv. rewrite IH by exact Hv. reflexivity.
Qed.

Lemma set_same (key : string) (v : json) (fields : list (string * json)) :
  Value.lookup key fields = Some v -> Value.set key v fields = fields.
Proof.
  induction fields as [|[k x] fields IH]; simpl; [discriminate|].
  destruct (String.eqb_spec k key) as [->|Hne].
  - intros [= ->]. reflexivity.
  - intros Hv. rewrite IH by exact Hv. reflexivity.
Qed.

Lemma lookup_set_existing_ne (key key' : string) (v : json)
  (fields : list (string * json)) :
  key <> key' ->
  Value.lookup key' (Value.set_existing key v fields)
  = Value.lookup key' fields.
Proof.
  intros Hne. induction fields as [|[k x] fields IH]; simpl; [reflexivity|].
  destruct (String.eqb_spec k key) as [->|Hk]; simpl.
  - destruct (String.eqb_spec key key'); [contradiction | reflexivity].
  - rewrite IH. reflexivity.
Qed.

Lemma with_data_same (block : json) (data : Value.t) :
  Value.prop (Some block) "data" = Some data ->
  EditorJSParser.with_data block data = block.
Proof.
  destruct block as [ | b | q | s | items | fields ]; simpl;
    try discriminate; try (intros [= <-]; reflexivity).
  intros [= <-]. destruct (Value.lookup "data" fields) as [d|] eqn:Hd;
    [|reflexivity].
  rewrite set_existing_same by exact Hd. reflexivity.
Qed.

Lemma with_field_same (data : Value.t) (key : string) (v : json) :
  Value.prop data key = Some (Some v) ->
  EditorJSParser.with_field data key v = data.
Proof.
  destruct data as [[ | b | q | s | items | fields ]|]; simpl;
    try discriminate.
  intros [= Hv]. rewrite set_existing_same by exact Hv. reflexivity.
Qed.

Section BlockAgreement.
Variable translationMap : gmap string string.

Lemma updateTextPath_agree (data : Value.t) (key path : string) :
  (forall t, translationMap !! path = Some t ->
             Stored.field data key = Some (JStr t)) ->
  EditorJSParser.updateTextPath data key path translationMap = Some data.
Proof.
  intros Hag. unfold EditorJSParser.updateTextPath.
  destruct (translationMap !! path) as [t|]; [|reflexivity].
  specialize (Hag t eq_refl). unfold Stored.field in Hag.
  destruct data as [[ | b | q | s | items | fields ]|]; simpl in *;
    try discriminate.
  rewrite set_same by exact Hag. reflexivity.
Qed.

Lemma imap_get_or_agree (pathOf : nat -> string) (l : list json) :
  (forall i item t, l !! i = Some item ->
                    translationMap !! pathOf i = Some t -> item = JStr t) ->
  imap (fun i item => EditorJSParser.get_or translationMap (pathOf i) item) l
  = l.
Proof.
  intros Hag. apply list_eq. intros i. rewrite list_lookup_imap.
  destruct (l !! i) as [item|] eqn:Hitem; simpl; [|reflexivity].
  f_equal. unfold EditorJSParser.get_or.
  destruct (translationMap !! pathOf i) as [t|] eqn:Ht; [|reflexivity].
  rewrite (Hag i item t Hitem Ht). destruct (JS.truthy t); reflexivity.
Qed.

Lemma imap_get_if_has_agree (pathOf : nat -> string) (l : list json) :
  (forall i item t, l !! i = Some item ->
                    translationMap !! pathOf i = Some t -> item = JStr t) ->
  imap (fun i item => EditorJSParser.get_if_has translationMap (pathOf i) item)
    l = l.
Proof.
  intros Hag. apply list_eq. intros i. rewrite list_lookup_imap.
  destruct (l !! i) as [item|] eqn:Hitem; simpl; [|reflexivity].
  f_equal. unfold EditorJSParser.get_if_has.
  destruct (translationMap !! pathOf i) as [t|] eqn:Ht; [|reflexivity].
  rewrite (Hag i item t Hitem Ht). reflexivity.
Qed.

(** [l.map(f)] that throws or maps every item to itself. *)
Lemma imapM_from_same {A : Type} (f : nat -> A -> option A) (l : list A) :
  forall index,
    (forall i x, l !! i = Some x ->
       f (index + i)%nat x = Some x \/ f (index + i)%nat x = None) ->
    imapM_from f index l = Some l \/ imapM_from f index l = None.
Proof.
  induction l as [|x l IH]; intros index Hsame; simpl; [left; reflexivity|].
  destruct (Hsame 0%nat x eq_refl) as [Hx|Hx]; rewrite Nat.add_0_r in Hx;
    rewrite Hx; [|right; reflexivity].
  destruct (IH (S index)) as [Hl|Hl]; rewrite ?Hl; auto.
  intros i y Hy. replace (S index + i)%nat with (index + S i)%nat by lia.
  apply Hsame. exact Hy.
Qed.

Lemma imapM_same {A : Type} (f : nat -> A -> option A) (l : list A) :
  (forall i x, l !! i = Some x -> f i x = Some x \/ f i x = None) ->
  imapM f l = Some l \/ imapM f l = None.
Proof. intros Hsame. apply imapM_from_same. exact Hsame. Qed.

End BlockAgreement.

Section BlockFrame.
Variable translationMap : gmap string string.
#[local] Arguments Value.prop : simpl never.
#[local] Arguments Value.truthy : simpl never.
#[local] Arguments Value.is_string : simpl never.
#[local] Arguments Value.assign : simpl never.
#[local] Arguments EditorJSParser.as_array : simpl never.
#[local] Arguments EditorJSParser.with_data : simpl never.
#[local] Arguments EditorJSParser.with_field : simpl never.
#[local] Arguments EditorJSParser.updateTextPath : simpl never.
#[local] Arguments EditorJSParser.reconstructGenericTextFields : simpl never.
#[local] Arguments EditorJSParser.blockPath : simpl never.
#[local] Arguments String.append : simpl never.
Lemma generic_update_agree (basePath key : string) (value : json) :
  Stored.agrees translationMap (Stored.of_entry basePath key value) ->
  match value with
  | JStr _ =>
      EditorJSParser.get_if_has translationMap
        (basePath +:+ ".data." +:+ key) value
  | JArr items =>
      JArr
        (imap
           (fun index item =>
              EditorJSParser.get_if_has translationMap
                ((basePath +:+ ".data." +:+ key) +:+ "[" +:+ JS.of_nat index
                   +:+ "]") item) items)
  | _ => value
  end = value.
Proof.
  intros Hag. unfold Stored.agrees, Stored.of_entry in Hag.
  destruct value as [ | b | q | s | items | fields ]; try reflexivity.
  - unfold EditorJSParser.get_if_has.
    destruct (translationMap !! _) as [t|] eqn:Ht; [|reflexivity].
    specialize (Hag _ _ t (or_introl eq_refl) Ht). congruence.
  - f_equal. apply imap_get_if_has_agree.
    intros i item t Hitem Ht.
    assert (Hs : Some item = Some (JStr t)); [|congruence].
    apply (Hag _ _ t) with (2 := Ht).
    apply list_elem_of_In.
    apply (elem_of_lookup_imap_2
             (fun index item0 =>
                ((basePath +:+ ".data." +:+ key) +:+ "[" +:+ JS.of_nat index
                   +:+ "]", Some item0)) items item i).
    exact Hitem.
Qed.

Lemma reconstructGenericTextFields_agree (data : Value.t)
  (basePath : string) :
  Stored.agrees translationMap
    (match data with
     | Some d =>
         concat
           (map (fun '(key, value) => Stored.of_entry basePath key value)
              (EditorJSParser.entries d))
     | None => []
     end) ->
  EditorJSParser.reconstructGenericTextFields data basePath translationMap
  = data.
Proof.
  intros Hag. unfold EditorJSParser.reconstructGenericTextFields.
  destruct (negb (Value.truthy data) || negb (Value.typeof_object data));
    [reflexivity|].
  destruct data as [[ | b | q | s | items | fields ]|]; try reflexivity.
  - do 2 f_equal. apply list_eq. intros i. rewrite list_lookup_imap.
    destruct (items !! i) as [item|] eqn:Hitem; simpl; [|reflexivity].
    f_equal. apply generic_update_agree.
    intros p x t Hin. apply Hag. apply in_concat.
    eexists. split; [|exact Hin].
    apply in_map_iff. exists (JS.of_nat i, item). split; [reflexivity|].
    simpl. apply list_elem_of_In.
    apply (elem_of_lookup_imap_2
             (fun index item0 => (JS.of_nat index, item0)) items item i).
    exact Hitem.
  - do 2 f_equal. rewrite <- (map_id fields) at 2. apply map_ext_in.
    intros [key value] Hfield. f_equal. apply generic_update_agree.
    intros p x t Hin. apply Hag. apply in_concat.
    eexists. split; [|exact Hin].
    apply in_map_iff. exists (key, value). split; [reflexivity|exact Hfield].
Qed.

Lemma reconstructBlock_agree (block : json) (blockIndex : nat) :
  Stored.agrees translationMap (Stored.of_block block blockIndex) ->
  EditorJSParser.reconstructBlock block blockIndex translationMap = Some block
  \/ EditorJSParser.reconstructBlock block blockIndex translationMap = None.
Proof.
  intros Hag. unfold EditorJSParser.reconstructBlock.
  destruct (Value.prop (Some block) "type") as [ty|] eqn:Hty; simpl;
    [|right; reflexivity].
  destruct (Value.prop (Some block) "data") as [data|] eqn:Hdata; simpl;
    [|right; reflexivity].
  assert (Hfty : Stored.field (Some block) "type" = ty)
    by (unfold Stored.field; rewrite Hty; reflexivity).
  assert (Hfdata : Stored.field (Some block) "data" = data)
    by (unfold Stored.field; rewrite Hdata; reflexivity).
  unfold Stored.agrees, Stored.of_block in Hag. cbv zeta in Hag.
  rewrite Hfty, Hfdata in Hag. clear Hfty Hfdata.
  destruct (Value.is_string ty "paragraph" || Value.is_string ty "header").
  { rewrite updateTextPath_agree.
    - simpl. rewrite (with_data_same block data Hdata). left. reflexivity.
    - intros t Ht. apply (Hag _ _ t (or_introl eq_refl) Ht). }
  destruct (Value.is_string ty "list").
  { destruct (Value.prop data "items") as [items|] eqn:Hitems; simpl;
      [|right; reflexivity].
    destruct (Value.truthy items); [|left; reflexivity].
    destruct items as [[ | b | q | s | l | fields ]|];
      try (right; reflexivity).
    simpl. left. f_equal.
    rewrite imap_get_or_agree.
    - rewrite (with_field_same data "items" (JArr l) Hitems).
      apply (with_data_same block data Hdata).
    - intros i item t Hitem Ht.
      assert (Hs : Some item = Some (JStr t)); [|congruence].
      apply (Hag _ _ t) with (2 := Ht).
      unfold Stored.field. rewrite Hitems. simpl.
      apply list_elem_of_In.
      apply (elem_of_lookup_imap_2
               (fun itemIndex item0 =>
                  (EditorJSParser.blockPath blockIndex +:+ ".data.items["
                     +:+ JS.of_nat itemIndex +:+ "]", Some item0)) l item i).
      exact Hitem. }
  destruct (Value.is_string ty "quote").
  { rewrite updateTextPath_agree.
    - simpl. rewrite updateTextPath_agree.
      + simpl. rewrite (with_data_same block data Hdata). left. reflexivity.
      + intros t Ht. apply (Hag _ _ t (or_intror (or_introl eq_refl)) Ht).
    - intros t Ht. apply (Hag _ _ t (or_introl eq_refl) Ht). }
  destruct (Value.is_string ty "image" || Value.is_string ty "embed").
  { rewrite updateTextPath_agree.
    - simpl. rewrite (with_data_same block data Hdata). left. reflexivity.
    - intros t Ht. apply (Hag _ _ t (or_introl eq_refl) Ht). }
  destruct (Value.is_string ty "table").
  { destruct (Value.prop data "content") as [content|] eqn:Hcontent; simpl;
      [|right; reflexivity].
    destruct (Value.truthy content); [|left; reflexivity].
    destruct content as [[ | b | q | s | rows | fields ]|];
      try (right; reflexivity).
    simpl.
    match goal with
    | |- context [imapM ?f rows] => destruct (imapM_same f rows) as [Hm|Hm]
    end; [|rewrite Hm; simpl|rewrite Hm; right; reflexivity].
    - intros i row Hrow. destruct row as [ | b | q | s | cells | fields ];
        try (right; reflexivity).
      left. simpl. do 2 f_equal. apply imap_get_or_agree.
      intros j cell t Hcell Ht.
      assert (Hs : Some cell = Some (JStr t)); [|congruence].
      apply (Hag _ _ t) with (2 := Ht).
      unfold Stored.field. rewrite Hcontent. simpl.
      apply in_concat_imap. exists i, (JArr cells). split; [exact Hrow|].
      simpl. apply list_elem_of_In.
      apply (elem_of_lookup_imap_2
               (fun cellIndex cell0 =>
                  (EditorJSParser.blockPath blockIndex +:+ ".data.content["
                     +:+ JS.of_nat i +:+ "][" +:+ JS.of_nat cellIndex +:+ "]",
                   Some cell0)) cells cell j).
      exact Hcell.
    - left. f_equal.
      rewrite (with_field_same data "content" (JArr rows) Hcontent).
      apply (with_data_same block data Hdata). }
  destruct (Value.is_string ty "checklist").
  { destruct (Value.prop data "items") as [items|] eqn:Hitems; simpl;
      [|right; reflexivity].
    destruct (Value.truthy items); [|left; reflexivity].
    destruct items as [[ | b | q | s | l | fields ]|];
      try (right; reflexivity).
    simpl.
    match goal with
    | |- context [imapM ?f l] => destruct (imapM_same f l) as [Hm|Hm]
    end; [|rewrite Hm; simpl|rewrite Hm; right; reflexivity].
    - intros i item Hitem.
      destruct (translationMap !! _) as [t|] eqn:Ht; [|left; reflexivity].
      assert (Hs : Stored.field (Some item) "text" = Some (JStr t)).
      { apply (Hag _ _ t) with (2 := Ht).
        replace (Stored.field data "items") with (Some (JArr l))
          by (unfold Stored.field; rewrite Hitems; reflexivity).
        simpl. apply list_elem_of_In.
        apply (elem_of_lookup_imap_2
                 (fun itemIndex item0 =>
                    (EditorJSParser.blockPath blockIndex +:+ ".data.items["
                       +:+ JS.of_nat itemIndex +:+ "].text",
                     Stored.field (Some item0) "text")) l item i).
        exact Hitem. }
      unfold Stored.field in Hs.
      destruct item as [ | b | q | s | cells | fields ]; try discriminate.
      unfold Value.assign, Value.prop in *. left.
      rewrite set_same by exact Hs. reflexivity.
    - left. f_equal.
      rewrite (with_field_same data "items" (JArr l) Hitems).
      apply (with_data_same block data Hdata). }
  destruct (Value.is_string ty "warning" || Value.is_string ty "alert").
  { rewrite updateTextPath_agree.
    - simpl. rewrite updateTextPath_agree.
      + simpl. rewrite (with_data_same block data Hdata). left. reflexivity.
      + intros t Ht. apply (Hag _ _ t (or_intror (or_introl eq_refl)) Ht).
    - intros t Ht. apply (Hag _ _ t (or_introl eq_refl) Ht). }
  left. f_equal.
  rewrite reconstructGenericTextFields_agree by exact Hag.
  apply (with_data_same block data Hdata).
Qed.

Lemma prop_with_data_ne (block : json) (data : Value.t) (key : string) :
  key <> "data" ->
  Value.prop (Some (EditorJSParser.with_data block data)) key
  = Value.prop (Some block) key.
Proof.
  intros Hne. unfold EditorJSParser.with_data, Value.prop.
  destruct block as [ | b | q | s | items | fields ]; try reflexivity.
  destruct data as [d|]; [|reflexivity].
  rewrite lookup_set_existing_ne by congruence. reflexivity.
Qed.

(** Whatever the map, [reconstructBlock] writes to [block.data] only. *)
Lemma reconstructBlock_writes_data (block block' : json) (blockIndex : nat) :
  EditorJSParser.reconstructBlock block blockIndex translationMap
  = Some block' ->
  exists data, block' = EditorJSParser.with_data block data.
Proof.
  unfold EditorJSParser.reconstructBlock. intros Hrun.
  assert (Hsame : block = EditorJSParser.with_data block None)
    by (destruct block; reflexivity).
  repeat
    (match type of Hrun with
     | context [mbind _ ?x] => destruct x eqn:?; simpl in Hrun
     | context [if ?b then _ else _] => destruct b
     end; try discriminate);
    injection Hrun as <-; eauto.
Qed.

End BlockFrame.

(** ** Extraction from Editor.js documents *)

Lemma in_pushed_bind {A B : Type} (m : Extract.M A) (k : A -> Extract.M B)
  (f : Types.ExtractedText) :
  In f (Extract.pushed (m ≫= k)) ->
  In f (Extract.pushed m)
  \/ exists a, snd m = Some a /\ In f (Extract.pushed (k a)).
Proof.
  unfold mbind, extract_bind, Extract.bind, Extract.pushed.
  destruct m as [w [a|]]; simpl; [|auto].
  destruct (k a) as [w' r] eqn:Hk. simpl. intros Hin.
  apply in_app_or in Hin. destruct Hin as [Hin|Hin]; [auto|].
  right. exists a. rewrite Hk. auto.
Qed.

Lemma in_pushed_lift_bind {A B : Type} (o : option A) (k : A -> Extract.M B)
  (f : Types.ExtractedText) :
  In f (Extract.pushed (Extract.lift o ≫= k)) ->
  exists a, o = Some a /\ In f (Extract.pushed (k a)).
Proof.
  intros Hin. apply in_pushed_bind in Hin.
  destruct Hin as [[]|[a [Ha Hin]]]. eauto.
Qed.

Lemma in_pushed_forEach_from {A : Type} (g : nat -> A -> Extract.M unit)
  (l : list A) (f : Types.ExtractedText) :
  forall index,
    In f (Extract.pushed (Extract.forEach_from g index l)) ->
    exists j x, l !! j = Some x /\ In f (Extract.pushed (g (index + j)%nat x)).
Proof.
  induction l as [|x l IH]; intros index; simpl; [intros []|].
  intros Hin. apply (in_pushed_bind (g index x)) in Hin.
  destruct Hin as [Hin|[[] [_ Hin]]].
  - exists 0%nat, x. rewrite Nat.add_0_r. auto.
  - destruct (IH (S index) Hin) as [j [y [Hy Hf]]].
    exists (S j), y. replace (index + S j)%nat with (S index + j)%nat by lia.
    auto.
Qed.

Lemma in_pushed_forEach {A : Type} (g : nat -> A -> Extract.M unit)
  (l : list A) (f : Types.ExtractedText) :
  In f (Extract.pushed (Extract.forEach g l)) ->
  exists j x, l !! j = Some x /\ In f (Extract.pushed (g j x)).
Proof. apply (in_pushed_forEach_from g l f 0%nat). Qed.

Section ExtractionOrigin.
Context `{JsonApi}.

Lemma extractField_origin (block : json) (blockIndex : nat) (key : string)
  (strip : bool) (context : string) (data : Value.t)
  (f : Types.ExtractedText) :
  Value.prop (Some block) "data" = Some data ->
  In f (Extract.pushed
          (EditorJSParser.extractField block blockIndex key strip context)) ->
  Origin.from_stored
    [(EditorJSParser.blockPath blockIndex +:+ ".data." +:+ key,
      Stored.field data key)] f.
Proof.
  intros Hdata. unfold EditorJSParser.extractField, EditorJSParser.data_prop.
  rewrite Hdata. intros Hin. apply in_pushed_lift_bind in Hin.
  destruct Hin as [v [Hv Hin]].
  destruct (Value.truthy v); [|destruct Hin].
  apply in_pushed_lift_bind in Hin. destruct Hin as [s [Hs Hin]].
  destruct v as [[ | b | q | s' | items | fields ]|]; try discriminate.
  injection Hs as ->. destruct Hin as [<-|[]].
  exists s. simpl. unfold Stored.field. rewrite Hv.
  split; [left; reflexivity|]. destruct strip; auto.
Qed.

Lemma extractGenericTextFields_origin (data : Value.t) (basePath : string)
  (blockType : Value.t) (f : Types.ExtractedText) :
  In f (Extract.pushed
          (EditorJSParser.extractGenericTextFields data basePath blockType)) ->
  Origin.from_stored
    (match data with
     | Some d =>
         concat
           (map (fun '(key, value) => Stored.of_entry basePath key value)
              (EditorJSParser.entries d))
     | None => []
     end) f.
Proof.
  unfold EditorJSParser.extractGenericTextFields.
  destruct (negb (Value.truthy data) || negb (Value.typeof_object data));
    [intros []|].
  intros Hin. apply in_pushed_forEach in Hin.
  destruct Hin as [j [[key value] [Hentry Hin]]].
  destruct data as [d|]; [|rewrite lookup_nil in Hentry; discriminate].
  assert (Hsub : forall e, In e (Stored.of_entry basePath key value) ->
            In e (concat
                    (map (fun '(key, value) =>
                            Stored.of_entry basePath key value)
                       (EditorJSParser.entries d)))).
  { intros e He. apply in_concat. eexists. split; [|exact He].
    apply in_map_iff. exists (key, value). split; [reflexivity|].
    apply list_elem_of_In, list_elem_of_lookup_2 with j. exact Hentry. }
  destruct value as [ | b | q | s | items | fields ]; try destruct Hin.
  - destruct (JS.truthy (JS.trim s) && EditorJSParser.isTextualContent key s);
      [|destruct Hin].
    destruct Hin as [<-|[]]. exists s. split; [|left; reflexivity].
    apply Hsub. left. reflexivity.
  - apply in_pushed_forEach in Hin. destruct Hin as [i [item [Hitem Hin]]].
    destruct item as [ | b | q | s | items' | fields ]; try destruct Hin.
    destruct (JS.truthy (JS.trim s)); [|destruct Hin].
    destruct Hin as [<-|[]]. exists s. split; [|left; reflexivity].
    apply Hsub. simpl. apply list_elem_of_In.
    apply (elem_of_lookup_imap_2
             (fun index item0 =>
                ((basePath +:+ ".data." +:+ key) +:+ "[" +:+ JS.of_nat index
                   +:+ "]", Some item0)) items (JStr s) i).
    exact Hitem.
Qed.

Lemma extractFromBlock_origin (block : json) (blockIndex : nat)
  (f : Types.ExtractedText) :
  In f (Extract.pushed (EditorJSParser.extractFromBlock block blockIndex)) ->
  Origin.from_stored (Stored.of_block block blockIndex) f.
Proof.
  unfold EditorJSParser.extractFromBlock. intros Hin.
  apply in_pushed_lift_bind in Hin. destruct Hin as [ty [Hty Hin]].
  assert (Hdata : exists data, Value.prop (Some block) "data" = Some data).
  { destruct block; try discriminate; eexists; reflexivity. }
  destruct Hdata as [data Hdata].
  assert (Hfty : Stored.field (Some block) "type" = ty)
    by (unfold Stored.field; rewrite Hty; reflexivity).
  assert (Hfdata : Stored.field (Some block) "data" = data)
    by (unfold Stored.field; rewrite Hdata; reflexivity).
  unfold Stored.of_block. cbv zeta. rewrite Hfty, Hfdata. clear Hfty Hfdata.
  assert (Hweaken : forall l1 l2,
            (forall e, In e l1 -> In e l2) ->
            Origin.from_stored l1 f -> Origin.from_stored l2 f).
  { intros l1 l2 Hsub [s [Hs Ho]]. exists s. auto. }
  destruct (Value.is_string ty "paragraph" || Value.is_string ty "header").
  { apply (extractField_origin block blockIndex "text" true _ data f Hdata Hin). }
  destruct (Value.is_string ty "list").
  { unfold EditorJSParser.data_prop in Hin. rewrite Hdata in Hin.
    apply in_pushed_lift_bind in Hin. destruct Hin as [items [Hitems Hin]].
    destruct (Value.truthy items); [|destruct Hin].
    apply in_pushed_lift_bind in Hin. destruct Hin as [l [Hl Hin]].
    destruct items as [[ | b | q | s | l' | fields ]|]; try discriminate.
    injection Hl as ->.
    apply in_pushed_forEach in Hin. destruct Hin as [i [item [Hitem Hin]]].
    apply in_pushed_lift_bind in Hin. destruct Hin as [s [Hs Hin]].
    destruct item as [ | b | q | s' | items' | fields ]; try discriminate.
    injection Hs as ->.
    apply in_pushed_lift_bind in Hin. destruct Hin as [style [_ Hin]].
    destruct Hin as [<-|[]]. exists s. split; [|left; reflexivity].
    unfold Stored.field. rewrite Hitems. simpl. apply list_elem_of_In.
    apply (elem_of_lookup_imap_2
             (fun itemIndex item0 =>
                (EditorJSParser.blockPath blockIndex +:+ ".data.items["
                   +:+ JS.of_nat itemIndex +:+ "]", Some item0)) l (JStr s) i).
    exact Hitem. }
  destruct (Value.is_string ty "quote").
  { apply in_pushed_bind in Hin. destruct Hin as [Hin|[_ [_ Hin]]].
    - apply (Hweaken
               [(EditorJSParser.blockPath blockIndex +:+ ".data." +:+ "text",
                 Stored.field data "text")]);
        [intros e [<-|[]]; left; reflexivity|].
      apply (extractField_origin block blockIndex "text" true _ data f Hdata
               Hin).
    - apply (Hweaken
               [(EditorJSParser.blockPath blockIndex +:+ ".data." +:+ "caption",
                 Stored.field data "caption")]);
        [intros e [<-|[]]; right; left; reflexivity|].
      apply (extractField_origin block blockIndex "caption" true _ data f
               Hdata Hin). }
  destruct (Value.is_string ty "image" || Value.is_string ty "embed").
  { apply (extractField_origin block blockIndex "caption" false _ data f Hdata
             Hin). }
  destruct (Value.is_string ty "table").
  { unfold EditorJSParser.data_prop in Hin. rewrite Hdata in Hin.
    apply in_pushed_lift_bind in Hin. destruct Hin as [content [Hcontent Hin]].
    destruct (Value.truthy content); [|destruct Hin].
    apply in_pushed_lift_bind in Hin. destruct Hin as [rows [Hrows Hin]].
    destruct content as [[ | b | q | s | rows' | fields ]|]; try discriminate.
    injection Hrows as ->.
    apply in_pushed_forEach in Hin. destruct Hin as [i [row [Hrow Hin]]].
    apply in_pushed_lift_bind in Hin. destruct Hin as [cells [Hcells Hin]].
    destruct row as [ | b | q | s | cells' | fields ]; try discriminate.
    injection Hcells as ->.
    apply in_pushed_forEach in Hin. destruct Hin as [j [cell [Hcell Hin]]].
    apply in_pushed_lift_bind in Hin. destruct Hin as [s [Hs Hin]].
    destruct cell as [ | b | q | s' | items' | fields ]; try discriminate.
    injection Hs as ->.
    destruct (JS.truthy (JS.trim s)); [|destruct Hin].
    destruct Hin as [<-|[]]. exists s. split; [|left; reflexivity].
    unfold Stored.field. rewrite Hcontent. simpl.
    apply in_concat_imap. exists i, (JArr cells). split; [exact Hrow|].
    simpl. apply list_elem_of_In.
    apply (elem_of_lookup_imap_2
             (fun cellIndex cell0 =>
                (EditorJSParser.blockPath blockIndex +:+ ".data.content["
                   +:+ JS.of_nat i +:+ "][" +:+ JS.of_nat cellIndex +:+ "]",
                 Some cell0)) cells (JStr s) j).
    exact Hcell. }
  destruct (Value.is_string ty "checklist").
  { unfold EditorJSParser.data_prop in Hin. rewrite Hdata in Hin.
    apply in_pushed_lift_bind in Hin. destruct Hin as [items [Hitems Hin]].
    destruct (Value.truthy items); [|destruct Hin].
    apply in_pushed_lift_bind in Hin. destruct Hin as [l [Hl Hin]].
    destruct items as [[ | b | q | s | l' | fields ]|]; try discriminate.
    injection Hl as ->.
    apply in_pushed_forEach in Hin. destruct Hin as [i [item [Hitem Hin]]].
    apply in_pushed_lift_bind in Hin. destruct Hin as [text [Htext Hin]].
    destruct (Value.truthy text); [|destruct Hin].
    apply in_pushed_lift_bind in Hin. destruct Hin as [s [Hs Hin]].
    destruct text as [[ | b | q | s' | items' | fields ]|]; try discriminate.
    injection Hs as ->.
    destruct Hin as [<-|[]]. exists s. split; [|left; reflexivity].
    replace (Stored.field data "items") with (Some (JArr l))
      by (unfold Stored.field; rewrite Hitems; reflexivity).
    simpl. apply list_elem_of_In.
    replace (Some (JStr s)) with (Stored.field (Some item) "text")
      by (unfold Stored.field; rewrite Htext; reflexivity).
    apply (elem_of_lookup_imap_2
             (fun itemIndex item0 =>
                (EditorJSParser.blockPath blockIndex +:+ ".data.items["
                   +:+ JS.of_nat itemIndex +:+ "].text",
                 Stored.field (Some item0) "text")) l item i).
    exact Hitem. }
  destruct (Value.is_string ty "warning" || Value.is_string ty "alert").
  { apply in_pushed_bind in Hin. destruct Hin as [Hin|[_ [_ Hin]]].
    - apply (Hweaken
               [(EditorJSParser.blockPath blockIndex +:+ ".data." +:+ "title",
                 Stored.field data "title")]);
        [intros e [<-|[]]; left; reflexivity|].
      apply (extractField_origin block blockIndex "title" false _ data f Hdata
               Hin).
    - apply (Hweaken
               [(EditorJSParser.blockPath blockIndex +:+ ".data." +:+ "message",
                 Stored.field data "message")]);
        [intros e [<-|[]]; right; left; reflexivity|].
      apply (extractField_origin block blockIndex "message" false _ data f
               Hdata Hin). }
  apply in_pushed_lift_bind in Hin. destruct Hin as [data' [Hdata' Hin]].
  rewrite Hdata in Hdata'. injection Hdata' as <-.
  apply extractGenericTextFields_origin in Hin. exact Hin.
Qed.

End ExtractionOrigin.

Section EditorDocument.
Context `{JsonApi}.

Lemma in_of_document (editorData : json) (blocks : list json)
  (blockIndex : nat) (block : json) (e : string * Value.t) :
  Value.prop (Some editorData) "blocks" = Some (Some (JArr blocks)) ->
  blocks !! blockIndex = Some block ->
  In e (Stored.of_block block blockIndex) ->
  In e (Stored.of_document editorData).
Proof.
  intros Hblocks Hblock He. unfold Stored.of_document, Stored.field.
  rewrite Hblocks. simpl. apply in_concat_imap. eauto.
Qed.

Lemma extractFromContent_origin (editorData : json)
  (f : Types.ExtractedText) :
  In f (Extract.pushed (EditorJSParser.extractFromContent editorData)) ->
  Origin.from_stored (Stored.of_document editorData) f.
Proof.
  unfold EditorJSParser.extractFromContent. intros Hin.
  apply in_pushed_lift_bind in Hin. destruct Hin as [blocks [Hblocks Hin]].
  apply in_pushed_lift_bind in Hin. destruct Hin as [l [Hl Hin]].
  destruct blocks as [[ | b | q | s | l' | fields ]|]; try discriminate.
  injection Hl as ->.
  apply in_pushed_forEach in Hin. destruct Hin as [i [block [Hblock Hin]]].
  apply extractFromBlock_origin in Hin. destruct Hin as [s [Hs Ho]].
  exists s. split; [|exact Ho].
  apply (in_of_document editorData l i block _ Hblocks Hblock Hs).
Qed.

Lemma reconstructContent_agree (editorData : json)
  (translationMap : gmap string string) :
  Stored.agrees translationMap (Stored.of_document editorData) ->
  EditorJSParser.reconstructContent editorData translationMap
  = Some editorData
  \/ EditorJSParser.reconstructContent editorData translationMap = None.
Proof.
  intros Hag. unfold EditorJSParser.reconstructContent.
  destruct (Value.prop (Some editorData) "blocks") as [blocks|] eqn:Hblocks;
    simpl; [|right; reflexivity].
  destruct blocks as [[ | b | q | s | l | fields ]|];
    try (right; reflexivity).
  simpl.
  match goal with
  | |- context [imapM ?f l] => destruct (imapM_same f l) as [Hm|Hm]
  end; [|rewrite Hm; simpl|rewrite Hm; right; reflexivity].
  - intros i block Hblock. apply reconstructBlock_agree.
    intros p x t Hin. apply Hag.
    apply (in_of_document editorData l i block _ Hblocks Hblock Hin).
  - left. destruct editorData as [ | b | q | s | items | fields ];
      try reflexivity.
    unfold Value.prop in Hblocks. injection Hblocks as Hblocks.
    rewrite set_existing_same by exact Hblocks. reflexivity.
Qed.

(** Rebuilding an Editor.js document from its own fragments, untranslated,
    gives the document back, or throws, when its stored texts have
    pairwise distinct paths and none of them changes under [stripHtml]. *)
Lemma editorjs_round_trip (editorData : json) :
  NoDup (map fst (Stored.of_document editorData)) ->
  Stored.clean (Stored.of_document editorData) ->
  let translations :=
    Position.untranslated
      (Extract.pushed (EditorJSParser.extractFromContent editorData)) in
  EditorJSParser.reconstructContent editorData
    (Types.translationMap Types.path translations) = Some editorData
  \/ EditorJSParser.reconstructContent editorData
       (Types.translationMap Types.path translations) = None.
Proof.
  intros Hdistinct Hclean translations. apply reconstructContent_agree.
  intros p x t Hin Ht.
  apply untranslated_map_lookup in Ht. destruct Ht as [f [Hf [<- <-]]].
  apply extractFromContent_origin in Hf. destruct Hf as [s [Hs Ho]].
  rewrite (unique_value _ _ _ _ Hdistinct Hin Hs). do 2 f_equal.
  destruct Ho as [->| ->]; [|reflexivity].
  symmetry. apply (Hclean _ _ Hs).
Qed.

End EditorDocument.

(** ** Reconstruction of GrapeJS components *)

Lemma on_components_lookup {A : Type} (g : list json -> A) (d : A)
  (fields : list (string * json)) :
  GrapeJSParser.on_components g d fields
  = match Value.lookup "components" fields with
    | Some (JArr items) => g items
    | _ => d
    end.
Proof.
  induction fields as [|[key value] fields IH]; simpl; [reflexivity|].
  destruct (String.eqb key "components"); [|exact IH].
  destruct value; reflexivity.
Qed.

Lemma lookup_In (key : string) (v : json) (fields : list (string * json)) :
  Value.lookup key fields = Some v -> In (key, v) fields.
Proof.
  induction fields as [|[k x] fields IH]; simpl; [discriminate|].
  destruct (String.eqb_spec k key) as [->|Hne].
  - intros [= ->]. left. reflexivity.
  - intros Hv. right. apply IH. exact Hv.
Qed.

(** Induction on a component tree: the hypothesis holds for every child
    component. *)
Lemma component_ind (P : json -> Prop) :
  (forall component,
     (forall fields items childIndex child,
        component = JObj fields ->
        Value.lookup "components" fields = Some (JArr items) ->
        items !! childIndex = Some child -> P child) ->
     P component) ->
  forall component, P component.
Proof.
  intros Hstep.
  assert (Hboth : forall v,
            P v /\ forall items i child,
                     v = JArr items -> items !! i = Some child -> P child).
  { induction v as [ | b | q | s | items IH | fields IH ] using json_ind;
      (split; [apply Hstep|]); try discriminate.
    - intros items' i child [= <-] Hchild. rewrite Forall_lookup in IH.
      apply (proj1 (IH i child Hchild)).
    - intros fields' items i child [= <-] Hitems Hchild.
      rewrite Forall_forall in IH. apply lookup_In in Hitems.
      apply list_elem_of_In in Hitems.
      apply (proj2 (IH _ Hitems) items i child eq_refl Hchild). }
  intros component. apply Hboth.
Qed.

Lemma in_positions_child (content_only : bool)
  (fields : list (string * json)) (path : string) (items : list json)
  (childIndex : nat) (child : json) (e : string * Value.t) :
  Value.lookup "components" fields = Some (JArr items) ->
  items !! childIndex = Some child ->
  In e (Component.positions content_only child
          (GrapeJSParser.childPath path childIndex)) ->
  In e (Component.positions content_only (JObj fields) path).
Proof.
  intros Hitems Hchild He. simpl. rewrite on_components_lookup, Hitems.
  right. apply in_or_app. right. rewrite mapi_imap. apply in_concat_imap.
  eauto.
Qed.

Lemma positions_content_only (component : json) :
  forall path e,
    In e (Component.positions true component path) ->
    In e (Component.positions false component path).
Proof.
  induction component as [component IH] using component_ind.
  intros path e. destruct component as [ | b | q | s | items | fields ];
    try (intros []; fail).
  simpl. rewrite !on_components_lookup. intros [He|He]; [left; exact He|].
  right. apply in_or_app. right.
  destruct (Value.lookup "components" fields) as [[ | b | q | s | items | fs ]|]
    eqn:Hitems; try destruct He.
  rewrite mapi_imap in He |- *. apply in_concat_imap in He.
  destruct He as [i [child [Hchild He]]]. apply in_concat_imap.
  exists i, child. split; [exact Hchild|].
  apply (IH fields items i child eq_refl Hitems Hchild). exact He.
Qed.

Section ComponentAgreement.
Variable translationMap : gmap string string.

Lemma reconstructAttributes_agree (a : json) (path : string) :
  Stored.agrees translationMap (Component.attributes_of (Some a) path) ->
  GrapeJSParser.reconstructAttributes a path translationMap = Some a
  \/ GrapeJSParser.reconstructAttributes a path translationMap = None.
Proof.
  intros Hag. unfold Component.attributes_of in Hag.
  destruct a as [ | b | q | s | items | fields ]; simpl; auto.
  - destruct (forallb _ _); auto.
  - left. do 2 f_equal. apply imap_get_if_has_agree.
    intros i item t Hitem Ht.
    assert (Hx : Some item = Some (JStr t)); [|congruence].
    apply (Hag (path +:+ ".attributes." +:+ JS.of_nat i) (Some item) t);
      [|exact Ht].
    apply in_map_iff. exists (JS.of_nat i, item). split; [reflexivity|].
    simpl. apply list_elem_of_In.
    apply (elem_of_lookup_imap_2
             (fun index item0 => (JS.of_nat index, item0)) items item i Hitem).
  - left. do 2 f_equal. simpl in Hag.
    induction fields as [|[key value] fields IH]; simpl; [reflexivity|].
    rewrite IH.
    + f_equal. f_equal. unfold EditorJSParser.get_if_has.
      destruct (translationMap !! _) as [t|] eqn:Ht; [|reflexivity].
      assert (Hx : Some value = Some (JStr t)); [|congruence].
      apply (Hag _ _ t (or_introl eq_refl) Ht).
    + intros p x t Hin. apply Hag. right. exact Hin.
Qed.

Lemma reconstructTrait_agree (path : string) (traitIndex : nat)
  (trait : json) :
  (forall t,
     translationMap
       !! (path +:+ ".traits[" +:+ JS.of_nat traitIndex +:+ "].value")
     = Some t ->
     Stored.field (Some trait) "value" = Some (JStr t)) ->
  GrapeJSParser.reconstructTrait path translationMap traitIndex trait
  = Some trait.
Proof.
  intros Hag. unfold GrapeJSParser.reconstructTrait.
  destruct (translationMap !! _) as [t|]; [|reflexivity].
  specialize (Hag t eq_refl). unfold Stored.field in Hag.
  destruct trait as [ | b | q | s | items | fields ]; simpl in *;
    try discriminate.
  rewrite set_same by exact Hag. reflexivity.
Qed.

#[local] Arguments Value.lookup : simpl never.
#[local] Arguments Value.truthy : simpl never.
#[local] Arguments Value.set : simpl never.
#[local] Arguments Value.set_existing : simpl never.
#[local] Arguments GrapeJSParser.on_components : simpl never.
#[local] Arguments GrapeJSParser.reconstructAttributes : simpl never.
#[local] Arguments GrapeJSParser.childPath : simpl never.
#[local] Arguments EditorJSParser.as_array : simpl never.
#[local] Arguments Component.attributes_of : simpl never.
#[local] Arguments Component.traits_of : simpl never.
#[local] Arguments imapM : simpl never.
#[local] Arguments String.append : simpl never.

(** A component whose stored texts the map does not change is rebuilt as
    it is, unless the call throws. *)
Lemma reconstructComponent_agree (component : json) :
  forall path,
    Stored.agrees translationMap (Component.positions false component path) ->
    GrapeJSParser.reconstructComponent component path translationMap
    = Some component
    \/ GrapeJSParser.reconstructComponent component path translationMap
       = None.
Proof.
  induction component as [component IH] using component_ind.
  intros path Hag. destruct component as [ | b | q | s | items | fields ];
    try (simpl; auto; destruct (translationMap !! _); auto; fail).
  simpl.
  assert (Hcontent :
            match translationMap !! (path +:+ ".content") with
            | Some t => Value.set "content" (JStr t) fields
            | None => fields
            end = fields).
  { destruct (translationMap !! (path +:+ ".content")) as [t|] eqn:Ht;
      [|reflexivity].
    apply set_same. apply (Hag _ _ t (or_introl eq_refl) Ht). }
  rewrite Hcontent.
  assert (Hattributes :
            forall e, In e (Component.attributes_of
                              (Value.lookup "attributes" fields) path) ->
                      In e (Component.positions false (JObj fields) path)).
  { intros e He. simpl. right. apply in_or_app. left. apply in_or_app.
    left. exact He. }
  assert (Htraits :
            forall e, In e (Component.traits_of
                              (Value.lookup "traits" fields) path) ->
                      In e (Component.positions false (JObj fields) path)).
  { intros e He. simpl. right. apply in_or_app. left. apply in_or_app.
    right. exact He. }
  assert (H2 :
            (if Value.truthy (Value.lookup "attributes" fields) then
               match Value.lookup "attributes" fields with
               | Some a =>
                   a' ← GrapeJSParser.reconstructAttributes a path
                          translationMap;
                   Some (Value.set_existing "attributes" a' fields)
               | None => Some fields
               end
             else Some fields) = Some fields
            \/ (if Value.truthy (Value.lookup "attributes" fields) then
                  match Value.lookup "attributes" fields with
                  | Some a =>
                      a' ← GrapeJSParser.reconstructAttributes a path
                             translationMap;
                      Some (Value.set_existing "attributes" a' fields)
                  | None => Some fields
                  end
                else Some fields) = None).
  { destruct (Value.truthy (Value.lookup "attributes" fields)); [|auto].
    destruct (Value.lookup "attributes" fields) as [a|] eqn:Ha; [|auto].
    destruct (reconstructAttributes_agree a path) as [-> | ->]; simpl; auto.
    - intros p x t Hin. apply Hag, Hattributes. exact Hin.
    - rewrite set_existing_same by exact Ha. auto. }
  destruct H2 as [-> | ->]; [|right; reflexivity]. simpl.
  assert (H3 :
            (if Value.truthy (Value.lookup "traits" fields) then
               l ← EditorJSParser.as_array (Value.lookup "traits" fields);
               l' ← imapM (GrapeJSParser.reconstructTrait path translationMap)
                      l;
               Some (Value.set_existing "traits" (JArr l') fields)
             else Some fields) = Some fields
            \/ (if Value.truthy (Value.lookup "traits" fields) then
                  l ← EditorJSParser.as_array (Value.lookup "traits" fields);
                  l' ← imapM
                         (GrapeJSParser.reconstructTrait path translationMap)
                         l;
                  Some (Value.set_existing "traits" (JArr l') fields)
                else Some fields) = None).
  { destruct (Value.truthy (Value.lookup "traits" fields)); [|auto].
    destruct (Value.lookup "traits" fields) as [[ | b | q | s | l | fs ]|]
      eqn:Hl; auto.
    change (EditorJSParser.as_array (Some (JArr l))) with (Some l). simpl.
    destruct (imapM_same (GrapeJSParser.reconstructTrait path translationMap)
                l) as [-> | ->]; simpl; auto.
    - intros i trait Htrait. left. apply reconstructTrait_agree.
      intros t Ht.
      apply (Hag (path +:+ ".traits[" +:+ JS.of_nat i +:+ "].value")
               (Stored.field (Some trait) "value") t); [|exact Ht].
      apply Htraits. unfold Component.traits_of. simpl.
      apply list_elem_of_In.
      apply (elem_of_lookup_imap_2
               (fun traitIndex trait0 =>
                  (path +:+ ".traits[" +:+ JS.of_nat traitIndex +:+ "].value",
                   Stored.field (Some trait0) "value")) l trait i Htrait).
    - rewrite set_existing_same by exact Hl. auto. }
  destruct H3 as [-> | ->]; [|right; reflexivity]. simpl.
  rewrite on_components_lookup.
  destruct (Value.lookup "components" fields) as [[ | b | q | s | items | fs ]|]
    eqn:Hitems; auto.
  match goal with
  | |- context [imapM ?f items] => destruct (imapM_same f items) as [-> | ->]
  end; simpl; auto.
  - intros i child Hchild.
    apply (IH fields items i child eq_refl Hitems Hchild).
    intros p x t Hin. apply Hag.
    apply (in_positions_child false fields path items i child _ Hitems Hchild
             Hin).
  - rewrite set_existing_same by exact Hitems. auto.
Qed.

End ComponentAgreement.

(** ** Extraction from GrapeJS documents *)

Lemma attribute_path (path key : string) :
  (path +:+ ".attributes") +:+ "." +:+ key
  = path +:+ ".attributes." +:+ key.
Proof.
  induction path as [|c path IH]; [reflexivity|].
  change (String c ((path +:+ ".attributes") +:+ "." +:+ key)
          = String c (path +:+ ".attributes." +:+ key)).
  f_equal. exact IH.
Qed.

Section ComponentOrigin.
Context `{JsonApi}.

Lemma extractFromAttributes_origin (attributes component : json)
  (path : string) (f : Types.ExtractedText) :
  In f (Extract.pushed
          (GrapeJSParser.extractFromAttributes attributes
             (path +:+ ".attributes") component)) ->
  In (Types.path f, Some (JStr (Types.originalText f)))
    (Component.attributes_of (Some attributes) path).
Proof.
  unfold GrapeJSParser.extractFromAttributes. intros Hin.
  apply in_pushed_forEach in Hin.
  destruct Hin as [j [[key value] [Hentry Hin]]].
  destruct value as [ | b | q | s | items | fields ]; try destruct Hin.
  destruct (JS.truthy (JS.trim s)
            && (JS.includes GrapeJSParser.textualAttributes key
                || GrapeJSParser.isTextualContent key s)); [|destruct Hin].
  destruct Hin as [<-|[]]. cbn [Types.path Types.originalText].
  rewrite attribute_path.
  unfold Component.attributes_of. apply in_map_iff.
  exists (key, JStr s). split; [reflexivity|].
  apply list_elem_of_In, list_elem_of_lookup_2 with j. exact Hentry.
Qed.

Lemma extractFromTrait_origin (component : json) (path : string)
  (traitIndex : nat) (trait : json) (f : Types.ExtractedText) :
  In f (Extract.pushed
          (GrapeJSParser.extractFromTrait component path traitIndex trait)) ->
  Types.path f = path +:+ ".traits[" +:+ JS.of_nat traitIndex +:+ "].value"
  /\ Stored.field (Some trait) "value" = Some (JStr (Types.originalText f)).
Proof.
  unfold GrapeJSParser.extractFromTrait. intros Hin.
  apply in_pushed_lift_bind in Hin. destruct Hin as [value [Hvalue Hin]].
  destruct value as [[ | b | q | s | items | fields ]|]; try destruct Hin.
  destruct (JS.truthy s); [|destruct Hin].
  apply in_pushed_lift_bind in Hin. destruct Hin as [name [Hname Hin]].
  apply in_pushed_lift_bind in Hin. destruct Hin as [key [Hkey Hin]].
  destruct (GrapeJSParser.isTextualContent key s); [|destruct Hin].
  destruct Hin as [<-|[]]. simpl. split; [reflexivity|].
  unfold Stored.field. rewrite Hvalue. reflexivity.
Qed.

#[local] Arguments Value.lookup : simpl never.
#[local] Arguments Value.truthy : simpl never.
#[local] Arguments GrapeJSParser.on_components : simpl never.
#[local] Arguments GrapeJSParser.extractFromAttributes : simpl never.
#[local] Arguments GrapeJSParser.extractFromTrait : simpl never.
#[local] Arguments GrapeJSParser.childPath : simpl never.
#[local] Arguments GrapeJSParser.getComponentContext : simpl never.
#[local] Arguments GrapeJSParser.stripHtml : simpl never.
#[local] Arguments EditorJSParser.as_array : simpl never.
#[local] Arguments Component.attributes_of : simpl never.
#[local] Arguments Component.traits_of : simpl never.
#[local] Arguments Extract.forEach : simpl never.
#[local] Arguments String.append : simpl never.

(** Every fragment of a component tree comes from a string stored in it:
    an attribute or trait value as it is, or a [content] string stripped
    of its markup. *)
Lemma extractFromComponent_origin (component : json) :
  forall path f,
    In f (Extract.pushed (GrapeJSParser.extractFromComponent component path)) ->
    Component.origin
      (fun content_only => Component.positions content_only component path) f.
Proof.
  induction component as [component IH] using component_ind.
  intros path f. destruct component as [ | b | q | s | items | fields ];
    try (intros []; fail).
  simpl. intros Hin.
  apply in_pushed_bind in Hin. destruct Hin as [Hin|[[] [_ Hin]]].
  { destruct (Value.lookup "content" fields)
      as [[ | b | q | s | items | fs ]|] eqn:Hcontent; try destruct Hin.
    destruct (JS.truthy s && JS.truthy (JS.trim (GrapeJSParser.stripHtml s)));
      [|destruct Hin].
    destruct Hin as [<-|[]]. exists s. simpl.
    split; [left; reflexivity|]. right. split; [left|]; reflexivity. }
  apply in_pushed_bind in Hin. destruct Hin as [Hin|[[] [_ Hin]]].
  { destruct (Value.lookup "attributes" fields) as [a|] eqn:Ha;
      [|destruct Hin].
    destruct (Value.truthy (Some a)); [|destruct Hin].
    apply extractFromAttributes_origin in Hin.
    exists (Types.originalText f). split; [|left; reflexivity].
    simpl. right. apply in_or_app. left. apply in_or_app. left.
    exact Hin. }
  apply in_pushed_bind in Hin. destruct Hin as [Hin|[[] [_ Hin]]].
  { destruct (Value.truthy (Value.lookup "traits" fields)); [|destruct Hin].
    apply in_pushed_lift_bind in Hin. destruct Hin as [l [Hl Hin]].
    destruct (Value.lookup "traits" fields) as [[ | b | q | s | l' | fs ]|]
      eqn:Htraits; try discriminate.
    injection Hl as ->.
    apply in_pushed_forEach in Hin. destruct Hin as [i [trait [Htrait Hin]]].
    apply extractFromTrait_origin in Hin. destruct Hin as [Hpath Hvalue].
    exists (Types.originalText f). split; [|left; reflexivity].
    simpl. right. apply in_or_app. left. apply in_or_app. right.
    rewrite Hpath, <- Hvalue. unfold Component.traits_of. simpl.
    apply list_elem_of_In.
    apply (elem_of_lookup_imap_2
             (fun traitIndex trait0 =>
                (path +:+ ".traits[" +:+ JS.of_nat traitIndex +:+ "].value",
                 Stored.field (Some trait0) "value")) l trait i Htrait). }
  rewrite on_components_lookup in Hin.
  destruct (Value.lookup "components" fields) as [[ | b | q | s | items | fs ]|]
    eqn:Hitems; try destruct Hin.
  apply in_pushed_forEach in Hin. destruct Hin as [i [child [Hchild Hin]]].
  apply (IH fields items i child eq_refl Hitems Hchild) in Hin.
  destruct Hin as [s [Hs Ho]]. exists s. split.
  - apply (in_positions_child false fields path items i child _ Hitems Hchild
             Hs).
  - destruct Ho as [Ho|[Hc Ho]]; [left; exact Ho|]. right.
    split; [|exact Ho].
    apply (in_positions_child true fields path items i child _ Hitems Hchild
             Hc).
Qed.

Lemma components_of_document (grapeData : json) (components : Value.t)
  (l : list json) :
  (if Value.is_array (Some grapeData) then Some (Some grapeData)
   else
     c ← Value.prop (Some grapeData) "components";
     Some (if Value.truthy c then c else Some (JArr [])))
  = Some components ->
  EditorJSParser.as_array components = Some l ->
  l = [] \/ l = Component.components_of grapeData.
Proof.
  destruct grapeData as [ | b | q | s | items | fields ];
    cbn [Value.is_array Value.prop mbind option_bind];
    try discriminate.
  1-3: intros [= <-]; intros [= <-]; left; reflexivity.
  - intros [= <-]; intros [= <-]; right; reflexivity.
  - intros [= <-]. unfold Component.components_of, Stored.field.
    cbn [Value.prop].
    destruct (Value.truthy (Value.lookup "components" fields)).
    + destruct (Value.lookup "components" fields)
        as [[ | b | q | s | items | fs ]|]; try discriminate.
      intros [= <-]. right. reflexivity.
    + intros [= <-]. left. reflexivity.
Qed.

Lemma grape_extractFromContent_origin (grapeData : json)
  (f : Types.ExtractedText) :
  In f (Extract.pushed (GrapeJSParser.extractFromContent grapeData)) ->
  Component.origin
    (fun content_only => Component.of_document content_only grapeData) f.
Proof.
  unfold GrapeJSParser.extractFromContent. intros Hin.
  apply in_pushed_lift_bind in Hin.
  destruct Hin as [components [Hcomponents Hin]].
  apply in_pushed_lift_bind in Hin. destruct Hin as [l [Hl Hin]].
  apply in_pushed_forEach in Hin.
  destruct Hin as [i [component [Hcomponent Hin]]].
  destruct (components_of_document grapeData components l Hcomponents Hl)
    as [-> | ->]; [rewrite lookup_nil in Hcomponent; discriminate|].
  apply extractFromComponent_origin in Hin. destruct Hin as [s [Hs Ho]].
  exists s. split.
  - unfold Component.of_document. apply in_concat_imap. eauto.
  - destruct Ho as [Ho|[Hc Ho]]; [left; exact Ho|]. right.
    split; [|exact Ho].
    unfold Component.of_document. apply in_concat_imap. eauto.
Qed.

End ComponentOrigin.

Lemma grape_reconstructContent_agree (grapeData : json)
  (translationMap : gmap string string) :
  Component.accepted grapeData = true ->
  Stored.agrees translationMap (Component.stored grapeData) ->
  GrapeJSParser.reconstructContent grapeData translationMap = Some grapeData
  \/ GrapeJSParser.reconstructContent grapeData translationMap = None.
Proof.
  intros Hacc Hag. unfold GrapeJSParser.reconstructContent.
  assert (Hrun :
            forall l,
              l = Component.components_of grapeData ->
              imapM
                (fun index component =>
                   GrapeJSParser.reconstructComponent component
                     ("[" +:+ JS.of_nat index +:+ "]") translationMap) l
              = Some l
              \/ imapM
                   (fun index component =>
                      GrapeJSParser.reconstructComponent component
                        ("[" +:+ JS.of_nat index +:+ "]") translationMap) l
                 = None).
  { intros l ->. apply imapM_same. intros i component Hcomponent.
    apply reconstructComponent_agree. intros p x t Hin. apply Hag.
    unfold Component.stored, Component.of_document. apply in_concat_imap.
    eauto. }
  unfold Component.accepted, Stored.field in Hacc.
  destruct grapeData as [ | b | q | s | items | fields ];
    try discriminate.
  - simpl. destruct (Hrun items eq_refl) as [-> | ->]; simpl; auto.
  - cbn [Value.is_array Value.prop mbind option_bind] in Hacc |- *.
    simpl in Hacc.
    destruct (Value.lookup "components" fields)
      as [[ | b | q | s | items | fs ]|] eqn:Hitems; try discriminate.
    simpl.
    destruct (Hrun items) as [-> | ->]; simpl; auto.
    + unfold Component.components_of, Stored.field. simpl.
      rewrite Hitems. reflexivity.
    + rewrite set_same by exact Hitems. auto.
Qed.

(** Rebuilding a GrapeJS document from its own fragments, untranslated,
    gives the document back, or throws, when its stored texts have
    pairwise distinct paths and no [content] text changes under
    [stripHtml]. *)
Lemma grapejs_round_trip `{JsonApi} (grapeData : json) :
  Component.accepted grapeData = true ->
  NoDup (map fst (Component.stored grapeData)) ->
  Stored.clean (Component.contents grapeData) ->
  let translations :=
    Position.untranslated
      (Extract.pushed (GrapeJSParser.extractFromContent grapeData)) in
  GrapeJSParser.reconstructContent grapeData
    (Types.translationMap Types.path translations) = Some grapeData
  \/ GrapeJSParser.reconstructContent grapeData
       (Types.translationMap Types.path translations) = None.
Proof.
  intros Hacc Hdistinct Hclean translations.
  apply grape_reconstructContent_agree; [exact Hacc|].
  intros p x t Hin Ht.
  apply untranslated_map_lookup in Ht. destruct Ht as [f [Hf [<- <-]]].
  apply grape_extractFromContent_origin in Hf. destruct Hf as [s [Hs Ho]].
  rewrite (unique_value _ _ _ _ Hdistinct Hin Hs). do 2 f_equal.
  destruct Ho as [->|[Hc ->]]; [reflexivity|].
  symmetry. apply (Hclean _ _ Hc).
Qed.

Lemma validate_accepted `{JsonApi} (content : string) (grapeData : json) :
  JSON_parse content = Some grapeData ->
  GrapeJSParser.validate content = true ->
  Component.accepted grapeData = true.
Proof.
  unfold GrapeJSParser.validate, Component.accepted, Stored.field.
  intros ->. intros Hvalid. apply andb_true_iff in Hvalid.
  destruct Hvalid as [_ Hvalid]. apply orb_true_iff in Hvalid.
  apply orb_true_iff. destruct Hvalid as [Harray|Hcomponents]; [auto|].
  right. destruct (Value.prop (Some grapeData) "components") as [c|];
    [|discriminate].
  apply andb_true_iff in Hcomponents. apply Hcomponents.
Qed.

(** Rebuilding a JSON document from its own fragments, untranslated, gives
    the document back when the positions below its root have pairwise
    distinct paths. *)
Lemma json_round_trip (doc : json) (context : string) :
  NoDup (map fst (Position.below doc "")) ->
  JsonParser.reconstructObject doc ""
    (Types.translationMap Types.path
       (Position.untranslated (JsonParser.extractFromObject doc "" context)))
  = doc.
Proof.
  intros Hdistinct. apply reconstructObject_agree. intros p x t Hin Ht.
  apply untranslated_map_lookup in Ht. destruct Ht as [f [Hf [<- <-]]].
  apply extractFromObject_origin in Hf. destruct Hf as [Hroot|Hbelow].
  - injection Hroot as _ ->. destruct Hin.
  - exact (unique_value _ _ _ _ Hdistinct Hin Hbelow).
Qed.

(** An identity translation changes nothing in HTML and Markdown: no
    fragment passes the test that its translation differs. *)
Lemma untranslated_unchanged (translations : list Types.ExtractedText) :
  Forall (fun t => HtmlParser.changed t = None)
    (Position.untranslated translations).
Proof.
  apply Forall_forall. intros t' Hin. apply list_elem_of_In in Hin.
  unfold Position.untranslated in Hin. apply in_map_iff in Hin.
  destruct Hin as [t [<- _]]. unfold HtmlParser.changed. simpl.
  rewrite String.eqb_refl, andb_false_r. reflexivity.
Qed.

Lemma html_reconstruct_unchanged (content : string)
  (translations : list Types.ExtractedText) :
  Forall (fun t => HtmlParser.changed t = None) translations ->
  HtmlParser.reconstruct content translations = content.
Proof.
  unfold HtmlParser.reconstruct. intros Hall. revert content.
  induction Hall as [|t translations Ht _ IH]; intros content; simpl.
  - reflexivity.
  - rewrite Ht. apply IH.
Qed.

Lemma markdown_reconstruct_unchanged (content : string)
  (translations : list Types.ExtractedText) :
  Forall (fun t => HtmlParser.changed t = None) translations ->
  MarkdownParser.reconstruct content translations = content.
Proof.
  unfold MarkdownParser.reconstruct. intros Hall. revert content.
  induction Hall as [|t translations Ht _ IH]; intros content; simpl.
  - reflexivity.
  - rewrite Ht. apply IH.
Qed.

(** ** Round trip *)


Lemma NoDup_from_decision (l : list string) :
  bool_decide (NoDup l) = true -> NoDup l.
Proof. apply bool_decide_eq_true_1. Qed.

Lemma hello_editor_clean :
  Stored.clean (Stored.of_document Sample.hello_editor).
Proof.
  intros p s Hin. vm_compute in Hin.
  destruct Hin as [Hin|[]]. injection Hin as _ <-. vm_compute. reflexivity.
Qed.

Lemma page_grape_clean : Stored.clean (Component.contents Sample.page_grape).
Proof.
  intros p s Hin. vm_compute in Hin.
  destruct Hin as [Hin|[]]. injection Hin as _ <-. vm_compute. reflexivity.
Qed.



(** ** What reconstruction changes *)

Lemma unmatched_nil (translationMap : gmap string string) :
  Position.unmatched translationMap [].
Proof. intros n Hn. simpl in Hn. lia. Qed.




(** * Further properties *)

(** ** Registry *)

Lemma find_snoc {A : Type} (f : A -> bool) (l : list A) (x : A) :
  List.find f (l ++ [x])
  = match List.find f l with
    | Some y => Some y
    | None => if f x then Some x else None
    end.
Proof.
  induction l as [|y l IH]; simpl; [reflexivity|].
  destruct (f y); [reflexivity|exact IH].
Qed.

(** X1. A parser added with [registerParser] is consulted last: [getParser]
    and [getParserByType] answer with it only when no parser registered
    before it accepts the content, respectively has the type. *)
Theorem registerParser_consulted_last (registry : list ContentParser.t)
  (parser : ContentParser.t) (content : string)
  (contentType : Types.ContentType) :
  ContentParserFactory.getParser_in
    (ContentParserFactory.registerParser registry parser) content
  = match ContentParserFactory.getParser_in registry content with
    | Some found => Some found
    | None =>
        if ContentParser.validate parser content then Some parser else None
    end
  /\ ContentParserFactory.getParserByType_in
       (ContentParserFactory.registerParser registry parser) contentType
     = match
         ContentParserFactory.getParserByType_in registry contentType
       with
       | Some found => Some found
       | None =>
           if bool_decide (ContentParser.type parser = contentType)
           then Some parser else None
       end.
Proof.
  unfold ContentParserFactory.getParser_in,
    ContentParserFactory.getParserByType_in,
    ContentParserFactory.registerParser.
  split; rewrite find_snoc; reflexivity.
Qed.

Lemma structural_validate_needs_json `{JsonApi} (content : string) :
  JSON_parse content = None ->
  EditorJSParser.validate content = false
  /\ GrapeJSParser.validate content = false
  /\ JsonParser.validate content = false.
Proof.
  intros Hparse.
  unfold EditorJSParser.validate, GrapeJSParser.validate, JsonParser.validate.
  rewrite Hparse. auto.
Qed.



(** ** Generic JSON parser *)

Lemma extractFromObject_textual (v : json) :
  forall path context f,
    In f (JsonParser.extractFromObject v path context) ->
    Types.id f = Types.path f
    /\ Types.type f = Types.text
    /\ Types.translatedText f = None
    /\ JsonParser.isTextualContent (Types.originalText f) = true.
Proof.
  induction v as [ | b | q | s | items IH | fields IH ] using json_ind;
    intros path context f; simpl; try (intros []; fail).
  - destruct (JsonParser.isTextualContent s) eqn:Hs; [|intros []].
    intros [<-|[]]. simpl. auto.
  - rewrite mapi_imap. intros Hf. apply in_concat_imap in Hf.
    destruct Hf as [i [item [Hitem Hf]]]. rewrite Forall_lookup in IH.
    apply (IH i item Hitem _ _ _ Hf).
  - intros Hf. apply in_concat in Hf. destruct Hf as [fs [Hfs Hf]].
    apply in_map_iff in Hfs. destruct Hfs as [[key value] [<- Hfield]].
    rewrite Forall_forall in IH.
    apply (IH (key, value) (proj2 (list_elem_of_In fields (key, value)) Hfield)
             _ _ _ Hf).
Qed.





(** ** Rejected content and empty fragment lists *)

Lemma structural_parse_rejected `{JsonApi} (content : string) :
  (EditorJSParser.validate content = false ->
   EditorJSParser.parse content = [])
  /\ (GrapeJSParser.validate content = false ->
      GrapeJSParser.parse content = [])
  /\ (JsonParser.validate content = false -> JsonParser.parse content = []).
Proof.
  unfold EditorJSParser.validate, EditorJSParser.parse,
    GrapeJSParser.validate, GrapeJSParser.parse,
    JsonParser.validate, JsonParser.parse.
  destruct (JSON_parse content) as [parsed|]; [|auto].
  split; [|split; [|discriminate]].
  - unfold EditorJSParser.extractFromContent.
    destruct parsed as [ | b | q | s | items | fields ]; simpl;
      try reflexivity.
    destruct (Value.lookup "blocks" fields)
      as [[ | b | q | s | items | fs ]|]; simpl; try reflexivity.
    discriminate.
  - unfold GrapeJSParser.extractFromContent.
    destruct parsed as [ | b | q | s | items | fields ]; simpl;
      try reflexivity; try discriminate.
    destruct (Value.lookup "components" fields)
      as [[ | b | q | s | items | fs ]|]; simpl; try reflexivity;
      try discriminate.
    + destruct b; reflexivity.
    + destruct (negb (Qeq_bool q 0)); reflexivity.
    + destruct (JS.truthy s); reflexivity.
Qed.

(** X5. Content a structural detector rejects yields no fragment: [parse]
    of the Editor.js, GrapeJS and generic JSON parsers returns the empty
    list on content their own [validate] rejects, every exception being
    caught before anything is pushed. *)
Theorem rejected_content_yields_no_fragments `{JsonApi} (content : string) :
  (EditorJSParser.validate content = false ->
   EditorJSParser.parse content = [])
  /\ (GrapeJSParser.validate content = false ->
      GrapeJSParser.parse content = [])
  /\ (JsonParser.validate content = false -> JsonParser.parse content = []).
Proof. apply structural_parse_rejected. Qed.

Lemma rejected_content_yields_no_fragments_witness :
  @EditorJSParser.validate Fixture.api (Sample.print Fixture.settings) = false
  /\ @EditorJSParser.parse Fixture.api (Sample.print Fixture.settings) = []
  /\ @GrapeJSParser.validate Fixture.api (Sample.print Fixture.settings)
     = false
  /\ @GrapeJSParser.parse Fixture.api (Sample.print Fixture.settings) = [].
Proof.
  assert (Heditor : @EditorJSParser.validate Fixture.api
                      (Sample.print Fixture.settings) = false)
    by (vm_compute; reflexivity).
  assert (Hgrape : @GrapeJSParser.validate Fixture.api
                     (Sample.print Fixture.settings) = false)
    by (vm_compute; reflexivity).
  destruct (@rejected_content_yields_no_fragments Fixture.api
              (Sample.print Fixture.settings)) as [He [Hg _]].
  split; [exact Heditor|]. split; [exact (He Heditor)|].
  split; [exact Hgrape|]. exact (Hg Hgrape).
Defined.

Lemma set_absent (key : string) (v : json) (fields : list (string * json)) :
  Value.lookup key fields = None ->
  Value.set key v fields = fields ++ [(key, v)].
Proof.
  induction fields as [|[k x] fields IH]; simpl; [reflexivity|].
  destruct (String.eqb k key); [discriminate|].
  intros Hv. rewrite IH by exact Hv. reflexivity.
Qed.



(** X7. The GrapeJS parser rebuilds a JSON object that has no [components]
    property with an empty [components] array added at its end, whatever
    the fragments: what the detector rejects is not returned as it was. *)
Theorem grapejs_reconstruct_adds_components `{JsonApi} (content : string)
  (fields : list (string * json)) (translations : list Types.ExtractedText) :
  JSON_parse content = Some (JObj fields) ->
  Value.lookup "components" fields = None ->
  GrapeJSParser.validate content = false
  /\ GrapeJSParser.reconstruct content translations
     = JSON_stringify (JObj (fields ++ [("components", JArr [])])) 2.
Proof.
  intros Hparse Hnone.
  unfold GrapeJSParser.validate, GrapeJSParser.reconstruct,
    GrapeJSParser.reconstructContent.
  rewrite Hparse. simpl. rewrite Hnone. simpl.
  rewrite set_absent by exact Hnone. auto.
Qed.

Lemma grapejs_reconstruct_adds_components_witness :
  @JSON_parse Fixture.api (Sample.print Fixture.settings)
  = Some (JObj [("theme", JStr "dark mode")])
  /\ Value.lookup "components" [("theme", JStr "dark mode")] = None
  /\ @GrapeJSParser.reconstruct Fixture.api (Sample.print Fixture.settings) []
     = Sample.print
         (JObj [("theme", JStr "dark mode"); ("components", JArr [])]).
Proof.
  assert (Hparse : @JSON_parse Fixture.api (Sample.print Fixture.settings)
                   = Some (JObj [("theme", JStr "dark mode")]))
    by (vm_compute; reflexivity).
  split; [exact Hparse|]. split; [reflexivity|].
  apply (@grapejs_reconstruct_adds_components Fixture.api
           (Sample.print Fixture.settings) [("theme", JStr "dark mode")] []
           Hparse eq_refl).
Defined.

(** ** Markdown and HTML *)

Lemma forEach_from_app (st : MarkdownParser.state) (l1 l2 : list string) :
  forall lineIndex,
    MarkdownParser.forEach_from st lineIndex (l1 ++ l2)
    = MarkdownParser.forEach_from
        (MarkdownParser.forEach_from st lineIndex l1)
        (lineIndex + List.length l1) l2.
Proof.
  revert st. induction l1 as [|line l1 IH]; intros st lineIndex;
    cbn [MarkdownParser.forEach_from app List.length].
  - rewrite Nat.add_0_r. reflexivity.
  - rewrite IH. f_equal. lia.
Qed.

Lemma step_inside_fence (st : MarkdownParser.state) (lineIndex : nat)
  (line : string) :
  MarkdownParser.inCodeBlock st = true ->
  (JS.startsWith (JS.trim line) "```" = true ->
   JS.trim line <> MarkdownParser.codeBlockFence st
   /\ JS.trim line <> "```") ->
  MarkdownParser.step st lineIndex line = st.
Proof.
  intros Hin Hopen. unfold MarkdownParser.step. rewrite Hin.
  cbn [negb].
  destruct (JS.startsWith (JS.trim line) "```"); [|reflexivity].
  destruct (Hopen eq_refl) as [Hfence Hbare].
  apply String.eqb_neq in Hfence, Hbare. rewrite Hfence, Hbare. reflexivity.
Qed.

Lemma forEach_from_inside_fence (st : MarkdownParser.state)
  (lines : list string) :
  MarkdownParser.inCodeBlock st = true ->
  Forall
    (fun line =>
       JS.startsWith (JS.trim line) "```" = true ->
       JS.trim line <> MarkdownParser.codeBlockFence st
       /\ JS.trim line <> "```") lines ->
  forall lineIndex, MarkdownParser.forEach_from st lineIndex lines = st.
Proof.
  intros Hin Hlines. induction Hlines as [|line lines Hline _ IH];
    intros lineIndex; cbn [MarkdownParser.forEach_from]; [reflexivity|].
  rewrite step_inside_fence by assumption. apply IH.
Qed.



Lemma html_reconstruct_filter (translations : list Types.ExtractedText) :
  forall content,
    HtmlParser.reconstruct content translations
    = HtmlParser.reconstruct content (List.filter is_changed translations).
Proof.
  unfold HtmlParser.reconstruct.
  induction translations as [|t translations IH]; intros c;
    cbn [foldl List.filter]; [reflexivity|].
  unfold is_changed at 1.
  destruct (HtmlParser.changed t) as [s|] eqn:Hs; cbn [foldl];
    rewrite ?Hs; apply IH.
Qed.

Lemma markdown_reconstruct_filter (translations : list Types.ExtractedText) :
  forall content,
    MarkdownParser.reconstruct content translations
    = MarkdownParser.reconstruct content
        (List.filter is_changed translations).
Proof.
  unfold MarkdownParser.reconstruct.
  induction translations as [|t translations IH]; intros c;
    cbn [foldl List.filter]; [reflexivity|].
  unfold is_changed at 1.
  destruct (HtmlParser.changed t) as [s|] eqn:Hs; cbn [foldl];
    rewrite ?Hs; apply IH.
Qed.

(** X9. The text-substitution parsers skip every fragment whose
    [translatedText] is missing, empty or equal to its [originalText]:
    removing these fragments from the list does not change what
    [reconstruct] of the HTML and of the Markdown parser returns, and a
    list of such fragments alone leaves the content as it is. *)
Theorem reconstruct_skips_unchanged (content : string)
  (translations : list Types.ExtractedText) :
  HtmlParser.reconstruct content translations
  = HtmlParser.reconstruct content (List.filter is_changed translations)
  /\ MarkdownParser.reconstruct content translations
     = MarkdownParser.reconstruct content
         (List.filter is_changed translations)
  /\ (List.filter is_changed translations = [] ->
      HtmlParser.reconstruct content translations = content
      /\ MarkdownParser.reconstruct content translations = content).
Proof.
  split; [apply html_reconstruct_filter|].
  split; [apply markdown_reconstruct_filter|].
  intros Hnone.
  rewrite html_reconstruct_filter, markdown_reconstruct_filter, Hnone. auto.
Qed.

Lemma reconstruct_skips_unchanged_witness :
  let untouched :=
    [ {| Types.id := "h1[0].textNode[0]"; Types.originalText := "Welcome";
         Types.translatedText := Some ""; Types.path := "h1[0].textNode[0]";
         Types.context := "text in h1"; Types.type := Types.text |} ] in
  List.filter is_changed untouched = []
  /\ HtmlParser.reconstruct "<h1>Welcome</h1>" untouched = "<h1>Welcome</h1>"
  /\ MarkdownParser.reconstruct "# Welcome" untouched = "# Welcome".
Proof.
  intros untouched.
  assert (Hnone : List.filter is_changed untouched = []) by reflexivity.
  split; [exact Hnone|].
  destruct (reconstruct_skips_unchanged "<h1>Welcome</h1>" untouched)
    as [_ [_ Hhtml]].
  destruct (reconstruct_skips_unchanged "# Welcome" untouched)
    as [_ [_ Hmarkdown]].
  split; [apply (Hhtml Hnone)|apply (Hmarkdown Hnone)].
Defined.

(** ** Pauses of the batched translation *)

Lemma loop_delays
  (createTranslation :
     nat -> EnhancedTranslationService.TranslationRequest
     -> outcome string (option string))
  (schedule : nat -> list nat) (extractedTexts : list Types.ExtractedText)
  (sourceLanguage targetLanguage : string) :
  forall (fuel i : nat) (results : list Types.ExtractedText)
         (delays : list nat) out,
    EnhancedTranslationService.loop createTranslation schedule fuel
      extractedTexts sourceLanguage targetLanguage i results delays
    = Some (Resolved out) ->
    snd out
    = delays
        ++ replicate ((List.length extractedTexts - i - 1) / 10) 100%nat.
Proof.
  induction fuel as [|fuel IH]; intros i results delays out;
    cbn [EnhancedTranslationService.loop]; [discriminate|].
  destruct (i <? List.length extractedTexts)%nat eqn:Hi.
  - apply Nat.ltb_lt in Hi.
    destruct (Promise.all _ _) as [[batchResults|e]|];
      [|discriminate|discriminate].
    intros Hloop. apply IH in Hloop. rewrite Hloop.
    unfold EnhancedTranslationService.batchSize.
    destruct (i + 10 <? List.length extractedTexts)%nat eqn:Hmore.
    + apply Nat.ltb_lt in Hmore. rewrite <- app_assoc. f_equal.
      replace (List.length extractedTexts - i - 1)%nat
        with (List.length extractedTexts - (i + 10) - 1 + 1 * 10)%nat by lia.
      rewrite Nat.div_add by lia. rewrite Nat.add_1_r. reflexivity.
    + apply Nat.ltb_ge in Hmore. f_equal.
      replace (List.length extractedTexts - (i + 10) - 1)%nat with 0%nat
        by lia.
      rewrite (Nat.div_small (List.length extractedTexts - i - 1))
        by lia.
      reflexivity.
  - apply Nat.ltb_ge in Hi. intros [= <-]. simpl.
    replace (List.length extractedTexts - i - 1)%nat with 0%nat by lia.
    simpl. rewrite app_nil_r. reflexivity.
Qed.

(** X10. When every call settles, the batched translation resolves with
    the fragments in input order, each carrying the backend's translation
    or, failing that, its original text, after pausing 100 ms between
    consecutive batches of ten and not after the last: [(n - 1) / 10]
    pauses for [n] fragments, none for an empty list. *)
Theorem translateExtractedTexts_result_and_pauses
  (createTranslation :
     nat -> EnhancedTranslationService.TranslationRequest
     -> outcome string (option string))
  (schedule : nat -> list nat) (extractedTexts : list Types.ExtractedText)
  (sourceLanguage targetLanguage : string) :
  Batching.fair schedule (List.length extractedTexts) ->
  EnhancedTranslationService.translateExtractedTexts createTranslation
    schedule extractedTexts sourceLanguage targetLanguage
  = Some
      (Resolved
         (imap
            (Batching.translated createTranslation sourceLanguage
               targetLanguage) extractedTexts,
          replicate ((List.length extractedTexts - 1) / 10) 100%nat)).
Proof.
  intros Hfair.
  destruct (translateExtractedTexts_translates createTranslation schedule
              sourceLanguage targetLanguage extractedTexts Hfair)
    as [delays Hrun].
  rewrite Hrun. do 3 f_equal.
  unfold EnhancedTranslationService.translateExtractedTexts in Hrun.
  apply loop_delays in Hrun. simpl in Hrun. rewrite Hrun.
  rewrite Nat.sub_0_r. reflexivity.
Qed.

Lemma translateExtractedTexts_result_and_pauses_witness :
  Batching.fair Batching.last_first (List.length Batching.twelve)
  /\ EnhancedTranslationService.translateExtractedTexts
       Batching.shouting_backend Batching.last_first Batching.twelve
       "en" "es"
     = Some
         (Resolved
            (imap (Batching.translated Batching.shouting_backend "en" "es")
               Batching.twelve, [100%nat])).
Proof.
  split; [apply last_first_fair|].
  apply (translateExtractedTexts_result_and_pauses Batching.shouting_backend
           Batching.last_first Batching.twelve "en" "es").
  apply last_first_fair.
Defined.

(** ** Giving up *)

Lemma sum_backoff (d : Z) (k : nat) :
  foldr Z.add 0%Z (map (fun a => (d * 2 ^ Z.of_nat a)%Z) (seq 0 k))
  = (d * (2 ^ Z.of_nat k - 1))%Z.
Proof.
  induction k as [|k IH]; [simpl; lia|].
  rewrite seq_S, map_app, foldr_app. simpl.
  assert (Hshift : forall (l : list Z) (x : Z),
            foldr Z.add x l = (foldr Z.add 0 l + x)%Z).
  { induction l as [|y l IHl]; intros x; simpl; [lia|].
    rewrite IHl. lia. }
  rewrite Hshift, IH.
  rewrite Nat2Z.inj_succ, Z.pow_succ_r by lia. lia.
Qed.

(** X11. An operation that fails on every attempt costs
    [maxRetries + 1] invocations and [retryDelay * (2^maxRetries - 1)]
    milliseconds of waiting before [executeWithRetry] throws the error of
    the last attempt; with a negative [maxRetries] the operation is never
    invoked and the call throws [undefined]. *)
Theorem executeWithRetry_gives_up {T : Type}
  (config : DeepLService.DeepLConfig)
  (operation : nat -> outcome DeepLService.Error T) :
  (forall attempt, exists e, operation attempt = Rejected e) ->
  ((0 <= DeepLService.maxRetries config)%Z ->
   exists log e,
     DeepLService.executeWithRetry config operation
     = (log, Rejected (Some e))
     /\ operation (Z.to_nat (DeepLService.maxRetries config)) = Rejected e
     /\ Z.of_nat (DeepLService.invocations log)
        = (DeepLService.maxRetries config + 1)%Z
     /\ Memory.total_delay log
        = (DeepLService.retryDelay config
           * (2 ^ DeepLService.maxRetries config - 1))%Z)
  /\ ((DeepLService.maxRetries config < 0)%Z ->
      DeepLService.executeWithRetry config operation = ([], Rejected None)).
Proof.
  intros Hfail. unfold DeepLService.executeWithRetry. split.
  - intros Hmax.
    set (k := Z.to_nat (DeepLService.maxRetries config)).
    destruct (Hfail k) as [e He].
    replace (Z.to_nat (DeepLService.maxRetries config + 1)) with (S k)
      by lia.
    exists (ErrorKinds.failed_attempts config 0 k ++ [DeepLService.Invoke k]),
      e.
    split; [|split; [exact He|split]].
    + apply (attempts_exhausted config operation e k 0%nat None);
        [simpl; lia | intros a _; apply Hfail | exact He].
    + rewrite invocations_failed_attempts.
      change (DeepLService.invocations [DeepLService.Invoke k]) with 1%nat.
      lia.
    + unfold Memory.total_delay. rewrite delays_failed_attempts.
      change (DeepLService.delays [DeepLService.Invoke k]) with (@nil Z).
      rewrite app_nil_r, sum_backoff. f_equal. f_equal. f_equal. lia.
  - intros Hneg.
    replace (Z.to_nat (DeepLService.maxRetries config + 1)) with 0%nat
      by lia.
    reflexivity.
Qed.

Lemma executeWithRetry_gives_up_witness :
  (forall attempt,
     exists e, RetryExamples.always_bad_request attempt = Rejected e)
  /\ (0 <= DeepLService.maxRetries ErrorKinds.three_retries)%Z
  /\ exists log e,
       DeepLService.executeWithRetry ErrorKinds.three_retries
         RetryExamples.always_bad_request = (log, Rejected (Some e))
       /\ Z.of_nat (DeepLService.invocations log) = 4%Z
       /\ Memory.total_delay log = 7000%Z.
Proof.
  assert (Hfail : forall attempt,
            exists e, RetryExamples.always_bad_request attempt = Rejected e)
    by (intros attempt; eexists; reflexivity).
  assert (Hmax : (0 <= DeepLService.maxRetries ErrorKinds.three_retries)%Z)
    by (simpl; lia).
  split; [exact Hfail|]. split; [exact Hmax|].
  destruct (executeWithRetry_gives_up ErrorKinds.three_retries
              RetryExamples.always_bad_request Hfail) as [Hgives _].
  destruct (Hgives Hmax) as [log [e [Hrun [_ [Hcount Hdelay]]]]].
  exists log, e. auto.
Defined.

(** ** Translation memory *)

Lemma iter_used_fields (now : string) (n : nat)
  (entry : DeepLService.TranslationMemoryEntry) :
  DeepLService.id (Nat.iter n (DeepLService.used now) entry)
  = DeepLService.id entry
  /\ DeepLService.translatedText (Nat.iter n (DeepLService.used now) entry)
     = DeepLService.translatedText entry
  /\ DeepLService.usageCount (Nat.iter n (DeepLService.used now) entry)
     = (DeepLService.usageCount entry + Z.of_nat n)%Z.
Proof.
  induction n as [|n [Hid [Htr Hcount]]]; [simpl; repeat split; lia|].
  rewrite Nat.iter_succ. simpl. rewrite Hid, Htr, Hcount.
  repeat split; lia.
Qed.

(** A lookup changes nothing but the usage statistics of the entries it
    finds. *)
Lemma checkTranslationMemory_bumps (now sourceLanguage targetLanguage : string)
  (texts : list string) :
  forall (memory : gmap string DeepLService.TranslationMemoryEntry) key,
    exists n,
      fst (DeepLService.checkTranslationMemory now memory texts
             sourceLanguage targetLanguage) !! key
      = Nat.iter n (DeepLService.used now) <$> memory !! key.
Proof.
  induction texts as [|text texts IH]; intros memory key;
    cbn [DeepLService.checkTranslationMemory].
  - exists 0%nat. simpl. destruct (memory !! key); reflexivity.
  - set (k := DeepLService.getMemoryKey text sourceLanguage targetLanguage).
    destruct (memory !! k) as [entry|] eqn:Hentry.
    + destruct (IH (<[k := DeepLService.used now entry]> memory) key)
        as [n Hn].
      destruct (DeepLService.checkTranslationMemory now _ texts _ _)
        as [memory' results]. simpl in *.
      destruct (decide (k = key)) as [<-|Hne].
      * exists (S n). rewrite Hn, lookup_insert_eq, Hentry.
        cbn [fmap option_fmap option_map]. f_equal. symmetry.
        apply Nat.iter_succ_r.
      * exists n. rewrite Hn, lookup_insert_ne by exact Hne. reflexivity.
    + destruct (IH memory key) as [n Hn].
      destruct (DeepLService.checkTranslationMemory now memory texts _ _)
        as [memory' results]. simpl in *. exists n. exact Hn.
Qed.

Lemma stored_after_bumps
  (memory memory' : gmap string DeepLService.TranslationMemoryEntry)
  (now : string) :
  (forall key, exists n,
     memory' !! key = Nat.iter n (DeepLService.used now) <$> memory !! key) ->
  forall sourceLanguage targetLanguage text,
    Memory.stored memory' sourceLanguage targetLanguage text
    = Memory.stored memory sourceLanguage targetLanguage text.
Proof.
  intros Hbumps sourceLanguage targetLanguage text. unfold Memory.stored.
  destruct (Hbumps (DeepLService.getMemoryKey text sourceLanguage
                      targetLanguage)) as [n ->].
  destruct (memory !! _) as [entry|]; simpl; [|reflexivity].
  apply iter_used_fields.
Qed.

(** A lookup answers, for each text, with the translation the memory held
    for it before the call. *)
Lemma checkTranslationMemory_results
  (now sourceLanguage targetLanguage : string) (texts : list string) :
  forall memory : gmap string DeepLService.TranslationMemoryEntry,
    snd (DeepLService.checkTranslationMemory now memory texts sourceLanguage
           targetLanguage)
    = map (Memory.stored memory sourceLanguage targetLanguage) texts.
Proof.
  induction texts as [|text texts IH]; intros memory;
    cbn [DeepLService.checkTranslationMemory map]; [reflexivity|].
  assert (Hhead :
            Memory.stored memory sourceLanguage targetLanguage text
            = match
                memory
                  !! DeepLService.getMemoryKey text sourceLanguage
                       targetLanguage
              with
              | Some entry => DeepLService.translatedText entry
              | None => None
              end) by reflexivity.
  set (k := DeepLService.getMemoryKey text sourceLanguage targetLanguage)
    in *.
  destruct (memory !! k) as [entry|] eqn:Hentry; rewrite Hhead.
  - specialize (IH (<[k := DeepLService.used now entry]> memory)).
    destruct (DeepLService.checkTranslationMemory now _ texts _ _)
      as [memory' results]. cbn [snd] in *.
    f_equal. rewrite IH. apply map_ext.
    intros text'. apply (stored_after_bumps memory _ now).
    intros key. destruct (decide (k = key)) as [<-|Hne].
    + exists 1%nat. rewrite lookup_insert_eq, Hentry. reflexivity.
    + exists 0%nat. rewrite lookup_insert_ne by exact Hne.
      destruct (memory !! key); reflexivity.
  - specialize (IH memory).
    destruct (DeepLService.checkTranslationMemory now memory texts _ _)
      as [memory' results]. cbn [snd] in *.
    f_equal. exact IH.
Qed.

Lemma filter_uncached_nil (texts : list string)
  (cachedResults : list (option string)) :
  Forall (fun r => DeepLService.falsy r = false) cachedResults ->
  DeepLService.filter_uncached texts cachedResults = [].
Proof.
  intros Hall. revert texts.
  induction Hall as [|r rs Hr _ IH]; intros [|t ts]; simpl; try reflexivity.
  rewrite Hr. apply IH.
Qed.

Lemma merge_length (cachedResults : list (option string))
  (translations : list string) :
  forall uncachedIndex,
    List.length (DeepLService.merge cachedResults translations uncachedIndex)
    = List.length cachedResults.
Proof.
  induction cachedResults as [|r rs IH]; intros uncachedIndex; simpl;
    [reflexivity|].
  destruct (DeepLService.falsy r); simpl; rewrite IH; reflexivity.
Qed.

(** X12. A call all of whose texts have a non-empty translation in the
    memory, under the source language given or [auto], sends no request:
    it resolves with the stored translations in the order of the texts,
    repeated texts included, and changes nothing in the memory but the
    usage statistics of the entries found. *)
Theorem translateText_served_from_memory
  (config : DeepLService.DeepLConfig)
  (post : nat -> DeepLService.DeepLTranslationRequest
          -> outcome DeepLService.Error (list DeepLService.Translated))
  (now : string) (st : DeepLService.state) (texts : list string)
  (targetLanguage : string) (sourceLanguage : option string) :
  let language := JS.or_else (default "" sourceLanguage) "auto" in
  Forall
    (fun text =>
       DeepLService.falsy
         (Memory.stored (DeepLService.translationMemory st) language
            targetLanguage text) = false) texts ->
  exists memory',
    DeepLService.translateText config post now st texts targetLanguage
      sourceLanguage
    = ({| DeepLService.translationMemory := memory';
          DeepLService.requests := DeepLService.requests st |},
       Resolved
         (map
            (Memory.stored (DeepLService.translationMemory st) language
               targetLanguage) texts))
    /\ forall key,
         exists n,
           memory' !! key
           = Nat.iter n (DeepLService.used now)
               <$> DeepLService.translationMemory st !! key.
Proof.
  intros language Hall. unfold DeepLService.translateText.
  change (match sourceLanguage with Some s => s | None => "" end)
    with (default "" sourceLanguage).
  fold language.
  pose proof (checkTranslationMemory_results now language targetLanguage
                texts (DeepLService.translationMemory st)) as Hresults.
  pose proof (checkTranslationMemory_bumps now language targetLanguage texts
                (DeepLService.translationMemory st)) as Hbumps.
  destruct (DeepLService.checkTranslationMemory now _ texts language
              targetLanguage) as [memory1 cachedResults].
  simpl in Hresults, Hbumps. subst cachedResults.
  rewrite filter_uncached_nil.
  - exists memory1. split; [reflexivity|exact Hbumps].
  - apply Forall_map. exact Hall.
Qed.

Lemma translateText_served_from_memory_witness :
  let st :=
    fst (DeepLService.translateText CacheExamples.config
           CacheExamples.shouting_post "2024-01-01T00:00:00.000Z"
           CacheExamples.fresh ["Hello"; "World"] "DE" (Some "EN")) in
  Forall
    (fun text =>
       DeepLService.falsy
         (Memory.stored (DeepLService.translationMemory st)
            (JS.or_else (default "" (Some "EN")) "auto") "DE" text) = false)
    ["World"; "Hello"; "World"]
  /\ exists memory',
       DeepLService.translateText CacheExamples.config
         CacheExamples.shouting_post "2024-01-02T00:00:00.000Z" st
         ["World"; "Hello"; "World"] "DE" (Some "EN")
       = ({| DeepLService.translationMemory := memory';
             DeepLService.requests := DeepLService.requests st |},
          Resolved [Some "WORLD"; Some "HELLO"; Some "WORLD"]).
Proof.
  intros st.
  assert (Hall :
            Forall
              (fun text =>
                 DeepLService.falsy
                   (Memory.stored (DeepLService.translationMemory st)
                      (JS.or_else (default "" (Some "EN")) "auto") "DE" text)
                 = false) ["World"; "Hello"; "World"]).
  { repeat constructor; vm_compute; reflexivity. }
  split; [exact Hall|].
  destruct (translateText_served_from_memory CacheExamples.config
              CacheExamples.shouting_post "2024-01-02T00:00:00.000Z" st
              ["World"; "Hello"; "World"] "DE" (Some "EN") Hall)
    as [memory' [Hrun _]].
  exists memory'. rewrite Hrun. f_equal.
Defined.

Lemma translateText_length
  (config : DeepLService.DeepLConfig)
  (post : nat -> DeepLService.DeepLTranslationRequest
          -> outcome DeepLService.Error (list DeepLService.Translated))
  (now : string) (st st' : DeepLService.state) (texts : list string)
  (targetLanguage : string) (sourceLanguage : option string)
  (results : list (option string)) :
  DeepLService.translateText config post now st texts targetLanguage
    sourceLanguage = (st', Resolved results) ->
  List.length results = List.length texts.
Proof.
  unfold DeepLService.translateText.
  set (language := JS.or_else _ "auto").
  pose proof (checkTranslationMemory_results now language targetLanguage
                texts (DeepLService.translationMemory st)) as Hresults.
  destruct (DeepLService.checkTranslationMemory now _ texts language
              targetLanguage) as [memory1 cachedResults].
  simpl in Hresults.
  assert (Hlength : List.length cachedResults = List.length texts)
    by (rewrite Hresults; apply length_map).
  destruct (DeepLService.filter_uncached texts cachedResults) as [|u us].
  - intros [= _ <-]. exact Hlength.
  - destruct (DeepLService.executeWithRetry config _) as [log [tl|error]].
    + intros [= _ <-]. rewrite merge_length. exact Hlength.
    + discriminate.
Qed.

(** X13. [translateText] answers every text: when it resolves, the list
    it resolves with has the length of [texts], whatever the memory held
    and however many translations the backend returned. *)
Theorem translateText_one_result_per_text
  (config : DeepLService.DeepLConfig)
  (post : nat -> DeepLService.DeepLTranslationRequest
          -> outcome DeepLService.Error (list DeepLService.Translated))
  (now : string) (st st' : DeepLService.state) (texts : list string)
  (targetLanguage : string) (sourceLanguage : option string)
  (results : list (option string)) :
  DeepLService.translateText config post now st texts targetLanguage
    sourceLanguage = (st', Resolved results) ->
  List.length results = List.length texts.
Proof. apply translateText_length. Qed.

Lemma translateText_one_result_per_text_witness :
  exists st' results,
    DeepLService.translateText CacheExamples.config
      CacheExamples.shouting_post "2024-01-01T00:00:00.000Z"
      CacheExamples.fresh ["Hello"; "World"] "DE" (Some "EN")
    = (st', Resolved results)
    /\ List.length results = 2%nat.
Proof.
  destruct (DeepLService.translateText CacheExamples.config
              CacheExamples.shouting_post "2024-01-01T00:00:00.000Z"
              CacheExamples.fresh ["Hello"; "World"] "DE" (Some "EN"))
    as [st' [results|error]] eqn:Hrun.
  - exists st', results. split; [reflexivity|].
    apply (translateText_one_result_per_text CacheExamples.config
             CacheExamples.shouting_post "2024-01-01T00:00:00.000Z"
             CacheExamples.fresh st' ["Hello"; "World"] "DE" (Some "EN")
             results Hrun).
  - vm_compute in Hrun. discriminate.
Defined.

Lemma executeWithRetry_all_fail {T : Type}
  (config : DeepLService.DeepLConfig)
  (operation : nat -> outcome DeepLService.Error T) :
  (forall attempt, exists e, operation attempt = Rejected e) ->
  (0 <= DeepLService.maxRetries config)%Z ->
  exists e,
    operation (Z.to_nat (DeepLService.maxRetries config)) = Rejected e
    /\ DeepLService.executeWithRetry config operation
       = (ErrorKinds.failed_attempts config 0
            (Z.to_nat (DeepLService.maxRetries config))
            ++ [DeepLService.Invoke
                  (Z.to_nat (DeepLService.maxRetries config))],
          Rejected (Some e)).
Proof.
  intros Hfail Hmax. unfold DeepLService.executeWithRetry.
  set (k := Z.to_nat (DeepLService.maxRetries config)).
  destruct (Hfail k) as [e He]. exists e. split; [exact He|].
  replace (Z.to_nat (DeepLService.maxRetries config + 1)) with (S k) by lia.
  apply (attempts_exhausted config operation e k 0%nat None);
    [simpl; lia | intros a _; apply Hfail | exact He].
Qed.

Lemma filter_uncached_cons (texts : list string)
  (cachedResults : list (option string)) :
  List.length cachedResults = List.length texts ->
  Exists (fun r => DeepLService.falsy r = true) cachedResults ->
  exists u us, DeepLService.filter_uncached texts cachedResults = u :: us.
Proof.
  intros Hlength Hsome. revert texts Hlength.
  induction Hsome as [r rs Hr|r rs _ IH]; intros [|t ts] Hlength;
    try discriminate; simpl.
  - rewrite Hr. eauto.
  - destruct (DeepLService.falsy r); [eauto|].
    apply IH. simpl in Hlength. lia.
Qed.

Lemma translateText_all_fail
  (config : DeepLService.DeepLConfig)
  (post : nat -> DeepLService.DeepLTranslationRequest
          -> outcome DeepLService.Error (list DeepLService.Translated))
  (now : string) (st : DeepLService.state) (texts : list string)
  (targetLanguage : string) (sourceLanguage : option string) :
  let language := JS.or_else (default "" sourceLanguage) "auto" in
  (forall n request, exists e, post n request = Rejected e) ->
  (0 <= DeepLService.maxRetries config)%Z ->
  Exists
    (fun text =>
       DeepLService.falsy
         (Memory.stored (DeepLService.translationMemory st) language
            targetLanguage text) = true) texts ->
  exists st' e,
    DeepLService.translateText config post now st texts targetLanguage
      sourceLanguage = (st', Rejected (Some e))
    /\ Z.of_nat (List.length (DeepLService.requests st'))
       = (Z.of_nat (List.length (DeepLService.requests st))
          + DeepLService.maxRetries config + 1)%Z
    /\ forall key,
         exists n,
           DeepLService.translationMemory st' !! key
           = Nat.iter n (DeepLService.used now)
               <$> DeepLService.translationMemory st !! key.
Proof.
  intros language Hdown Hmax Hmiss. unfold DeepLService.translateText.
  change (match sourceLanguage with Some s => s | None => "" end)
    with (default "" sourceLanguage).
  fold language.
  pose proof (checkTranslationMemory_results now language targetLanguage
                texts (DeepLService.translationMemory st)) as Hresults.
  pose proof (checkTranslationMemory_bumps now language targetLanguage texts
                (DeepLService.translationMemory st)) as Hbumps.
  destruct (DeepLService.checkTranslationMemory now _ texts language
              targetLanguage) as [memory1 cachedResults].
  cbn [fst snd] in Hresults, Hbumps.
  destruct (filter_uncached_cons texts cachedResults) as [u [us ->]].
  { rewrite Hresults. apply length_map. }
  { rewrite Hresults. apply Exists_exists.
    apply Exists_exists in Hmiss. destruct Hmiss as [text [Hin Hfalsy]].
    exists (Memory.stored (DeepLService.translationMemory st) language
              targetLanguage text).
    split; [|exact Hfalsy]. apply list_elem_of_In, in_map.
    apply list_elem_of_In. exact Hin. }
  match goal with
  | |- context [DeepLService.executeWithRetry config ?operation] =>
      destruct (executeWithRetry_all_fail config operation) as [e [_ ->]];
        [intros attempt; apply Hdown | exact Hmax |]
  end.
  eexists. exists e. split; [reflexivity|]. cbn [DeepLService.requests
    DeepLService.translationMemory]. split; [|exact Hbumps].
  rewrite length_app, length_replicate, invocations_failed_attempts.
  change (DeepLService.invocations [DeepLService.Invoke _]) with 1%nat.
  lia.
Qed.

(** X14. When the backend fails on every request and some text is not in
    the memory, [translateText] rejects with the error of the last
    attempt after sending [maxRetries + 1] requests, and stores nothing:
    the memory differs from the one before the call only in the usage
    statistics of the entries the lookup found. *)
Theorem translateText_backend_down
  (config : DeepLService.DeepLConfig)
  (post : nat -> DeepLService.DeepLTranslationRequest
          -> outcome DeepLService.Error (list DeepLService.Translated))
  (now : string) (st : DeepLService.state) (texts : list string)
  (targetLanguage : string) (sourceLanguage : option string) :
  let language := JS.or_else (default "" sourceLanguage) "auto" in
  (forall n request, exists e, post n request = Rejected e) ->
  (0 <= DeepLService.maxRetries config)%Z ->
  Exists
    (fun text =>
       DeepLService.falsy
         (Memory.stored (DeepLService.translationMemory st) language
            targetLanguage text) = true) texts ->
  exists st' e,
    DeepLService.translateText config post now st texts targetLanguage
      sourceLanguage = (st', Rejected (Some e))
    /\ Z.of_nat (List.length (DeepLService.requests st'))
       = (Z.of_nat (List.length (DeepLService.requests st))
          + DeepLService.maxRetries config + 1)%Z
    /\ forall key,
         exists n,
           DeepLService.translationMemory st' !! key
           = Nat.iter n (DeepLService.used now)
               <$> DeepLService.translationMemory st !! key.
Proof. apply translateText_all_fail. Qed.

Lemma translateText_backend_down_witness :
  let unreachable (n : nat) (request : DeepLService.DeepLTranslationRequest)
    : outcome DeepLService.Error (list DeepLService.Translated) :=
    Rejected (DeepLService.MkError "Network error: timeout") in
  exists st',
    DeepLService.translateText CacheExamples.config unreachable
      "2024-01-01T00:00:00.000Z" CacheExamples.fresh ["Hello"] "DE"
      (Some "EN")
    = (st', Rejected (Some (DeepLService.MkError "Network error: timeout")))
    /\ List.length (DeepLService.requests st') = 4%nat.
Proof.
  intros unreachable.
  destruct (translateText_backend_down CacheExamples.config unreachable
              "2024-01-01T00:00:00.000Z" CacheExamples.fresh ["Hello"] "DE"
              (Some "EN")) as [st' [e [Hrun [Hcount _]]]].
  - intros n request. eexists. reflexivity.
  - simpl. lia.
  - constructor. reflexivity.
  - exists st'. split.
    + rewrite Hrun. vm_compute in Hrun. injection Hrun as _ <-. reflexivity.
    + simpl in Hcount. lia.
Defined.



(** ** Entries and their keys *)

Lemma checkTranslationMemory_keyed
  (now sourceLanguage targetLanguage : string) (texts : list string)
  (memory : gmap string DeepLService.TranslationMemoryEntry) :
  Memory.keyed memory ->
  Memory.keyed
    (fst (DeepLService.checkTranslationMemory now memory texts
            sourceLanguage targetLanguage)).
Proof.
  intros Hkeyed key entry Hentry.
  destruct (checkTranslationMemory_bumps now sourceLanguage targetLanguage
              texts memory key) as [n Hn].
  rewrite Hn in Hentry.
  destruct (memory !! key) as [entry0|] eqn:Hentry0; [|discriminate].
  injection Hentry as <-.
  destruct (iter_used_fields now n entry0) as [-> _].
  apply (Hkeyed key entry0 Hentry0).
Qed.

Lemma storeInTranslationMemory_keyed
  (now sourceLanguage targetLanguage : string)
  (translatedTexts : list string) (sourceTexts : list string) :
  forall (memory : gmap string DeepLService.TranslationMemoryEntry)
         (i : nat),
    Memory.keyed memory ->
    Memory.keyed
      (DeepLService.storeInTranslationMemory now memory sourceTexts
         translatedTexts i sourceLanguage targetLanguage).
Proof.
  induction sourceTexts as [|text sourceTexts IH]; intros memory i Hkeyed;
    cbn [DeepLService.storeInTranslationMemory]; [exact Hkeyed|].
  apply IH. intros key entry.
  destruct (decide (DeepLService.getMemoryKey text sourceLanguage
                      targetLanguage = key)) as [<-|Hne].
  - rewrite lookup_insert_eq. intros [= <-]. reflexivity.
  - rewrite lookup_insert_ne by exact Hne. apply Hkeyed.
Qed.

Lemma importTranslationMemory_snoc
  (memory : gmap string DeepLService.TranslationMemoryEntry)
  (entries : list DeepLService.TranslationMemoryEntry)
  (entry : DeepLService.TranslationMemoryEntry) :
  Memory.importTranslationMemory memory (entries ++ [entry])
  = <[DeepLService.id entry := entry]>
      (Memory.importTranslationMemory memory entries).
Proof.
  unfold Memory.importTranslationMemory. rewrite foldl_app. reflexivity.
Qed.

Lemma importTranslationMemory_lookup
  (entries : list DeepLService.TranslationMemoryEntry) :
  NoDup (map DeepLService.id entries) ->
  forall key entry,
    Memory.importTranslationMemory ∅ entries !! key = Some entry
    <-> In entry entries /\ DeepLService.id entry = key.
Proof.
  induction entries as [|last entries IH] using rev_ind;
    intros Hdistinct key entry.
  - unfold Memory.importTranslationMemory. simpl. rewrite lookup_empty.
    split; [discriminate|intros [[] _]].
  - rewrite importTranslationMemory_snoc.
    rewrite map_app in Hdistinct. apply NoDup_app in Hdistinct.
    destruct Hdistinct as [Hentries [Hfresh _]].
    destruct (decide (DeepLService.id last = key)) as [<-|Hne].
    + rewrite lookup_insert_eq. split.
      * intros [= <-]. split; [apply in_or_app; right; left|]; reflexivity.
      * intros [Hin Hid]. apply in_app_or in Hin.
        destruct Hin as [Hin|[<-|[]]]; [|reflexivity].
        exfalso. apply (Hfresh (DeepLService.id last)).
        -- rewrite <- Hid. apply list_elem_of_In, in_map. exact Hin.
        -- simpl. left.
    + rewrite lookup_insert_ne by exact Hne. rewrite (IH Hentries).
      split.
      * intros [Hin Hid]. split; [apply in_or_app; left|]; assumption.
      * intros [Hin Hid]. apply in_app_or in Hin.
        destruct Hin as [Hin|[<-|[]]]; [auto|contradiction].
Qed.

Lemma translateText_keyed
  (config : DeepLService.DeepLConfig)
  (post : nat -> DeepLService.DeepLTranslationRequest
          -> outcome DeepLService.Error (list DeepLService.Translated))
  (now : string) (st : DeepLService.state) (texts : list string)
  (targetLanguage : string) (sourceLanguage : option string) :
  Memory.keyed (DeepLService.translationMemory st) ->
  Memory.keyed
    (DeepLService.translationMemory
       (fst (DeepLService.translateText config post now st texts
               targetLanguage sourceLanguage))).
Proof.
  intros Hkeyed. unfold DeepLService.translateText.
  set (language := JS.or_else _ "auto").
  pose proof (checkTranslationMemory_keyed now language targetLanguage
                texts _ Hkeyed) as Hchecked.
  destruct (DeepLService.checkTranslationMemory now _ texts language
              targetLanguage) as [memory1 cachedResults].
  cbn [fst] in Hchecked.
  destruct (DeepLService.filter_uncached texts cachedResults) as [|u us];
    [exact Hchecked|].
  destruct (DeepLService.executeWithRetry config _) as [log [tl|error]];
    cbn [fst DeepLService.translationMemory]; [|exact Hchecked].
  apply storeInTranslationMemory_keyed. exact Hchecked.
Qed.

Lemma importTranslationMemory_keyed
  (entries : list DeepLService.TranslationMemoryEntry) :
  forall memory : gmap string DeepLService.TranslationMemoryEntry,
    Memory.keyed memory ->
    Memory.keyed (Memory.importTranslationMemory memory entries).
Proof.
  unfold Memory.importTranslationMemory.
  induction entries as [|entry entries IH]; intros memory Hkeyed;
    cbn [foldl]; [exact Hkeyed|].
  apply IH. intros key e.
  destruct (decide (DeepLService.id entry = key)) as [<-|Hne].
  - rewrite lookup_insert_eq. intros [= <-]. reflexivity.
  - rewrite lookup_insert_ne by exact Hne. apply Hkeyed.
Qed.

(** X16. Every entry of the translation memory is filed under its own
    [id]: [translateText] keeps this, whatever the backend answers, and so
    does [importTranslationMemory]. *)
Theorem translationMemory_keyed_by_id
  (config : DeepLService.DeepLConfig)
  (post : nat -> DeepLService.DeepLTranslationRequest
          -> outcome DeepLService.Error (list DeepLService.Translated))
  (now : string) (st : DeepLService.state) (texts : list string)
  (targetLanguage : string) (sourceLanguage : option string)
  (entries : list DeepLService.TranslationMemoryEntry) :
  Memory.keyed (DeepLService.translationMemory st) ->
  Memory.keyed
    (DeepLService.translationMemory
       (fst (DeepLService.translateText config post now st texts
               targetLanguage sourceLanguage)))
  /\ Memory.keyed
       (Memory.importTranslationMemory (DeepLService.translationMemory st)
          entries).
Proof.
  intros Hkeyed. split.
  - apply translateText_keyed. exact Hkeyed.
  - apply importTranslationMemory_keyed. exact Hkeyed.
Qed.

Lemma translationMemory_keyed_by_id_witness :
  Memory.keyed (DeepLService.translationMemory CacheExamples.fresh)
  /\ Memory.keyed
       (DeepLService.translationMemory
          (fst (DeepLService.translateText CacheExamples.config
                  CacheExamples.shouting_post "2024-01-01T00:00:00.000Z"
                  CacheExamples.fresh ["Hello"] "DE" None))).
Proof.
  assert (Hfresh : Memory.keyed
                     (DeepLService.translationMemory CacheExamples.fresh)).
  { intros key entry Hentry. simpl in Hentry.
    rewrite lookup_empty in Hentry. discriminate. }
  split; [exact Hfresh|].
  apply (translationMemory_keyed_by_id CacheExamples.config
           CacheExamples.shouting_post "2024-01-01T00:00:00.000Z"
           CacheExamples.fresh ["Hello"] "DE" None [] Hfresh).
Defined.

(** X17. Export, clear, import restores the translation memory: when
    every entry is filed under its own [id], importing the exported
    entries, in whatever order the map enumerates them, into the cleared
    memory gives back the memory exported. *)
Theorem translationMemory_export_import
  (memory : gmap string DeepLService.TranslationMemoryEntry)
  (entries : list DeepLService.TranslationMemoryEntry) :
  Memory.keyed memory ->
  Memory.exported memory entries ->
  Memory.importTranslationMemory (Memory.clearTranslationMemory memory)
    entries = memory.
Proof.
  intros Hkeyed Hexported. unfold Memory.exported in Hexported.
  unfold Memory.clearTranslationMemory.
  assert (Hids : map DeepLService.id (map_to_list memory).*2
                 = (map_to_list memory).*1).
  { assert (Hlist :
      forall l : list (string * DeepLService.TranslationMemoryEntry),
              (forall key entry, In (key, entry) l ->
                                 DeepLService.id entry = key) ->
              map DeepLService.id l.*2 = l.*1).
    { induction l as [|[key entry] l IH]; intros Hl; [reflexivity|].
      rewrite !fmap_cons. cbn [map fst snd]. f_equal.
      - apply Hl. left. reflexivity.
      - apply IH. intros key' entry' Hin. apply Hl. right. exact Hin. }
    apply Hlist. intros key entry Hin. apply (Hkeyed key entry).
    apply elem_of_map_to_list, list_elem_of_In. exact Hin. }
  assert (Hdistinct : NoDup (map DeepLService.id entries)).
  { rewrite (fmap_Permutation DeepLService.id _ _ Hexported).
    change (DeepLService.id <$> (map_to_list memory).*2)
      with (map DeepLService.id (map_to_list memory).*2).
    rewrite Hids. apply NoDup_fst_map_to_list. }
  apply map_eq. intros key. apply option_eq. intros entry.
  rewrite (importTranslationMemory_lookup entries Hdistinct).
  split.
  - intros [Hin Hid].
    apply list_elem_of_In in Hin. rewrite Hexported in Hin.
    apply list_elem_of_fmap in Hin. destruct Hin as [[key' entry'] [-> Hin]].
    apply elem_of_map_to_list in Hin. simpl in *.
    rewrite <- Hid, (Hkeyed key' entry' Hin). exact Hin.
  - intros Hentry. split; [|apply (Hkeyed key entry Hentry)].
    apply list_elem_of_In. rewrite Hexported.
    apply list_elem_of_fmap. exists (key, entry). split; [reflexivity|].
    apply elem_of_map_to_list. exact Hentry.
Qed.

Lemma translationMemory_export_import_witness :
  let memory :=
    DeepLService.translationMemory
      (fst (DeepLService.translateText CacheExamples.config
              CacheExamples.shouting_post "2024-01-01T00:00:00.000Z"
              CacheExamples.fresh ["Hello"; "World"] "DE" (Some "EN"))) in
  Memory.keyed memory
  /\ Memory.exported memory (reverse (map_to_list memory).*2)
  /\ Memory.importTranslationMemory (Memory.clearTranslationMemory memory)
       (reverse (map_to_list memory).*2) = memory.
Proof.
  intros memory.
  assert (Hkeyed : Memory.keyed memory).
  { apply (translateText_keyed CacheExamples.config
             CacheExamples.shouting_post "2024-01-01T00:00:00.000Z"
             CacheExamples.fresh ["Hello"; "World"] "DE" (Some "EN")).
    intros key entry Hentry. simpl in Hentry.
    rewrite lookup_empty in Hentry. discriminate. }
  assert (Hexported : Memory.exported memory
                        (reverse (map_to_list memory).*2))
    by apply reverse_Permutation.
  split; [exact Hkeyed|]. split; [exact Hexported|].
  apply (translationMemory_export_import memory _ Hkeyed Hexported).
Defined.

(** ** Structured content *)

Lemma getParser_none `{JsonApi} `{DomApi} (content : string) :
  JSON_parse content = None ->
  HtmlParser.validate content = false ->
  MarkdownParser.validate content = false ->
  ContentParserFactory.getParser_in ContentParserFactory.parsers content
  = None.
Proof.
  intros Hparse Hhtml Hmarkdown.
  unfold ContentParserFactory.getParser_in, ContentParserFactory.parsers.
  cbn [List.find ContentParser.validate ContentParserFactory.editorJSParser
         ContentParserFactory.grapeJSParser ContentParserFactory.htmlParser
         ContentParserFactory.jsonParser ContentParserFactory.markdownParser].
  destruct (structural_validate_needs_json content Hparse) as [-> [-> ->]].
  rewrite Hhtml, Hmarkdown. reflexivity.
Qed.



Lemma all_settle_fair (schedule : nat -> list nat) (n : nat) :
  Fallback.all_settle schedule -> Batching.fair schedule n.
Proof. intros Hall i j Hj _. apply Hall. exact Hj. Qed.

Lemma in_order_all_settle : Fallback.all_settle Fallback.in_order.
Proof.
  intros i j Hj. unfold Fallback.in_order.
  apply list_elem_of_In, in_seq. lia.
Qed.

(** With a parser and at least one fragment, the call resolves with a
    [COMPLETED] record built from the fragments as translated. *)
Lemma processStructuredContent_translates `{JsonApi}
  (registry : list ContentParser.t)
  (post : nat -> NewTranslation.t
          -> outcome string TranslationService.ApiResponse)
  (schedule : nat -> list nat) (stamp : StructuredContent.Stamp)
  (content sourceLanguage targetLanguage context : string)
  (contentType : option Types.ContentType) (parser : ContentParser.t) :
  match contentType with
  | Some requested =>
      ContentParserFactory.getParserByType_in registry requested
  | None => ContentParserFactory.getParser_in registry content
  end = Some parser ->
  ContentParser.parse parser content <> [] ->
  Fallback.all_settle schedule ->
  exists record,
    StructuredContent.processStructuredContent registry post schedule stamp
      content sourceLanguage targetLanguage context contentType
    = Some (Resolved (Some record))
    /\ Translation.status record = Translation.COMPLETED
    /\ Translation.sourceText record = content
    /\ Translation.contentType record = ContentParser.type parser
    /\ Translation.translatedText record
       = ContentParser.reconstruct parser content
           (imap
              (Batching.translated
                 (StructuredContent.createTranslation post) sourceLanguage
                 targetLanguage) (ContentParser.parse parser content)).
Proof.
  intros Hparser Hsome Hsettle.
  unfold StructuredContent.processStructuredContent. rewrite Hparser.
  destruct (ContentParser.parse parser content) as [|f fs] eqn:Hparse;
    [contradiction|].
  cbn [List.length Nat.eqb].
  destruct (translateExtractedTexts_translates
              (StructuredContent.createTranslation post) schedule
              sourceLanguage targetLanguage (f :: fs)
              (all_settle_fair schedule _ Hsettle)) as [delays ->].
  eexists. split; [reflexivity|]. cbn. auto.
Qed.

(** X19. [processStructuredContent] cannot fail once a parser has found a
    fragment: when every backend call settles, successfully or not, it
    resolves with a [COMPLETED] record whose [translatedText] is the
    content rebuilt from the fragments, each carrying the translation of
    its call or, where the call failed, its original text. *)
Theorem processStructuredContent_always_completes `{JsonApi}
  (registry : list ContentParser.t)
  (post : nat -> NewTranslation.t
          -> outcome string TranslationService.ApiResponse)
  (schedule : nat -> list nat) (stamp : StructuredContent.Stamp)
  (content sourceLanguage targetLanguage context : string)
  (contentType : option Types.ContentType) (parser : ContentParser.t) :
  match contentType with
  | Some requested =>
      ContentParserFactory.getParserByType_in registry requested
  | None => ContentParserFactory.getParser_in registry content
  end = Some parser ->
  ContentParser.parse parser content <> [] ->
  Fallback.all_settle schedule ->
  exists record,
    StructuredContent.processStructuredContent registry post schedule stamp
      content sourceLanguage targetLanguage context contentType
    = Some (Resolved (Some record))
    /\ Translation.status record = Translation.COMPLETED
    /\ Translation.sourceText record = content
    /\ Translation.contentType record = ContentParser.type parser
    /\ Translation.translatedText record
       = ContentParser.reconstruct parser content
           (imap
              (Batching.translated
                 (StructuredContent.createTranslation post) sourceLanguage
                 targetLanguage) (ContentParser.parse parser content)).
Proof. apply processStructuredContent_translates. Qed.

Lemma processStructuredContent_always_completes_witness :
  exists record,
    @StructuredContent.processStructuredContent Sample.api
      (@ContentParserFactory.parsers Sample.api Sample.no_dom)
      Fallback.unreachable Fallback.in_order Fallback.stamp
      (Sample.print Sample.hello_editor) "en" "de" "page:1" None
    = Some (Resolved (Some record))
    /\ Translation.status record = Translation.COMPLETED
    /\ Translation.translatedText record = Sample.print Sample.hello_editor.
Proof.
  destruct (@processStructuredContent_always_completes Sample.api
              (@ContentParserFactory.parsers Sample.api Sample.no_dom)
              Fallback.unreachable Fallback.in_order Fallback.stamp
              (Sample.print Sample.hello_editor) "en" "de" "page:1" None
              (@ContentParserFactory.editorJSParser Sample.api))
    as [record [Hrun [Hstatus [_ [_ Htext]]]]].
  - unfold ContentParserFactory.getParser_in, ContentParserFactory.parsers.
    cbn [List.find ContentParser.validate
           ContentParserFactory.editorJSParser].
    assert (Hvalid : EditorJSParser.validate
                       (Sample.print Sample.hello_editor) = true)
      by (vm_compute; reflexivity).
    rewrite Hvalid. reflexivity.
  - cbn [ContentParser.parse ContentParserFactory.editorJSParser].
    vm_compute. discriminate.
  - apply in_order_all_settle.
  - exists record. split; [exact Hrun|]. split; [exact Hstatus|].
    rewrite Htext.
    cbn [ContentParser.parse ContentParser.reconstruct
           ContentParserFactory.editorJSParser].
    vm_compute. reflexivity.
Defined.

Lemma report_fst_incl (test : bool) (issue suggestion x : string)
  (found : list string * list string) :
  In x (fst found) ->
  In x (fst (StructuredContent.report test issue suggestion found)).
Proof.
  unfold StructuredContent.report. destruct test; [|auto].
  intros Hin. simpl. apply in_or_app. auto.
Qed.

Lemma report_lengths (test : bool) (issue suggestion : string)
  (found : list string * list string) :
  List.length (fst found) = List.length (snd found) ->
  List.length (fst (StructuredContent.report test issue suggestion found))
  = List.length (snd (StructuredContent.report test issue suggestion found)).
Proof.
  unfold StructuredContent.report. destruct test; [|auto].
  intros Hlen. simpl. rewrite !length_app, Hlen. reflexivity.
Qed.

Lemma report_raised (test : bool) (issue suggestion : string)
  (found : list string * list string) :
  fst (StructuredContent.report test issue suggestion found) = [] ->
  test = false /\ fst found = [].
Proof.
  unfold StructuredContent.report. destruct test; [|auto].
  simpl. intros Hnil. apply app_eq_nil in Hnil. destruct Hnil; discriminate.
Qed.

(** X20. [validateTranslation] pairs every issue with one suggestion, and
    never accepts a translation that is empty or identical to its source:
    [isValid] holds exactly when no issue was raised, and then the
    translated text is non-empty and differs from the source text. *)
Theorem validateTranslation_sound (registry : list ContentParser.t)
  (translation : Translation.t) :
  let '(isValid, issues, suggestions) :=
    StructuredContent.validateTranslation registry translation in
  List.length issues = List.length suggestions
  /\ (isValid = true <-> issues = [])
  /\ (isValid = true ->
      Translation.translatedText translation
      <> Translation.sourceText translation
      /\ Translation.translatedText translation <> "").
Proof.
  unfold StructuredContent.validateTranslation. cbv zeta.
  set (found1 := if StructuredContent.has_structure translation then _
                 else _).
  assert (Hlen1 : List.length (fst found1) = List.length (snd found1)).
  { unfold found1. destruct (StructuredContent.has_structure translation);
      [|reflexivity].
    destruct (ContentParserFactory.getParserByType_in registry _);
      [|reflexivity].
    apply report_lengths, report_lengths. reflexivity. }
  split; [apply report_lengths, report_lengths, Hlen1|].
  split.
  - split.
    + intros Hvalid. apply Nat.eqb_eq in Hvalid.
      apply length_zero_iff_nil. exact Hvalid.
    + intros ->. reflexivity.
  - intros Hvalid. apply Nat.eqb_eq, length_zero_iff_nil in Hvalid.
    apply report_raised in Hvalid. destruct Hvalid as [Hempty Hvalid].
    apply report_raised in Hvalid. destruct Hvalid as [Hsame _].
    split.
    + apply String.eqb_neq. exact Hsame.
    + intros Hnil. rewrite Hnil in Hempty. discriminate.
Qed.

Lemma validateTranslation_sound_witness :
  fst (fst (StructuredContent.validateTranslation [] Review.greeting)) = true
  /\ Translation.translatedText Review.greeting
     <> Translation.sourceText Review.greeting
  /\ Translation.translatedText Review.greeting <> "".
Proof.
  pose proof (validateTranslation_sound [] Review.greeting) as Hsound.
  destruct (StructuredContent.validateTranslation [] Review.greeting)
    as [[isValid issues] suggestions] eqn:Hrun.
  destruct Hsound as [_ [_ Hvalid]].
  vm_compute in Hrun. injection Hrun as <- _ _.
  split; [reflexivity|]. apply Hvalid. reflexivity.
Defined.

Lemma imap_translated_down
  (createTranslation :
     nat -> EnhancedTranslationService.TranslationRequest
     -> outcome string (option string))
  (sourceLanguage targetLanguage : string)
  (extractedTexts : list Types.ExtractedText) :
  (forall n request, exists e, createTranslation n request = Rejected e) ->
  imap (Batching.translated createTranslation sourceLanguage targetLanguage)
    extractedTexts
  = Position.untranslated extractedTexts.
Proof.
  intros Hdown. unfold Position.untranslated.
  revert createTranslation Hdown.
  induction extractedTexts as [|t l IH]; intros createTranslation Hdown;
    [reflexivity|].
  cbn [imap map]. f_equal.
  - unfold Batching.translated, Batching.translation_of.
    destruct (Hdown 0%nat
                (EnhancedTranslationService.request_for sourceLanguage
                   targetLanguage t)) as [e ->].
    reflexivity.
  - apply (IH (fun n => createTranslation (S n))).
    intros n request. apply Hdown.
Qed.

Lemma identical_translation_invalid (registry : list ContentParser.t)
  (translation : Translation.t) :
  Translation.translatedText translation
  = Translation.sourceText translation ->
  fst (fst (StructuredContent.validateTranslation registry translation))
  = false
  /\ In "Translation appears to be identical to source text"
       (snd (fst (StructuredContent.validateTranslation registry
                    translation))).
Proof.
  intros Hsame. unfold StructuredContent.validateTranslation. cbv zeta.
  cbn [fst snd]. rewrite Hsame, String.eqb_refl.
  set (found1 := if StructuredContent.has_structure translation then _
                 else _).
  assert (Hin : In "Translation appears to be identical to source text"
                  (fst (StructuredContent.report true
                          "Translation appears to be identical to source text"
                          "Verify that translation was actually performed"
                          found1))).
  { unfold StructuredContent.report. cbn [fst]. apply in_or_app.
    right. left. reflexivity. }
  split.
  - apply Nat.eqb_neq. intros Hnil. apply length_zero_iff_nil in Hnil.
    apply report_raised in Hnil. destruct Hnil as [_ Hnil].
    rewrite Hnil in Hin. destruct Hin.
  - apply report_fst_incl. exact Hin.
Qed.



Section BulkRun.
Context `{JsonApi}.
Variable registry : list ContentParser.t.
Variable stamps : nat -> StructuredContent.Stamp.
Variable post : nat -> nat -> NewTranslation.t
                -> outcome string TranslationService.ApiResponse.
Variable schedule : nat -> nat -> list nat.
Variable sourceLanguage : string.
Hypothesis Hsettle : forall call, Fallback.all_settle (schedule call).

Lemma processStructuredContent_settles (call : nat)
  (stamp : StructuredContent.Stamp)
  (content targetLanguage context : string)
  (contentType : option Types.ContentType) :
  exists settled,
    StructuredContent.processStructuredContent registry (post call)
      (schedule call) stamp content sourceLanguage targetLanguage context
      contentType
    = Some settled.
Proof.
  unfold StructuredContent.processStructuredContent.
  destruct (match contentType with Some _ => _ | None => _ end)
    as [parser|]; [|eauto].
  destruct (List.length (ContentParser.parse parser content) =? 0)%nat;
    [eauto|].
  destruct (translateExtractedTexts_translates
              (StructuredContent.createTranslation (post call))
              (schedule call) sourceLanguage targetLanguage
              (ContentParser.parse parser content)
              (all_settle_fair _ _ (Hsettle call))) as [delays ->].
  eauto.
Qed.

Lemma processItem_settles (call : nat)
  (item : StructuredContent.ContentItem) (targetLanguage : string) :
  exists pushed,
    StructuredContent.processItem registry stamps post schedule call item
      sourceLanguage targetLanguage
    = Some pushed.
Proof.
  unfold StructuredContent.processItem.
  destruct (processStructuredContent_settles call (stamps call)
              (StructuredContent.content item) targetLanguage
              (StructuredContent.item_context item)
              (StructuredContent.item_contentType item)) as [settled ->].
  destruct settled; eauto.
Qed.

Lemma forLanguages_pushes (item : StructuredContent.ContentItem)
  (targetLanguages : list string) (call : nat)
  (results : list (option Translation.t)) :
  exists pushed,
    StructuredContent.forLanguages registry stamps post schedule item
      sourceLanguage targetLanguages call results
    = Some (call + List.length targetLanguages, results ++ pushed)%nat
    /\ List.length pushed = List.length targetLanguages
    /\ forall j targetLanguage,
         targetLanguages !! j = Some targetLanguage ->
         exists element,
           pushed !! j = Some element
           /\ StructuredContent.processItem registry stamps post schedule
                (call + j) item sourceLanguage targetLanguage
              = Some element.
Proof.
  revert call results.
  induction targetLanguages as [|targetLanguage tl IH]; intros call results.
  - exists []. cbn [StructuredContent.forLanguages List.length].
    rewrite Nat.add_0_r, app_nil_r. split; [reflexivity|].
    split; [reflexivity|]. intros j l Hj. discriminate.
  - cbn [StructuredContent.forLanguages].
    destruct (processItem_settles call item targetLanguage)
      as [element Helement].
    rewrite Helement.
    destruct (IH (S call) (results ++ [element]))
      as [pushed [Hrun [Hlength Heach]]].
    exists (element :: pushed). rewrite Hrun.
    split.
    { f_equal. f_equal; [cbn [List.length]; lia|].
      rewrite <- app_assoc. reflexivity. }
    split; [cbn [List.length]; lia|].
    intros [|j] l Hj.
    + injection Hj as <-. exists element. rewrite Nat.add_0_r. auto.
    + destruct (Heach j l Hj) as [e [He Hitem]]. exists e.
      split; [exact He|]. rewrite <- Hitem. f_equal. lia.
Qed.

Lemma forItems_pushes (contentItems : list StructuredContent.ContentItem)
  (targetLanguages : list string) (call : nat)
  (results : list (option Translation.t)) :
  exists pushed,
    StructuredContent.forItems registry stamps post schedule contentItems
      sourceLanguage targetLanguages call results
    = Some (call + List.length contentItems * List.length targetLanguages,
            results ++ pushed)%nat
    /\ List.length pushed
       = (List.length contentItems * List.length targetLanguages)%nat
    /\ forall i j item targetLanguage,
         contentItems !! i = Some item ->
         targetLanguages !! j = Some targetLanguage ->
         exists element,
           pushed !! (i * List.length targetLanguages + j)%nat
           = Some element
           /\ StructuredContent.processItem registry stamps post schedule
                (call + (i * List.length targetLanguages + j)) item
                sourceLanguage targetLanguage
              = Some element.
Proof.
  revert call results.
  induction contentItems as [|item tl IH]; intros call results.
  - exists []. cbn [StructuredContent.forItems List.length].
    rewrite Nat.add_0_r, app_nil_r. split; [reflexivity|].
    split; [reflexivity|]. intros i j it l Hi. discriminate.
  - cbn [StructuredContent.forItems].
    destruct (forLanguages_pushes item targetLanguages call results)
      as [first [Hfirst [Hlength1 Heach1]]].
    rewrite Hfirst.
    destruct (IH (call + List.length targetLanguages)%nat (results ++ first))
      as [pushed [Hrun [Hlength Heach]]].
    exists (first ++ pushed). rewrite Hrun.
    split.
    { f_equal. f_equal; [cbn [List.length]; lia|].
      rewrite <- app_assoc. reflexivity. }
    split; [rewrite length_app; cbn [List.length]; lia|].
    intros [|i] j it l Hi Hj.
    + injection Hi as <-. destruct (Heach1 j l Hj) as [e [He Hitem]].
      exists e. cbn [Nat.mul Nat.add]. split; [|exact Hitem].
      apply lookup_app_l_Some. exact He.
    + destruct (Heach i j it l Hi Hj) as [e [He Hitem]]. exists e.
      split.
      * rewrite lookup_app_r by (rewrite Hlength1; cbn [Nat.mul]; lia).
        rewrite <- He. f_equal. rewrite Hlength1. cbn [Nat.mul]. lia.
      * rewrite <- Hitem. f_equal. cbn [Nat.mul]. lia.
Qed.

End BulkRun.

(** X22. [bulkProcessContent] settles every (item, language) pair and no
    failure aborts the run: when every backend call settles, it resolves
    with one element for each pair, items in order and, within an item,
    languages in order; the element of a pair is the record its
    [processStructuredContent] call resolved with or, where that call
    rejected, a [FAILED] record of the pair carrying the message. *)
Theorem bulkProcessContent_one_result_per_pair `{JsonApi}
  (registry : list ContentParser.t) (stamps : nat -> StructuredContent.Stamp)
  (post : nat -> nat -> NewTranslation.t
          -> outcome string TranslationService.ApiResponse)
  (schedule : nat -> nat -> list nat)
  (contentItems : list StructuredContent.ContentItem)
  (sourceLanguage : string) (targetLanguages : list string) :
  (forall call, Fallback.all_settle (schedule call)) ->
  exists results,
    StructuredContent.bulkProcessContent registry stamps post schedule
      contentItems sourceLanguage targetLanguages
    = Some results
    /\ List.length results
       = (List.length contentItems * List.length targetLanguages)%nat
    /\ forall i j item targetLanguage,
         contentItems !! i = Some item ->
         targetLanguages !! j = Some targetLanguage ->
         let call := (i * List.length targetLanguages + j)%nat in
         match
           StructuredContent.processStructuredContent registry (post call)
             (schedule call) (stamps call) (StructuredContent.content item)
             sourceLanguage targetLanguage
             (StructuredContent.item_context item)
             (StructuredContent.item_contentType item)
         with
         | Some (Resolved translation) => results !! call = Some translation
         | Some (Rejected message) =>
             results !! call
             = Some
                 (Some
                    (StructuredContent.failed_record (stamps call) item
                       sourceLanguage targetLanguage message))
         | None => False
         end.
Proof.
  intros Hsettle. unfold StructuredContent.bulkProcessContent.
  destruct (forItems_pushes registry stamps post schedule sourceLanguage
              Hsettle contentItems targetLanguages 0 [])
    as [pushed [Hrun [Hlength Heach]]].
  rewrite Hrun. exists pushed. split; [reflexivity|].
  split; [exact Hlength|].
  intros i j item targetLanguage Hi Hj. cbv zeta.
  destruct (Heach i j item targetLanguage Hi Hj) as [element [He Hitem]].
  rewrite Nat.add_0_l in Hitem.
  set (call := (i * List.length targetLanguages + j)%nat) in *.
  unfold StructuredContent.processItem in Hitem.
  destruct (StructuredContent.processStructuredContent registry (post call)
              (schedule call) (stamps call) (StructuredContent.content item)
              sourceLanguage targetLanguage
              (StructuredContent.item_context item)
              (StructuredContent.item_contentType item))
    as [[translation|message]|]; [| |discriminate];
    injection Hitem as <-; exact He.
Qed.

Lemma bulkProcessContent_one_result_per_pair_witness :
  exists results,
    @StructuredContent.bulkProcessContent Sample.api
      (@ContentParserFactory.parsers Sample.api Sample.no_dom)
      (fun _ => Fallback.stamp) (fun _ => Fallback.unreachable)
      (fun _ => Fallback.in_order)
      [{| StructuredContent.content := "Hello";
          StructuredContent.item_context := "page:1";
          StructuredContent.item_contentType := None |};
       {| StructuredContent.content := "<p>Hello world</p>";
          StructuredContent.item_context := "page:2";
          StructuredContent.item_contentType := Some Types.HTML |}]
      "en" ["de"; "fr"; "es"]
    = Some results
    /\ List.length results = 6%nat.
Proof.
  destruct (@bulkProcessContent_one_result_per_pair Sample.api
              (@ContentParserFactory.parsers Sample.api Sample.no_dom)
              (fun _ => Fallback.stamp) (fun _ => Fallback.unreachable)
              (fun _ => Fallback.in_order)
              [{| StructuredContent.content := "Hello";
                  StructuredContent.item_context := "page:1";
                  StructuredContent.item_contentType := None |};
               {| StructuredContent.content := "<p>Hello world</p>";
                  StructuredContent.item_context := "page:2";
                  StructuredContent.item_contentType := Some Types.HTML |}]
              "en" ["de"; "fr"; "es"])
    as [results [Hrun [Hlength _]]].
  - intros call. apply in_order_all_settle.
  - exists results. split; [exact Hrun | exact Hlength].
Defined.

(** ** A block that throws *)

Lemma forEach_from_throws {A : Type} (f : nat -> A -> Extract.M unit)
  (before : list A) (x : A) (after : list A) :
  forall index,
    snd (f (index + List.length before)%nat x) = None ->
    Extract.forEach_from f index (before ++ x :: after)
    = Extract.forEach_from f index (before ++ [x]).
Proof.
  induction before as [|y before IH]; intros index Hthrows;
    cbn [app Extract.forEach_from List.length] in *.
  - rewrite Nat.add_0_r in Hthrows.
    destruct (f index x) as [w r]. cbn [snd] in Hthrows. subst r.
    reflexivity.
  - rewrite (IH (S index)); [reflexivity|].
    rewrite <- Hthrows. do 2 f_equal. lia.
Qed.



(** ** Batches *)

Section BatchRuns.
Variable config : DeepLService.DeepLConfig.
Variable post :
  nat -> DeepLService.DeepLTranslationRequest
  -> outcome DeepLService.Error (list DeepLService.Translated).
Variable now : nat -> string.
Variable completion : nat -> string.
Variable typeErrorMessage : string.

Lemma translateBatch_from_all_fail :
  (forall n request, exists e, post n request = Rejected e) ->
  (0 <= DeepLService.maxRetries config)%Z ->
  forall (retries fuel call : nat) (st : Batch.state)
    (batch : Batch.TranslationBatch),
    Z.to_nat (DeepLService.maxRetries config - Batch.retryCount batch - 1)
    = retries ->
    (retries <= fuel)%nat ->
    Exists
      (fun text =>
         DeepLService.falsy
           (Memory.stored
              (DeepLService.translationMemory (Batch.service st))
              (JS.or_else (Batch.sourceLanguage batch) "auto")
              (Batch.targetLanguage batch) text) = true)
      (Batch.texts batch) ->
    exists st' e last,
      Batch.translateBatch_from config post now completion typeErrorMessage
        fuel call st batch
      = Some (st', Rejected (Some e))
      /\ Z.of_nat (List.length (DeepLService.requests (Batch.service st')))
         = (Z.of_nat (List.length (DeepLService.requests (Batch.service st)))
            + (Z.of_nat retries + 1) * (DeepLService.maxRetries config + 1))%Z
      /\ Batch.activeBatches st' !! Batch.id batch = Some last
      /\ Batch.status last = Batch.FAILED
      /\ Batch.retryCount last
         = (Batch.retryCount batch + Z.of_nat retries + 1)%Z
      /\ Batch.errors last
         = Some [Batch.message_of typeErrorMessage (Some e)]
      /\ List.length (Batch.waited st')
         = (List.length (Batch.waited st) + retries)%nat.
Proof.
  intros Hdown Hmax.
  induction retries as [|retries IH]; intros fuel call st batch Hretries
    Hfuel Hmiss.
  - destruct fuel as [|fuel];
      cbn [Batch.translateBatch_from];
      destruct (translateText_all_fail config post (now call)
                  (Batch.service st) (Batch.texts batch)
                  (Batch.targetLanguage batch)
                  (Some (Batch.sourceLanguage batch)) Hdown Hmax Hmiss)
        as [service' [e [-> [Hcount _]]]];
      cbn [Batch.failed Batch.retryCount];
      (destruct (Z.ltb_spec (Batch.retryCount batch + 1)
                   (DeepLService.maxRetries config)); [lia|]);
      eexists; exists e; eexists;
      (split; [reflexivity|]);
      cbn [Batch.service Batch.activeBatches Batch.waited];
      (split; [lia|]);
      (split; [apply lookup_insert_eq|]);
      cbn [Batch.failed Batch.status Batch.retryCount Batch.errors];
      (split; [reflexivity|]); (split; [lia|]); (split; [reflexivity|]);
      lia.
  - destruct fuel as [|fuel]; [lia|].
    cbn [Batch.translateBatch_from].
    destruct (translateText_all_fail config post (now call)
                (Batch.service st) (Batch.texts batch)
                (Batch.targetLanguage batch)
                (Some (Batch.sourceLanguage batch)) Hdown Hmax Hmiss)
      as [service' [e [-> [Hcount Hbumps]]]].
    cbn [Batch.failed Batch.retryCount].
    destruct (Z.ltb_spec (Batch.retryCount batch + 1)
                (DeepLService.maxRetries config)); [|lia].
    match goal with
    | |- context [Batch.translateBatch_from _ _ _ _ _ fuel (S call) ?st2 ?b] =>
        destruct (IH fuel (S call) st2 b)
          as [st' [e' [last [Hrun [Hcount' [Hlast [Hstatus [Hretry
                [Herrors Hwaited]]]]]]]]]
    end.
    + cbn [Batch.failed Batch.retryCount]. lia.
    + lia.
    + cbn [Batch.failed Batch.service Batch.texts Batch.sourceLanguage
             Batch.targetLanguage].
      apply Exists_exists. apply Exists_exists in Hmiss.
      destruct Hmiss as [text [Hin Hfalsy]]. exists text.
      split; [exact Hin|].
      rewrite (stored_after_bumps
                 (DeepLService.translationMemory (Batch.service st))
                 (DeepLService.translationMemory service') (now call)
                 Hbumps).
      exact Hfalsy.
    + exists st', e', last. split; [exact Hrun|].
      cbn [Batch.failed Batch.service Batch.id Batch.retryCount
             Batch.waited] in *.
      split; [lia|]. split; [exact Hlast|]. split; [exact Hstatus|].
      split; [lia|]. split; [exact Herrors|].
      rewrite Hwaited, length_app. cbn [List.length]. lia.
Qed.

Lemma translateBatch_from_resolved (fuel : nat) :
  forall (call : nat) (st st' : Batch.state)
    (batch done : Batch.TranslationBatch),
    Batch.translateBatch_from config post now completion typeErrorMessage
      fuel call st batch
    = Some (st', Resolved done) ->
    Batch.status done = Batch.COMPLETED
    /\ Batch.id done = Batch.id batch
    /\ Batch.texts done = Batch.texts batch
    /\ (exists translated,
          Batch.results done = Some translated
          /\ List.length translated = List.length (Batch.texts batch))
    /\ Batch.activeBatches st' !! Batch.id batch = Some done
    /\ (Batch.retryCount batch <= Batch.retryCount done)%Z
    /\ (Batch.retryCount done = Batch.retryCount batch ->
        Batch.errors done = Batch.errors batch)
    /\ ((Batch.retryCount batch < Batch.retryCount done)%Z ->
        exists message, Batch.errors done = Some [message]).
Proof.
  assert (Hfirst :
    forall fuel call st st' batch done service' translated,
      DeepLService.translateText config post (now call) (Batch.service st)
        (Batch.texts batch) (Batch.targetLanguage batch)
        (Some (Batch.sourceLanguage batch))
      = (service', Resolved translated) ->
      Batch.translateBatch_from config post now completion typeErrorMessage
        fuel call st batch
      = Some (st', Resolved done) ->
      Batch.status done = Batch.COMPLETED
      /\ Batch.id done = Batch.id batch
      /\ Batch.texts done = Batch.texts batch
      /\ (exists translated,
            Batch.results done = Some translated
            /\ List.length translated = List.length (Batch.texts batch))
      /\ Batch.activeBatches st' !! Batch.id batch = Some done
      /\ (Batch.retryCount batch <= Batch.retryCount done)%Z
      /\ (Batch.retryCount done = Batch.retryCount batch ->
          Batch.errors done = Batch.errors batch)
      /\ ((Batch.retryCount batch < Batch.retryCount done)%Z ->
          exists message, Batch.errors done = Some [message])).
  { intros fuel' call st st' batch done service' translated Htext Hrun.
    pose proof (translateText_length _ _ _ _ _ _ _ _ _ Htext) as Hlength.
    destruct fuel'; cbn [Batch.translateBatch_from] in Hrun;
      rewrite Htext in Hrun; injection Hrun as <- <-;
      cbn [Batch.completed Batch.status Batch.id Batch.texts Batch.results
             Batch.activeBatches Batch.retryCount Batch.errors];
      (split; [reflexivity|]); (split; [reflexivity|]);
      (split; [reflexivity|]); (split; [eauto|]);
      (split; [apply lookup_insert_eq|]); (split; [lia|]);
      (split; [reflexivity|]); lia. }
  induction fuel as [|fuel IH]; intros call st st' batch done Hrun.
  - destruct (DeepLService.translateText config post (now call)
                (Batch.service st) (Batch.texts batch)
                (Batch.targetLanguage batch)
                (Some (Batch.sourceLanguage batch)))
      as [service' [translated|error]] eqn:Htext.
    + exact (Hfirst _ _ _ _ _ _ _ _ Htext Hrun).
    + cbn [Batch.translateBatch_from] in Hrun. rewrite Htext in Hrun.
      destruct (_ <? _)%Z in Hrun; discriminate.
  - destruct (DeepLService.translateText config post (now call)
                (Batch.service st) (Batch.texts batch)
                (Batch.targetLanguage batch)
                (Some (Batch.sourceLanguage batch)))
      as [service' [translated|error]] eqn:Htext.
    + exact (Hfirst _ _ _ _ _ _ _ _ Htext Hrun).
    + cbn [Batch.translateBatch_from] in Hrun. rewrite Htext in Hrun.
      destruct (_ <? _)%Z in Hrun; [|discriminate].
      apply IH in Hrun.
      cbn [Batch.failed Batch.id Batch.texts Batch.retryCount Batch.errors]
        in Hrun.
      destruct Hrun as [Hstatus [Hid [Htexts [Hresults [Hactive [Hretry
        [Hsame Hmore]]]]]]].
      split; [exact Hstatus|]. split; [exact Hid|]. split; [exact Htexts|].
      split; [exact Hresults|]. split; [exact Hactive|]. split; [lia|].
      split; [lia|]. intros _.
      destruct (Z.eq_dec (Batch.retryCount done)
                  (Batch.retryCount batch + 1)%Z) as [Heq|Hne].
      * rewrite (Hsame Heq). eauto.
      * apply Hmore. lia.
Qed.

End BatchRuns.

(** X24. Retries multiply: [translateBatch] retries a failed batch while
    its [retryCount] is below [maxRetries], and every try is a
    [translateText] call that itself sends [maxRetries + 1] requests.
    With a backend that fails on every request and a text the memory does
    not hold, the call rejects after
    [max(1, maxRetries - retryCount) * (maxRetries + 1)] requests, and
    [getBatchStatus] then shows the batch as [FAILED], its [retryCount]
    raised by the number of tries and its [errors] holding the message of
    the error the call rejects with. *)
Theorem translateBatch_gives_up (config : DeepLService.DeepLConfig)
  (post : nat -> DeepLService.DeepLTranslationRequest
          -> outcome DeepLService.Error (list DeepLService.Translated))
  (now completion : nat -> string) (typeErrorMessage : string)
  (st : Batch.state) (batch : Batch.TranslationBatch) :
  let tries :=
    Z.max 1 (DeepLService.maxRetries config - Batch.retryCount batch) in
  (forall n request, exists e, post n request = Rejected e) ->
  (0 <= DeepLService.maxRetries config)%Z ->
  Exists
    (fun text =>
       DeepLService.falsy
         (Memory.stored (DeepLService.translationMemory (Batch.service st))
            (JS.or_else (Batch.sourceLanguage batch) "auto")
            (Batch.targetLanguage batch) text) = true)
    (Batch.texts batch) ->
  exists st' e last,
    Batch.translateBatch config post now completion typeErrorMessage st batch
    = Some (st', Rejected (Some e))
    /\ Z.of_nat (List.length (DeepLService.requests (Batch.service st')))
       = (Z.of_nat (List.length (DeepLService.requests (Batch.service st)))
          + tries * (DeepLService.maxRetries config + 1))%Z
    /\ Batch.getBatchStatus st' (Batch.id batch) = Some last
    /\ Batch.status last = Batch.FAILED
    /\ Batch.retryCount last = (Batch.retryCount batch + tries)%Z
    /\ Batch.errors last = Some [Batch.message_of typeErrorMessage (Some e)]
    /\ Z.of_nat (List.length (Batch.waited st'))
       = (Z.of_nat (List.length (Batch.waited st)) + tries - 1)%Z.
Proof.
  intros tries Hdown Hmax Hmiss. unfold Batch.translateBatch.
  destruct (translateBatch_from_all_fail config post now completion
              typeErrorMessage Hdown Hmax
              (Z.to_nat
                 (DeepLService.maxRetries config - Batch.retryCount batch - 1))
              (Z.to_nat
                 (DeepLService.maxRetries config - Batch.retryCount batch))
              0 st batch eq_refl ltac:(lia) Hmiss)
    as [st' [e [last [Hrun [Hcount [Hlast [Hstatus [Hretry
          [Herrors Hwaited]]]]]]]]].
  exists st', e, last. split; [exact Hrun|].
  assert (Htries :
    (Z.of_nat
       (Z.to_nat
          (DeepLService.maxRetries config - Batch.retryCount batch - 1)) + 1
     = tries)%Z) by (unfold tries; lia).
  split; [rewrite Hcount, Htries; reflexivity|].
  split; [exact Hlast|]. split; [exact Hstatus|].
  split; [rewrite Hretry; lia|]. split; [exact Herrors|].
  rewrite Hwaited. lia.
Qed.

Lemma translateBatch_gives_up_witness :
  exists st' last,
    Batch.translateBatch CacheExamples.config Batch.unreachable
      (fun _ => "2024-01-01T00:00:00.000Z")
      (fun _ => "2024-01-01T00:00:09.000Z") "" Batch.fresh Batch.greeting
    = Some
        (st', Rejected (Some (DeepLService.MkError "Network error: timeout")))
    /\ List.length (DeepLService.requests (Batch.service st')) = 12%nat
    /\ Batch.getBatchStatus st' "batch-1" = Some last
    /\ Batch.retryCount last = 3%Z.
Proof.
  destruct (translateBatch_gives_up CacheExamples.config Batch.unreachable
              (fun _ => "2024-01-01T00:00:00.000Z")
              (fun _ => "2024-01-01T00:00:09.000Z") "" Batch.fresh
              Batch.greeting)
    as [st' [e [last [Hrun [Hcount [Hlast [_ [Hretry _]]]]]]]].
  - intros n request. eexists. reflexivity.
  - vm_compute. discriminate.
  - constructor. reflexivity.
  - exists st', last. split; [|split; [|split]].
    + rewrite Hrun. vm_compute in Hrun. injection Hrun as _ <-. reflexivity.
    + change (DeepLService.maxRetries CacheExamples.config) with 3%Z
        in Hcount.
      change (Batch.retryCount Batch.greeting) with 0%Z in Hcount.
      change (List.length
                (DeepLService.requests (Batch.service Batch.fresh)))
        with 0%nat in Hcount.
      lia.
    + exact Hlast.
    + rewrite Hretry. reflexivity.
Defined.

(** X25. A batch [translateBatch] resolves with is [COMPLETED], keeps the
    [id] and [texts] of the batch passed in, holds one result per text and
    is what [getBatchStatus] returns for its [id] afterwards.  If it took
    a retry, the batch still carries the [errors] entry of the failed try
    and the raised [retryCount]; otherwise both are as passed in. *)
Theorem translateBatch_resolved (config : DeepLService.DeepLConfig)
  (post : nat -> DeepLService.DeepLTranslationRequest
          -> outcome DeepLService.Error (list DeepLService.Translated))
  (now completion : nat -> string) (typeErrorMessage : string)
  (st st' : Batch.state) (batch done : Batch.TranslationBatch) :
  Batch.translateBatch config post now completion typeErrorMessage st batch
  = Some (st', Resolved done) ->
  Batch.status done = Batch.COMPLETED
  /\ Batch.id done = Batch.id batch
  /\ Batch.texts done = Batch.texts batch
  /\ (exists translated,
        Batch.results done = Some translated
        /\ List.length translated = List.length (Batch.texts batch))
  /\ Batch.getBatchStatus st' (Batch.id batch) = Some done
  /\ (Batch.retryCount batch <= Batch.retryCount done)%Z
  /\ (Batch.retryCount done = Batch.retryCount batch ->
      Batch.errors done = Batch.errors batch)
  /\ ((Batch.retryCount batch < Batch.retryCount done)%Z ->
      exists message, Batch.errors done = Some [message]).
Proof. apply translateBatch_from_resolved. Qed.

Lemma translateBatch_resolved_witness :
  exists st' done,
    Batch.translateBatch CacheExamples.config Batch.recovering
      (fun _ => "2024-01-01T00:00:00.000Z")
      (fun _ => "2024-01-01T00:00:09.000Z") "" Batch.fresh Batch.greeting
    = Some (st', Resolved done)
    /\ Batch.status done = Batch.COMPLETED
    /\ Batch.results done = Some [Some "HELLO"]
    /\ Batch.retryCount done = 1%Z
    /\ Batch.errors done = Some ["Network error: timeout"].
Proof.
  destruct (Batch.translateBatch CacheExamples.config Batch.recovering
              (fun _ => "2024-01-01T00:00:00.000Z")
              (fun _ => "2024-01-01T00:00:09.000Z") "" Batch.fresh
              Batch.greeting) as [[st' [done|error]]|] eqn:Hrun.
  - exists st', done. split; [reflexivity|].
    destruct (translateBatch_resolved CacheExamples.config Batch.recovering
                (fun _ => "2024-01-01T00:00:00.000Z")
                (fun _ => "2024-01-01T00:00:09.000Z") "" Batch.fresh st'
                Batch.greeting done Hrun) as [Hstatus _].
    split; [exact Hstatus|].
    vm_compute in Hrun. injection Hrun as _ <-. auto.
  - vm_compute in Hrun. discriminate.
  - vm_compute in Hrun. discriminate.
Defined.

(** ** Statistics *)

Lemma total_insert (dist : gmap string Z) (key : string) (n : Z) :
  Statistics.total (<[key := n]> dist)
  = (Statistics.total dist - default 0 (dist !! key) + n)%Z.
Proof.
  unfold Statistics.total.
  destruct (dist !! key) as [m|] eqn:Hkey; cbn [default].
  - rewrite <- (insert_delete_eq dist key n).
    rewrite map_fold_insert_L; [|intros; lia|apply lookup_delete_eq].
    rewrite (map_fold_delete_L _ _ key m dist); [|intros; lia|exact Hkey].
    cbv beta delta [id]. lia.
  - rewrite map_fold_insert_L; [|intros; lia|exact Hkey]. cbv beta. lia.
Qed.

Lemma languageDistribution_snoc
  (memoryEntries : list DeepLService.TranslationMemoryEntry)
  (entry : DeepLService.TranslationMemoryEntry) :
  Statistics.languageDistribution (memoryEntries ++ [entry])
  = <[Statistics.pair_key entry :=
        (Statistics.count_or_zero
           (Statistics.languageDistribution memoryEntries)
           (Statistics.pair_key entry) + 1)%Z]>
      (Statistics.languageDistribution memoryEntries).
Proof.
  unfold Statistics.languageDistribution. rewrite foldl_app. reflexivity.
Qed.

Lemma languageDistribution_lookup
  (memoryEntries : list DeepLService.TranslationMemoryEntry) (key : string) :
  Statistics.languageDistribution memoryEntries !! key
  = if (0 <? Statistics.entries_of key memoryEntries)%Z
    then Some (Statistics.entries_of key memoryEntries) else None.
Proof.
  induction memoryEntries as [|entry memoryEntries IH] using rev_ind.
  - reflexivity.
  - rewrite languageDistribution_snoc. unfold Statistics.entries_of in *.
    rewrite List.filter_app, length_app. cbn [List.filter].
    destruct (String.eqb_spec (Statistics.pair_key entry) key) as [->|Hne].
    + rewrite lookup_insert_eq. unfold Statistics.count_or_zero.
      rewrite IH. cbn [List.length].
      destruct (Z.ltb_spec 0
                  (Z.of_nat
                     (List.length
                        (List.filter
                           (fun entry => String.eqb
                                           (Statistics.pair_key entry) key)
                           memoryEntries)))) as [Hpos|Hzero].
      * destruct (Z.eqb_spec
                    (Z.of_nat
                       (List.length
                          (List.filter
                             (fun entry => String.eqb
                                             (Statistics.pair_key entry) key)
                             memoryEntries))) 0); [lia|].
        destruct (Z.ltb_spec 0
                    (Z.of_nat
                       (List.length
                          (List.filter
                             (fun entry => String.eqb
                                             (Statistics.pair_key entry)
                                             key)
                             memoryEntries) + 1))); [|lia].
        f_equal. lia.
      * destruct (Z.ltb_spec 0
                    (Z.of_nat
                       (List.length
                          (List.filter
                             (fun entry => String.eqb
                                             (Statistics.pair_key entry)
                                             key)
                             memoryEntries) + 1))); [|lia].
        f_equal. lia.
    + rewrite lookup_insert_ne by exact Hne. rewrite IH.
      cbn [List.length]. rewrite Nat.add_0_r. reflexivity.
Qed.

(** X26. [languageDistribution] of [getTranslationStatistics] counts every
    entry of the memory once: a language pair is a key exactly when the
    memory holds an entry of it, its count is the number of such entries,
    and the counts add up to [totalTranslations]. *)
Theorem languageDistribution_counts_entries
  (memoryEntries : list DeepLService.TranslationMemoryEntry) :
  (forall key,
     Statistics.languageDistribution memoryEntries !! key
     = if (0 <? Statistics.entries_of key memoryEntries)%Z
       then Some (Statistics.entries_of key memoryEntries) else None)
  /\ Statistics.total (Statistics.languageDistribution memoryEntries)
     = Statistics.totalTranslations memoryEntries.
Proof.
  split; [apply languageDistribution_lookup|].
  unfold Statistics.totalTranslations.
  induction memoryEntries as [|entry memoryEntries IH] using rev_ind.
  - reflexivity.
  - rewrite languageDistribution_snoc, total_insert, IH, length_app.
    unfold Statistics.count_or_zero.
    destruct (Statistics.languageDistribution memoryEntries
                !! Statistics.pair_key entry) as [n|];
      cbn [default List.length]; cbv beta delta [id].
    + destruct (Z.eqb_spec n 0); lia.
    + lia.
Qed.
